(** * compress.py: the 8 MiB video compressor, embedded and verified

    A shallow embedding of [compress.py].  Python's [float] is IEEE-754
    binary64; it is modelled by the Standard Library's executable
    specification [SpecFloat] at precision 53 and exponent bound 1024, so
    every numeric step of the source (rounding, overflow to infinity,
    NaN) is the one the interpreter performs.  Python's [int] is [Z].
    Exceptions are values of an error monad; the external collaborators
    (ffprobe, ffmpeg, the file system, the console) are an explicit
    [World] of replies, and every call the program makes to them is
    recorded in a trace of events. *)

From Stdlib Require Import ZArith QArith Qpower List Bool Lia Lqa String Ascii.
From Stdlib Require Import DecimalString Sorted.
From Stdlib Require Import Floats.SpecFloat.
Import ListNotations.

Local Open Scope string_scope.
Local Open Scope Z_scope.

(** ** Exceptions and the error monad *)

Inductive exn : Type :=
| ZeroDivisionError
| OverflowError
| ValueError
| KeyError
| IndexError
| OSError
| NameError
| UnicodeEncodeError.

Inductive result (A : Type) : Type :=
| Ret (a : A)
| Raise (e : exn).

Arguments Ret {A} a.
Arguments Raise {A} e.

Definition bind {A B : Type} (c : result A) (k : A -> result B) : result B :=
  match c with
  | Ret a => k a
  | Raise e => Raise e
  end.

Declare Scope py_scope.
Delimit Scope py_scope with py.
Notation "x <- c ;; k" := (bind c (fun x => k))
  (at level 61, c at next level, right associativity) : py_scope.
Local Open Scope py_scope.

(** ** Python numbers *)

Module PyFloat.

Definition prec : Z := 53.
Definition emax : Z := 1024.

Definition float : Type := spec_float.

Definition fmul : float -> float -> float := SFmul prec emax.
Definition fsub : float -> float -> float := SFsub prec emax.
Definition fdiv : float -> float -> float := SFdiv prec emax.

Definition is_zero (x : float) : bool :=
  match x with S754_zero _ => true | _ => false end.

Definition is_nan (x : float) : bool :=
  match x with S754_nan => true | _ => false end.

Definition is_finite (x : float) : bool :=
  match x with S754_zero _ | S754_finite _ _ _ => true | _ => false end.

Definition zero : float := S754_zero false.

(** [float(n)] for an [int]: correctly rounded, [OverflowError] when the
    rounded value is not finite. *)
Definition of_int (n : Z) : result float :=
  match binary_normalize prec emax n 0 false with
  | S754_infinity _ => Raise OverflowError
  | f => Ret f
  end.

(** [a / b] on two [int]s: the correctly rounded quotient. *)
Definition int_truediv (a b : Z) : result float :=
  if b =? 0 then Raise ZeroDivisionError
  else if a =? 0 then Ret (S754_zero (b <? 0))
  else
    let '(m, e, l) := SFdiv_core_binary prec emax (Z.abs a) 0 (Z.abs b) 0 in
    match binary_round_aux prec emax (xorb (a <? 0) (b <? 0)) m e l with
    | S754_infinity _ => Raise OverflowError
    | f => Ret f
    end.

(** [x <= y], [x < y] on floats: false as soon as one side is NaN. *)
Definition leb : float -> float -> bool := SFleb.
Definition ltb : float -> float -> bool := SFltb.

(** [math.floor(x)]. *)
Definition floor (x : float) : result Z :=
  match x with
  | S754_nan => Raise ValueError
  | S754_infinity _ => Raise OverflowError
  | S754_zero _ => Ret 0
  | S754_finite s m e =>
      let n := if s then Z.neg m else Z.pos m in
      Ret (if 0 <=? e then n * 2 ^ e else n / 2 ^ (- e))
  end.

(** [int(x)]: truncation toward zero. *)
Definition trunc (x : float) : result Z :=
  match x with
  | S754_nan => Raise ValueError
  | S754_infinity _ => Raise OverflowError
  | S754_zero _ => Ret 0
  | S754_finite s m e =>
      let n := if s then Z.neg m else Z.pos m in
      Ret (if 0 <=? e then n * 2 ^ e else Z.quot n (2 ^ (- e)))
  end.

(** The float literals of the source, as the parser rounds them. *)
Definition lit_0_03 : float := S754_finite false 8646911284551352 (-58).
Definition lit_0_95 : float := S754_finite false 8556839292003942 (-53).
Definition lit_1_5 : float := S754_finite false 6755399441055744 (-52).

(** The rational a finite float denotes (0 for the others). *)
Definition to_Q (x : float) : Q :=
  match x with
  | S754_finite s m e =>
      (if s then inject_Z (Z.neg m) else inject_Z (Z.pos m)) * (2 ^ e)%Q
  | _ => 0%Q
  end.

End PyFloat.

Import PyFloat.

(** A Python number is an [int] or a [float]; the arithmetic operators
    dispatch on the operands' types as the interpreter does. *)
Inductive num : Type :=
| Int (n : Z)
| Float (f : float).

Definition as_float (x : num) : result float :=
  match x with
  | Int n => of_int n
  | Float f => Ret f
  end.

Definition num_mul (x y : num) : result num :=
  match x, y with
  | Int a, Int b => Ret (Int (a * b))
  | _, _ => a <- as_float x ;; b <- as_float y ;; Ret (Float (fmul a b))
  end.

Definition num_sub (x y : num) : result num :=
  match x, y with
  | Int a, Int b => Ret (Int (a - b))
  | _, _ => a <- as_float x ;; b <- as_float y ;; Ret (Float (fsub a b))
  end.

Definition num_truediv (x y : num) : result num :=
  match x, y with
  | Int a, Int b => f <- int_truediv a b ;; Ret (Float f)
  | _, _ =>
      a <- as_float x ;; b <- as_float y ;;
      if is_zero b then Raise ZeroDivisionError else Ret (Float (fdiv a b))
  end.

Definition math_floor (x : num) : result Z :=
  match x with
  | Int n => Ret n
  | Float f => floor f
  end.

Definition int_of (x : num) : result Z :=
  match x with
  | Int n => Ret n
  | Float f => trunc f
  end.

(** ** Configuration *)

Definition TARGET_BYTES : Z := 8 * 1024 * 1024.
Definition TARGET_BITS : Z := TARGET_BYTES * 8.
Definition AUDIO_BITRATE : Z := 96000.
Definition MIN_VIDEO_BITRATE : Z := 80000.
Definition SAFETY_MARGIN : float := lit_0_03.
Definition MAX_ATTEMPTS : Z := 3.

Definition ENCODER_PRIORITY : list (string * string) :=
  [ ("hevc_nvenc", "p5"); ("hevc_qsv", "medium"); ("libx265", "veryfast") ].

Record VideoInfo : Type := {
  duration : float;
  has_audio : bool;
  width : Z;
  height : Z;
  bitrate : Z
}.

(** ** Bitrate planner *)

Definition calculate_target_bitrate (info : VideoInfo) : result Z :=
  audio_bits <-
    (if has_audio info
     then num_mul (Int AUDIO_BITRATE) (Float (duration info))
     else Ret (Int 0)) ;;
  margin <- num_sub (Int 1) (Float SAFETY_MARGIN) ;;
  budget <- num_mul (Int TARGET_BITS) margin ;;
  available_bits <- num_sub budget audio_bits ;;
  video_bitrate <- num_truediv available_bits (Float (duration info)) ;;
  thousands <- num_truediv video_bitrate (Int 1000) ;;
  floored <- math_floor thousands ;;
  Ret (Z.max MIN_VIDEO_BITRATE (floored * 1000)).

(** ** Strings *)

(** [str(n)] for an [int]. *)
Definition str (n : Z) : string := NilZero.string_of_int (Z.to_int n).

(** [sub in s]: substring test. *)
Fixpoint str_in (sub s : string) : bool :=
  String.prefix sub s ||
  match s with
  | EmptyString => false
  | String _ rest => str_in sub rest
  end.

(** Truthiness of an [Optional[str]]: [None] and the empty string are
    false. *)
Definition truthy (o : option string) : bool :=
  match o with
  | None | Some EmptyString => false
  | Some _ => true
  end.

(** The string a located tool stands for. *)
Definition path_of (o : option string) : string :=
  match o with
  | Some p => p
  | None => ""
  end.

(** [a or b]. *)
Definition py_or (a b : option string) : option string :=
  if truthy a then a else b.

(** [range(lo, hi)]: [lo], [lo + 1], ... below [hi]. *)
Fixpoint count_from (lo : Z) (n : nat) : list Z :=
  match n with
  | O => []
  | S n' => lo :: count_from (lo + 1) n'
  end.

Definition py_range (lo hi : Z) : list Z := count_from lo (Z.to_nat (hi - lo)).

(** ** The outside world

    Everything the program learns from its collaborators.  Replies of a
    subprocess or of a parser are [result]s: the call may raise. *)

(** The first video stream of ffprobe's JSON.  A field is [None] when the
    key is absent; otherwise it holds what [float(...)] or [int(...)]
    makes of the value, which may raise. *)
Record ProbeStream : Type := {
  st_duration : option (result float);
  st_width : option (result Z);
  st_height : option (result Z);
  st_bit_rate : option (result Z)
}.

(** ffprobe's JSON for the video query: the list under ["streams"] and
    the ["duration"] under ["format"], each [None] when the key is
    absent. *)
Record ProbeData : Type := {
  pd_streams : option (list ProbeStream);
  pd_format : option (option (result float))
}.

Record World : Type := {
  argv : list string;
  path_isfile : string -> bool;
  (** [str(Path(sys.executable).parent / name)] *)
  script_dir_join : string -> string;
  shutil_which : string -> option string;
  (** [Path(p).name] *)
  path_name : string -> string;
  (** [str(Path(p).parent / f"8mb[{Path(p).stem}].mp4")] *)
  output_path_for : string -> string;
  (** the video query: [json.loads(subprocess.run(...).stdout)] *)
  probe_video : string -> string -> result ProbeData;
  (** the audio query: [None] when ["streams"] is absent from the JSON,
      else the length of the list *)
  probe_audio : string -> string -> result (option nat);
  (** [subprocess.run([ffmpeg, "-hide_banner", "-encoders"]).stdout] *)
  encoders_query : string -> result string;
  (** the return code of the encode subprocess of each attempt *)
  encode_returncode : Z -> result Z;
  (** [os.path.exists(output_path)] after each attempt *)
  output_exists : Z -> bool;
  (** [os.path.getsize(output_path)] after each attempt *)
  output_size : Z -> Z
}.

(** ** Events and the effect monad *)

(** The notifications the program posts.  Their texts are, in the order
    of the constructors: "Could not analyze video"; "Could not encode
    video (attempt n)"; "Output file not created"; "name, Final size: s
    MB"; "Final size: s MB, Cannot reduce further"; "Final size: s MB,
    (Target was 8 MB)"; "File not found"; "FFmpeg not found. Please
    reinstall."; "Compressing name". *)
Inductive notification : Type :=
| NotifyAnalyzeError
| NotifyEncodingFailed (attempt : Z)
| NotifyOutputMissing
| NotifyComplete (filename : string) (size_mb : num)
| NotifyCannotReduce (size_mb : num)
| NotifyOverTarget (size_mb : num)
| NotifyFileNotFound
| NotifyToolsMissing
| NotifyStarting (filename : string).

Inductive event : Type :=
| EvPrintProbeError (e : exn)
| EvPrintUsing (codec : string)
| EvNotify (n : notification)
(** one call of [run_encode]: the attempt, the bitrate it encodes with, the
    command line and the description *)
| EvRunEncode (attempt : Z) (video_bitrate : Z) (cmd : list string) (desc : string)
| EvSleep.

Definition io (A : Type) : Type := (list event * result A)%type.

Definition io_ret {A : Type} (a : A) : io A := ([], Ret a).

Definition io_bind {A B : Type} (c : io A) (k : A -> io B) : io B :=
  match c with
  | (t, Ret a) => let '(t', r) := k a in ((t ++ t')%list, r)
  | (t, Raise e) => (t, Raise e)
  end.

Definition lift {A : Type} (r : result A) : io A := ([], r).

Definition emit (e : event) : io unit := ([e], Ret tt).

(** [try: c  except Exception as e: h e] *)
Definition try_except {A : Type} (c : io A) (h : exn -> io A) : io A :=
  match c with
  | (t, Ret a) => (t, Ret a)
  | (t, Raise e) => let '(t', r) := h e in ((t ++ t')%list, r)
  end.

Declare Scope io_scope.
Delimit Scope io_scope with io.
Notation "x <-- c ;; k" := (io_bind c (fun x => k))
  (at level 61, c at next level, right associativity) : io_scope.
Notation "c ;;; k" := (io_bind c (fun _ => k))
  (at level 61, right associativity) : io_scope.
Local Open Scope io_scope.

Definition notify (n : notification) : io unit := emit (EvNotify n).

(** ** Tool location *)

Definition locate_tool (w : World) (name : string) : option string :=
  let candidate := script_dir_join w (name ++ ".exe") in
  if path_isfile w candidate then Some candidate
  else py_or (shutil_which w name) (shutil_which w (name ++ ".exe")).

(** ** Metadata prober *)

(** [d[0]] on a list. *)
Definition first_stream (streams : option (list ProbeStream)) : result ProbeStream :=
  match streams with
  | None => Raise KeyError
  | Some [] => Raise IndexError
  | Some (s :: _) => Ret s
  end.

(** The duration the prober reads: the first stream's when the key is
    there, else the container's, else [None]. *)
Definition probed_duration (data : ProbeData) : result (option float) :=
  match pd_streams data with
  | Some (s :: _) =>
      match st_duration s with
      | Some d => (x <- d ;; Ret (Some x))%py
      | None =>
          match pd_format data with
          | Some (Some d) => (x <- d ;; Ret (Some x))%py
          | _ => Ret None
          end
      end
  | _ =>
      match pd_format data with
      | Some (Some d) => (x <- d ;; Ret (Some x))%py
      | _ => Ret None
      end
  end.

(** [not duration or duration <= 0] *)
Definition duration_rejected (d : option float) : bool :=
  match d with
  | None => true
  | Some x => is_zero x || leb x zero
  end.

(** [stream.get(key, default)] followed by [int(...)]. *)
Definition get_int (field : option (result Z)) (default : Z) : result Z :=
  match field with
  | None => Ret default
  | Some r => r
  end.

Definition get_video_info (w : World) (ffprobe input_path : string)
  : io (option VideoInfo) :=
  try_except
    (data <-- lift (probe_video w ffprobe input_path) ;;
     d <-- lift (probed_duration data) ;;
     if duration_rejected d then io_ret None
     else
       match d with
       | None => io_ret None
       | Some dur =>
           stream <-- lift (first_stream (pd_streams data)) ;;
           wd <-- lift (get_int (st_width stream) 1920) ;;
           ht <-- lift (get_int (st_height stream) 1080) ;;
           br <-- lift (get_int (st_bit_rate stream) 0) ;;
           audio <-- lift (probe_audio w ffprobe input_path) ;;
           let audio_present :=
             match audio with
             | Some n => (0 <? n)%nat
             | None => false
             end in
           io_ret (Some {| duration := dur; has_audio := audio_present;
                           width := wd; height := ht; bitrate := br |})
       end)
    (fun e => emit (EvPrintProbeError e) ;;; io_ret None).

(** ** Encoder selector *)

(** The [for codec, preset in ENCODER_PRIORITY] loop: returns at the first
    codec whose name occurs in the capability listing. *)
Fixpoint first_available (priority : list (string * string)) (available : string)
  : io (option (string * string)) :=
  match priority with
  | [] => io_ret None
  | (codec, preset) :: rest =>
      if str_in codec available
      then emit (EvPrintUsing codec) ;;; io_ret (Some (codec, preset))
      else first_available rest available
  end.

Definition detect_encoder (w : World) (ffmpeg : string) : io (string * string) :=
  found <-- try_except
              (available <-- lift (encoders_query w ffmpeg) ;;
               first_available ENCODER_PRIORITY available)
              (fun _ => io_ret None) ;;
  match found with
  | Some choice => io_ret choice
  | None => io_ret ("libx265", "veryfast")
  end.

(** ** Scaling policy *)

Definition get_scale_filter (info : VideoInfo) : string :=
  let target_w := 1920 in
  let target_h := 1080 in
  if (width info <=? target_w) && (height info <=? target_h)
  then "scale=trunc(iw/2)*2:trunc(ih/2)*2"
  else "scale=" ++ str target_w ++ ":" ++ str target_h
       ++ ":force_original_aspect_ratio=decrease:force_divisible_by=2".

(** ** Encode invoker *)

Definition run_encode (w : World) (attempt video_bitrate : Z)
    (cmd : list string) (desc : string) : io bool :=
  emit (EvRunEncode attempt video_bitrate cmd desc) ;;;
  try_except
    (rc <-- lift (encode_returncode w attempt) ;; io_ret (rc =? 0))
    (fun _ => io_ret false).

(** ** Convergence loop *)

(** How one iteration of the [for] loop ends: a [return] out of the
    function, or the next iteration with the loop variables it leaves
    behind. *)
Inductive ctl : Type :=
| Return (b : bool)
| Next (video_bitrate : Z) (size_mb : num).

(** The corrective bitrate of lines 264-265. *)
Definition corrective_bitrate (video_bitrate out_size : Z) : result Z :=
  (ratio <- num_truediv (Int TARGET_BYTES) (Int out_size) ;;
   scale_factor <- num_mul ratio (Float lit_0_95) ;;
   scaled <- num_mul (Int video_bitrate) scale_factor ;;
   t <- int_of scaled ;;
   Ret (Z.max MIN_VIDEO_BITRATE t))%py.

Definition attempt_body (w : World) (base_cmd : list string)
    (input_path output_path : string) (attempt video_bitrate : Z) : io ctl :=
  maxrate <-- lift (x <- num_mul (Int video_bitrate) (Float lit_1_5) ;; int_of x)%py ;;
  bufsize <-- lift (x <- num_mul (Int video_bitrate) (Int 2) ;; int_of x)%py ;;
  let cmd :=
    (base_cmd ++
     [ "-b:v"; str video_bitrate;
       "-maxrate"; str maxrate;
       "-bufsize"; str bufsize;
       "-movflags"; "+faststart";
       output_path ])%list in
  ok <-- run_encode w attempt video_bitrate cmd ("Pass " ++ str attempt) ;;
  if negb ok then
    notify (NotifyEncodingFailed attempt) ;;; io_ret (Return false)
  else
    emit EvSleep ;;;
    if negb (output_exists w attempt) then
      notify NotifyOutputMissing ;;; io_ret (Return false)
    else
      let out_size := output_size w attempt in
      size_mb <-- lift (num_truediv (Int out_size) (Int (1024 * 1024))) ;;
      if out_size <=? TARGET_BYTES then
        notify (NotifyComplete (path_name w input_path) size_mb) ;;;
        io_ret (Return true)
      else if attempt <? MAX_ATTEMPTS then
        new_bitrate <-- lift (corrective_bitrate video_bitrate out_size) ;;
        if new_bitrate >=? video_bitrate then
          notify (NotifyCannotReduce size_mb) ;;; io_ret (Return false)
        else io_ret (Next new_bitrate size_mb)
      else io_ret (Next video_bitrate size_mb).

(** The [for attempt in ...] loop and the code after it.  [size_mb] is the
    value the last iteration left, unbound before the first. *)
Fixpoint attempts_loop (w : World) (base_cmd : list string)
    (input_path output_path : string) (attempts : list Z)
    (video_bitrate : Z) (size_mb : option num) : io bool :=
  match attempts with
  | [] =>
      match size_mb with
      | None => lift (Raise NameError)
      | Some s => notify (NotifyOverTarget s) ;;; io_ret false
      end
  | attempt :: rest =>
      c <-- attempt_body w base_cmd input_path output_path attempt video_bitrate ;;
      match c with
      | Return b => io_ret b
      | Next video_bitrate' s =>
          attempts_loop w base_cmd input_path output_path rest video_bitrate' (Some s)
      end
  end.

Definition compress_video (w : World) (input_path output_path ffmpeg ffprobe : string)
  : io bool :=
  info <-- get_video_info w ffprobe input_path ;;
  match info with
  | None => notify NotifyAnalyzeError ;;; io_ret false
  | Some info =>
      choice <-- detect_encoder w ffmpeg ;;
      let '(codec, preset) := choice in
      video_bitrate <-- lift (calculate_target_bitrate info) ;;
      let scale_filter := get_scale_filter info in
      let base_cmd :=
        ([ ffmpeg; "-y"; "-hide_banner"; "-loglevel"; "error";
           "-i"; input_path;
           "-vf"; scale_filter;
           "-c:v"; codec;
           "-preset"; preset ] ++
         (if has_audio info then [ "-c:a"; "aac"; "-b:a"; "96k" ] else [ "-an" ]))%list in
      attempts_loop w base_cmd input_path output_path
        (py_range 1 (MAX_ATTEMPTS + 1)) video_bitrate None
  end.

(** ** Entry point *)

Definition main (w : World) : io Z :=
  if (Z.of_nat (List.length (argv w)) <? 2) then io_ret 0
  else
    let input_path := nth 1 (argv w) "" in
    if negb (path_isfile w input_path) then
      notify NotifyFileNotFound ;;; io_ret 1
    else
      let ffmpeg := locate_tool w "ffmpeg" in
      let ffprobe := locate_tool w "ffprobe" in
      if negb (truthy ffmpeg) || negb (truthy ffprobe) then
        notify NotifyToolsMissing ;;; io_ret 2
      else
        let output_path := output_path_for w input_path in
        notify (NotifyStarting (path_name w input_path)) ;;;
        success <-- compress_video w input_path output_path
                      (path_of ffmpeg) (path_of ffprobe) ;;
        io_ret (if success then 0 else 3).

(** The encode invocations of a trace, and the bitrates they ran with. *)
Definition is_encode (e : event) : bool :=
  match e with EvRunEncode _ _ _ _ => true | _ => false end.

Definition encode_count (t : list event) : nat :=
  List.length (filter is_encode t).

Fixpoint encode_bitrates (t : list event) : list Z :=
  match t with
  | [] => []
  | EvRunEncode _ b _ _ :: rest => b :: encode_bitrates rest
  | _ :: rest => encode_bitrates rest
  end.

(** ** Scenarios

    Concrete worlds the properties below are tried on. *)

(** [float(n)] of a small integer, as a float. *)
Definition float_of (n : Z) : float :=
  match of_int n with
  | Ret f => f
  | Raise _ => S754_nan
  end.

Definition MiB : Z := 1024 * 1024.

Definition info_of (d : float) (audio : bool) : VideoInfo :=
  {| duration := d; has_audio := audio; width := 1280; height := 720; bitrate := 0 |}.

(** A world with both tools on the path, an input file ["in.mp4"] whose
    probe reports one 1280x720 video stream of duration [d] and one audio
    stream, an ffmpeg that lists [listing] as its encoders, and encodes that
    all exit with code 0 and leave a file of [sizes attempt] bytes. *)
Definition world_of (d : result float) (listing : result string) (sizes : Z -> Z)
  : World :=
  {| argv := [ "compress.py"; "in.mp4" ];
     path_isfile := fun p => String.eqb p "in.mp4";
     script_dir_join := fun name => "/opt/python/" ++ name;
     shutil_which := fun name => Some ("/usr/bin/" ++ name);
     path_name := fun p => p;
     output_path_for := fun _ => "8mb[in].mp4";
     probe_video := fun _ _ =>
       Ret {| pd_streams :=
                Some [ {| st_duration := Some d;
                          st_width := Some (Ret 1280);
                          st_height := Some (Ret 720);
                          st_bit_rate := None |} ];
              pd_format := None |};
     probe_audio := fun _ _ => Ret (Some 1%nat);
     encoders_query := fun _ => listing;
     encode_returncode := fun _ => Ret 0;
     output_exists := fun _ => true;
     output_size := sizes |}.

Definition software_only : result string :=
  Ret " V....D libx264  V....D libx265  V....D mpeg4".

(** A 1000 second source whose every encode comes out at 10 MiB. *)
Definition long_source : World :=
  world_of (Ret (float_of 1000)) software_only (fun _ => 10 * MiB).

(** A 60 second source whose every encode comes out at 10 MiB. *)
Definition minute_source : World :=
  world_of (Ret (float_of 60)) software_only (fun _ => 10 * MiB).

(** A source whose probe reports the duration ["nan"]. *)
Definition nan_source : World :=
  world_of (Ret S754_nan) software_only (fun _ => 10 * MiB).

(** A world whose capability query raises. *)
Definition no_listing : World :=
  world_of (Ret (float_of 60)) (Raise OSError) (fun _ => MiB).

(** A file without a video stream (an audio file, say): the probe for
    the first video stream lists no stream, and the container reports 60
    seconds. *)
Definition audio_only : World :=
  {| argv := [ "compress.py"; "in.mp3" ];
     path_isfile := fun p => String.eqb p "in.mp3";
     script_dir_join := fun name => "/opt/python/" ++ name;
     shutil_which := fun name => Some ("/usr/bin/" ++ name);
     path_name := fun p => p;
     output_path_for := fun _ => "8mb[in].mp4";
     probe_video := fun _ _ =>
       Ret {| pd_streams := Some [];
              pd_format := Some (Some (Ret (float_of 60))) |};
     probe_audio := fun _ _ => Ret (Some 1%nat);
     encoders_query := fun _ => software_only;
     encode_returncode := fun _ => Ret 0;
     output_exists := fun _ => true;
     output_size := fun _ => MiB |}.

(** ** Outcomes read off a trace *)

(** The success notice. *)
Definition is_success (e : event) : bool :=
  match e with
  | EvNotify (NotifyComplete _ _) => true
  | _ => false
  end.

(** The notices of a compression that failed: the probe gave nothing, an
    encode failed, the output is missing, the bitrate cannot be reduced, or
    the attempts ran out with the file still over the target. *)
Definition is_failure (e : event) : bool :=
  match e with
  | EvNotify NotifyAnalyzeError
  | EvNotify (NotifyEncodingFailed _)
  | EvNotify NotifyOutputMissing
  | EvNotify (NotifyCannotReduce _)
  | EvNotify (NotifyOverTarget _) => true
  | _ => false
  end.

Definition succeeded (t : list event) : bool := existsb is_success t.
Definition failed (t : list event) : bool := existsb is_failure t.

(** The notices of a trace tell the result: the success notice goes with
    [True], a failure notice with [False], and a run that raised has posted
    neither. *)
Definition notices_match (t : list event) (r : result bool) : Prop :=
  match r with
  | Ret true => succeeded t = true /\ failed t = false
  | Ret false => succeeded t = false /\ failed t = true
  | Raise _ => succeeded t = false /\ failed t = false
  end.

(** The three tests [main] makes before it compresses. *)
Definition no_argument (w : World) : bool :=
  Z.of_nat (List.length (argv w)) <? 2.

Definition input_missing (w : World) : bool :=
  negb (path_isfile w (nth 1 (argv w) "")).

Definition tools_missing (w : World) : bool :=
  negb (truthy (locate_tool w "ffmpeg")) || negb (truthy (locate_tool w "ffprobe")).

(** The capability query gave nothing to choose from: it raised, or no
    codec of the priority list occurs in its output. *)
Definition query_unusable (w : World) (ffmpeg : string) : bool :=
  match encoders_query w ffmpeg with
  | Raise _ => true
  | Ret available =>
      negb (existsb (fun choice => str_in (fst choice) available) ENCODER_PRIORITY)
  end.

(** [1 - SAFETY_MARGIN]: the float nearest to 0.97. *)
Definition margin_factor : float := S754_finite false 8736983277098762 (-53).

(** The bit budget after the safety margin, [TARGET_BITS * (1 - 0.03)]:
    65095598.08 to the nearest float. *)
Definition budget_bits : float := S754_finite false 8736983277098762 (-27).

(** ** The notifier's escaping

    [notify] makes its two texts safe for the single-quoted literals of
    the PowerShell script it builds: every apostrophe is doubled, then a
    backtick is put before every double quote (lines 145-146).  Texts are
    taken byte by byte; in UTF-8 the two characters replaced occur only as
    themselves, so this agrees with the replacement on code points. *)


(** [s.replace(old, new)] for a one-character [old]. *)
Fixpoint str_replace (old : ascii) (new s : string) : string :=
  match s with
  | EmptyString => EmptyString
  | String c rest =>
      if Ascii.eqb c old then new ++ str_replace old new rest
      else String c (str_replace old new rest)
  end.




(** ** Reading a run *)

(** [int(video_bitrate * 1.5)], the [-maxrate] of an attempt. *)
Definition maxrate_of (video_bitrate : Z) : result Z :=
  (x <- num_mul (Int video_bitrate) (Float lit_1_5) ;; int_of x)%py.

(** The arguments an attempt appends to the base command. *)
Definition rate_arguments (video_bitrate maxrate : Z) (output_path : string)
  : list string :=
  [ "-b:v"; str video_bitrate;
    "-maxrate"; str maxrate;
    "-bufsize"; str (video_bitrate * 2);
    "-movflags"; "+faststart";
    output_path ].

(** The command line before the rate arguments. *)
Definition base_command (ffmpeg input_path : string) (info : VideoInfo)
    (codec preset : string) : list string :=
  ([ ffmpeg; "-y"; "-hide_banner"; "-loglevel"; "error";
     "-i"; input_path;
     "-vf"; get_scale_filter info;
     "-c:v"; codec;
     "-preset"; preset ] ++
   (if has_audio info then [ "-c:a"; "aac"; "-b:a"; "96k" ] else [ "-an" ]))%list.

(** The encode event of an attempt. *)
Definition encode_event (base_cmd : list string) (output_path : string)
    (attempt video_bitrate maxrate : Z) : event :=
  EvRunEncode attempt video_bitrate
    (base_cmd ++ rate_arguments video_bitrate maxrate output_path)
    ("Pass " ++ str attempt).

(** [out_size / (1024 * 1024)] *)
Definition size_in_mb (out_size : Z) : result num :=
  num_truediv (Int out_size) (Int (1024 * 1024)).

(** An attempt whose encode exited with 0 and left a file over the target. *)
Definition over_target (w : World) (attempt : Z) : Prop :=
  encode_returncode w attempt = Ret 0 /\
  output_exists w attempt = true /\
  TARGET_BYTES < output_size w attempt.

(** The notifications of a trace, in order. *)
Fixpoint notifications (t : list event) : list notification :=
  match t with
  | [] => []
  | EvNotify n :: rest => n :: notifications rest
  | _ :: rest => notifications rest
  end.

(** The ways a run that returns [False] after attempt [a] has ended, with
    the notification each leaves in the trace [t]. *)
Definition failure_at (w : World) (t : list event) (a : Z) : Prop :=
  (encode_returncode w a <> Ret 0 /\
   notifications t = [NotifyEncodingFailed a]) \/
  (encode_returncode w a = Ret 0 /\ output_exists w a = false /\
   notifications t = [NotifyOutputMissing]) \/
  (over_target w a /\ a < MAX_ATTEMPTS /\
   exists (size_mb : num) (current candidate : Z),
     size_in_mb (output_size w a) = Ret size_mb /\
     notifications t = [NotifyCannotReduce size_mb] /\
     In current (encode_bitrates t) /\
     corrective_bitrate current (output_size w a) = Ret candidate /\
     current <= candidate) \/
  (over_target w a /\ a = MAX_ATTEMPTS /\
   exists size_mb : num,
     size_in_mb (output_size w a) = Ret size_mb /\
     notifications t = [NotifyOverTarget size_mb]).

(** The bitrates of a run that starts attempt [attempt] at the bitrate [b]:
    the first encode runs at [b], and each later one at the corrective
    bitrate of the one before and of the size that one produced. *)
Fixpoint follows_corrections (w : World) (attempt b : Z) (rates : list Z) : Prop :=
  match rates with
  | [] => True
  | x :: rest =>
      x = b /\
      match rest with
      | [] => True
      | _ :: _ =>
          exists new_bitrate : Z,
            corrective_bitrate b (output_size w attempt) = Ret new_bitrate /\
            TARGET_BYTES < output_size w attempt /\
            follows_corrections w (attempt + 1) new_bitrate rest
      end
  end.

(** The argument [main] compresses, and the run it starts on it. *)
Definition main_input (w : World) : string := nth 1 (argv w) "".

Definition main_run (w : World) : io bool :=
  compress_video w (main_input w) (output_path_for w (main_input w))
    (path_of (locate_tool w "ffmpeg")) (path_of (locate_tool w "ffprobe")).

(** The three checks of [main] have passed. *)
Definition ready (w : World) : bool :=
  negb (no_argument w) && negb (input_missing w) && negb (tools_missing w).

(** [sub] is a substring of [s]. *)
Definition occurs (sub s : string) : Prop :=
  exists pre post : string, s = pre ++ sub ++ post.

(** ** Vocabulary of the rounding bounds *)

(** The exponent function of binary64. *)
Local Abbreviation fexp := (SpecFloat.fexp prec emax).

(** The exponent a mantissa [m] at exponent [e] is brought to. *)
Definition target_exp (m e : Z) : Z := Z.max e (fexp (Zdigits2 m + e)).

(** Powers of two as rationals. *)
Definition pow2 (e : Z) : Q := (2 ^ e)%Q.

(** The bound on the relative rounding error and the smallest positive
    float. *)
Definition u : Q := pow2 (-52).
Definition eta : Q := pow2 (-1074).

(** The value of a mantissa at an exponent. *)
Definition mant (m e : Z) : Q := (inject_Z m * pow2 e)%Q.

(** A float that is a zero or a positive finite number. *)
Definition nonneg_finite (x : float) : Prop :=
  match x with
  | S754_zero _ | S754_finite false _ _ => True
  | _ => False
  end.

(** A float that is not below zero: a zero, a positive number or [+inf]. *)
Definition not_below_zero (x : float) : Prop :=
  match x with
  | S754_zero _ | S754_finite false _ _ | S754_infinity false => True
  | _ => False
  end.

(** The exponent of a float is one a binary64 number can have. *)
Definition exponent_in_range (x : float) : Prop :=
  match x with
  | S754_finite _ _ e => e <= emax - prec
  | _ => True
  end.

(** The scale factor after a 10 MiB output: [(8 MiB / 10 MiB) * 0.95], the
    float nearest to 0.76. *)
Definition scale_after_10_MiB : float := S754_finite false 6845471433603154 (-53).

(** The size of a finite float, whatever its sign. *)
Definition magnitude (x : float) : Q :=
  match x with
  | S754_finite _ p e => mant (Z.pos p) e
  | _ => 0%Q
  end.

(** * Properties *)

(** ** Traces of the effect monad *)

Lemma io_bind_trace {A B : Type} (c : io A) (k : A -> io B) :
  fst (io_bind c k) =
  (fst c ++ match snd c with Ret a => fst (k a) | Raise _ => [] end)%list.
Proof.
  destruct c as [t [a | e]]; simpl.
  - destruct (k a); reflexivity.
  - now rewrite app_nil_r.
Qed.

Lemma io_bind_result {A B : Type} (c : io A) (k : A -> io B) :
  snd (io_bind c k) =
  match snd c with Ret a => snd (k a) | Raise e => Raise e end.
Proof.
  destruct c as [t [a | e]]; simpl; [destruct (k a) |]; reflexivity.
Qed.

Lemma io_bind_lift {A B : Type} (r : result A) (k : A -> io B) :
  io_bind (lift r) k = match r with Ret a => k a | Raise e => ([], Raise e) end.
Proof.
  destruct r as [a | e]; simpl; [destruct (k a) |]; reflexivity.
Qed.

Lemma io_bind_emit {B : Type} (ev : event) (k : unit -> io B) :
  io_bind (emit ev) k = (ev :: fst (k tt), snd (k tt)).
Proof.
  unfold emit; simpl. destruct (k tt); reflexivity.
Qed.

Lemma encode_bitrates_app (t t' : list event) :
  encode_bitrates (t ++ t') = (encode_bitrates t ++ encode_bitrates t')%list.
Proof.
  induction t as [| ev t IH]; simpl; [reflexivity |].
  destruct ev; simpl; now rewrite IH.
Qed.

Lemma encode_count_bitrates (t : list event) :
  encode_count t = List.length (encode_bitrates t).
Proof.
  unfold encode_count.
  induction t as [| ev t IH]; simpl; [reflexivity |].
  destruct ev; simpl; now rewrite IH.
Qed.

(** Case analysis on the innermost scrutinee of the goal. *)
Ltac case_inner :=
  match goal with
  | |- context [match ?x with _ => _ end] =>
      lazymatch x with
      | context [match _ with _ => _ end] => fail
      | _ => destruct x eqn:?
      end
  end.

(** Closes the bounds on the encodes of a trace that is known. *)
Ltac trace_solve := simpl; repeat split; repeat first [lia | constructor].

Ltac io_unfold :=
  unfold run_encode, notify, io_bind, lift, emit, try_except, io_ret.

(** ** One iteration of the loop *)

(** What an iteration can leave behind: at most the one encode it issued, at
    the bitrate it was entered with; and it asks for another iteration only
    with an unchanged bitrate on the last attempt, or with the corrective
    bitrate, strictly below the current one and not below the floor. *)
Lemma attempt_body_spec (w : World) (base_cmd : list string)
    (input_path output_path : string) (attempt video_bitrate : Z) :
  let c := attempt_body w base_cmd input_path output_path attempt video_bitrate in
  (encode_bitrates (fst c) = [] \/ encode_bitrates (fst c) = [video_bitrate]) /\
  match snd c with
  | Ret (Next b' _) =>
      encode_bitrates (fst c) = [video_bitrate] /\
      TARGET_BYTES < output_size w attempt /\
      ((MAX_ATTEMPTS <= attempt /\ b' = video_bitrate) \/
       (attempt < MAX_ATTEMPTS /\
        corrective_bitrate video_bitrate (output_size w attempt) = Ret b' /\
        MIN_VIDEO_BITRATE <= b' < video_bitrate))
  | _ => True
  end.
Proof.
  cbv zeta. unfold attempt_body. io_unfold.
  repeat (case_inner; simpl); auto.
  all: repeat match goal with
         | H : (_ <=? _) = false |- _ => apply Z.leb_gt in H
         | H : (_ <? _) = true |- _ => apply Z.ltb_lt in H
         | H : (_ <? _) = false |- _ => apply Z.ltb_ge in H
         | H : (_ >=? _) = false |- _ => rewrite Z.geb_leb in H
         end.
  - split; [auto |]. split; [reflexivity |]. split; [assumption |].
    right. split; [assumption |]. split; [reflexivity |].
    split; [| assumption].
    match goal with H : corrective_bitrate _ _ = _ |- _ =>
      unfold corrective_bitrate in H;
      repeat match type of H with
             | bind ?c _ = _ => destruct c; simpl in H; [| discriminate]
             end;
      injection H as <- end.
    apply Z.le_max_l.
  - auto 10.
Qed.


(** ** The whole loop *)

Section Loop.

Variable w : World.
Variable base_cmd : list string.
Variables input_path output_path : string.

(** From any attempt on, entered with a bitrate at or above the floor:
    the encodes that follow run at bitrates between the floor and the
    current one, each strictly below the one before, and there are no
    more of them than attempts left. *)
Lemma attempts_loop_bitrates (n : nat) :
  forall (k b : Z) (s : option num),
    k + Z.of_nat n = MAX_ATTEMPTS + 1 ->
    MIN_VIDEO_BITRATE <= b ->
    let t := fst (attempts_loop w base_cmd input_path output_path
                    (count_from k n) b s) in
    Forall (fun x => MIN_VIDEO_BITRATE <= x <= b) (encode_bitrates t) /\
    StronglySorted Z.gt (encode_bitrates t) /\
    (List.length (encode_bitrates t) <= n)%nat.
Proof.
  induction n as [| n IH]; intros k b s Hk Hb; cbv zeta; simpl count_from.
  - simpl. destruct s; trace_solve.
  - simpl attempts_loop. rewrite io_bind_trace, encode_bitrates_app.
    pose proof (attempt_body_spec w base_cmd input_path output_path k b)
      as [Hone Hnext].
    cbv zeta in Hone, Hnext.
    destruct (snd (attempt_body w base_cmd input_path output_path k b))
      as [[r | b' s'] | e].
    + simpl. rewrite app_nil_r.
      destruct Hone as [-> | ->]; trace_solve.
    + destruct Hnext as (-> & _ & Hcase).
      destruct Hcase as [[Hlast ->] | (Hmore & _ & Hlow & Hlt)].
      * assert (n = O) by lia. subst n. simpl.
        destruct s'; trace_solve.
      * destruct (IH (k + 1) b' (Some s')) as (Hall & Hsorted & Hlen);
          [lia | exact Hlow |].
        cbv zeta in Hall, Hsorted, Hlen. simpl.
        split; [| split].
        -- constructor; [lia |].
           eapply Forall_impl; [| exact Hall]. simpl. intros; lia.
        -- constructor; [exact Hsorted |].
           eapply Forall_impl; [| exact Hall]. simpl. intros; lia.
        -- lia.
    + simpl. rewrite app_nil_r.
      destruct Hone as [-> | ->]; trace_solve.
Qed.

End Loop.

(** The prober and the encoder selector run no encode. *)
Lemma get_video_info_no_encode (w : World) (ffprobe input_path : string) :
  encode_bitrates (fst (get_video_info w ffprobe input_path)) = [].
Proof.
  unfold get_video_info. io_unfold.
  repeat (case_inner; simpl); reflexivity.
Qed.

Lemma first_available_no_encode (priority : list (string * string)) (available : string) :
  encode_bitrates (fst (first_available priority available)) = [].
Proof.
  induction priority as [| [codec preset] rest IH]; simpl; [reflexivity |].
  destruct (str_in codec available); [reflexivity | exact IH].
Qed.

Lemma detect_encoder_no_encode (w : World) (ffmpeg : string) :
  encode_bitrates (fst (detect_encoder w ffmpeg)) = [].
Proof.
  unfold detect_encoder. io_unfold. simpl.
  repeat (case_inner; simpl); reflexivity.
Qed.

Lemma detect_encoder_never_raises (w : World) (ffmpeg : string) (e : exn) :
  snd (detect_encoder w ffmpeg) <> Raise e.
Proof.
  unfold detect_encoder. io_unfold. simpl.
  repeat (case_inner; simpl); discriminate.
Qed.

Lemma calculate_target_bitrate_floor (info : VideoInfo) (r : Z) :
  calculate_target_bitrate info = Ret r -> MIN_VIDEO_BITRATE <= r.
Proof.
  unfold calculate_target_bitrate. intros H.
  repeat match type of H with
         | bind ?c _ = _ => destruct c; simpl in H; [| discriminate]
         end.
  injection H as <-. apply Z.le_max_l.
Qed.

(** The encodes of a whole run. *)
Lemma compress_video_bitrates (w : World)
    (input_path output_path ffmpeg ffprobe : string) :
  let t := fst (compress_video w input_path output_path ffmpeg ffprobe) in
  Forall (fun x => MIN_VIDEO_BITRATE <= x) (encode_bitrates t) /\
  StronglySorted Z.gt (encode_bitrates t) /\
  (List.length (encode_bitrates t) <= Z.to_nat MAX_ATTEMPTS)%nat.
Proof.
  cbv zeta. unfold compress_video.
  rewrite io_bind_trace, encode_bitrates_app, get_video_info_no_encode.
  destruct (snd (get_video_info w ffprobe input_path)) as [[info |] | e];
    try solve [trace_solve].
  rewrite io_bind_trace, encode_bitrates_app, detect_encoder_no_encode.
  destruct (snd (detect_encoder w ffmpeg)) as [[codec preset] | e];
    try solve [trace_solve].
  match goal with
  | |- context [io_bind (lift ?r) ?k] => rewrite (io_bind_lift r k)
  end.
  destruct (calculate_target_bitrate info) as [video_bitrate | e] eqn:Hplan;
    try solve [trace_solve].
  apply calculate_target_bitrate_floor in Hplan.
  match goal with
  | |- context [attempts_loop w ?base _ _ _ _ _] =>
      pose proof (attempts_loop_bitrates w base input_path output_path
                    3%nat 1 video_bitrate None eq_refl Hplan) as H
  end.
  cbv zeta in H. change (py_range 1 (MAX_ATTEMPTS + 1)) with (count_from 1 3).
  cbn [app]. destruct H as (Hall & Hsorted & Hlen).
  split; [| split; assumption].
  eapply Forall_impl; [| exact Hall]. simpl. intros; lia.
Qed.

(** ** When no progress is possible *)

(** An over-budget attempt before the last whose corrective bitrate is not
    below the current one ends the run: nothing is encoded again, and the
    function returns [False] after the "cannot reduce further" notice,
    unless building the command or measuring the size has raised. *)
Lemma no_progress_ends_run (w : World) (base_cmd : list string)
    (input_path output_path : string) (attempt : Z) (rest : list Z)
    (video_bitrate : Z) (s : option num) (candidate : Z) :
  attempt < MAX_ATTEMPTS ->
  encode_returncode w attempt = Ret 0 ->
  output_exists w attempt = true ->
  TARGET_BYTES < output_size w attempt ->
  corrective_bitrate video_bitrate (output_size w attempt) = Ret candidate ->
  video_bitrate <= candidate ->
  let run := attempts_loop w base_cmd input_path output_path
               (attempt :: rest) video_bitrate s in
  (List.length (encode_bitrates (fst run)) <= 1)%nat /\
  match snd run with
  | Ret b =>
      b = false /\
      exists size_mb, last (fst run) EvSleep = EvNotify (NotifyCannotReduce size_mb)
  | Raise e =>
      (x <- num_mul (Int video_bitrate) (Float lit_1_5) ;; int_of x)%py = Raise e \/
      (x <- num_mul (Int video_bitrate) (Int 2) ;; int_of x)%py = Raise e \/
      num_truediv (Int (output_size w attempt)) (Int (1024 * 1024)) = Raise e
  end.
Proof.
  intros Hattempt Hrc Hexists Hsize Hcand Hge. cbv zeta.
  cbn [attempts_loop]. unfold attempt_body. io_unfold.
  rewrite Hrc, Hexists, Hcand.
  apply Z.leb_gt in Hsize. apply Z.ltb_lt in Hattempt.
  rewrite Hsize, Hattempt.
  assert ((candidate >=? video_bitrate) = true) as ->
    by (rewrite Z.geb_leb; now apply Z.leb_le).
  destruct (x <- num_mul (Int video_bitrate) (Float lit_1_5);; int_of x)%py;
    [| simpl; split; [lia | auto]].
  destruct (x <- num_mul (Int video_bitrate) (Int 2);; int_of x)%py;
    [| simpl; split; [lia | auto]].
  destruct (num_truediv (Int (output_size w attempt)) (Int (1024 * 1024)));
    [| simpl; split; [lia | auto]].
  simpl. split; [lia |]. split; [reflexivity |]. eexists; reflexivity.
Qed.

(** C1: across all attempts of [compress_video] the bitrate an encode runs
    with is never below [MIN_VIDEO_BITRATE] and each is strictly below the
    one before; an iteration hands a changed bitrate to the next one only if
    it is the corrective bitrate of an over-budget attempt and strictly less
    than the current bitrate; and when the corrective bitrate is not
    strictly less, the run ends with the "cannot reduce further" outcome
    instead of retrying. *)
Theorem bitrate_floor_and_strict_decrease (w : World)
    (input_path output_path ffmpeg ffprobe : string) :
  let t := fst (compress_video w input_path output_path ffmpeg ffprobe) in
  Forall (fun b => MIN_VIDEO_BITRATE <= b) (encode_bitrates t) /\
  StronglySorted Z.gt (encode_bitrates t) /\
  (forall base_cmd attempt video_bitrate new_bitrate size_mb,
      snd (attempt_body w base_cmd input_path output_path attempt video_bitrate)
        = Ret (Next new_bitrate size_mb) ->
      new_bitrate <> video_bitrate ->
      TARGET_BYTES < output_size w attempt /\
      corrective_bitrate video_bitrate (output_size w attempt) = Ret new_bitrate /\
      MIN_VIDEO_BITRATE <= new_bitrate < video_bitrate) /\
  (forall base_cmd attempt rest video_bitrate s candidate,
      attempt < MAX_ATTEMPTS ->
      encode_returncode w attempt = Ret 0 ->
      output_exists w attempt = true ->
      TARGET_BYTES < output_size w attempt ->
      corrective_bitrate video_bitrate (output_size w attempt) = Ret candidate ->
      video_bitrate <= candidate ->
      let run := attempts_loop w base_cmd input_path output_path
                   (attempt :: rest) video_bitrate s in
      (List.length (encode_bitrates (fst run)) <= 1)%nat /\
      match snd run with
      | Ret b =>
          b = false /\
          exists m, last (fst run) EvSleep = EvNotify (NotifyCannotReduce m)
      | Raise e =>
          (x <- num_mul (Int video_bitrate) (Float lit_1_5) ;; int_of x)%py = Raise e \/
          (x <- num_mul (Int video_bitrate) (Int 2) ;; int_of x)%py = Raise e \/
          num_truediv (Int (output_size w attempt)) (Int (1024 * 1024)) = Raise e
      end).
Proof.
  cbv zeta.
  pose proof (compress_video_bitrates w input_path output_path ffmpeg ffprobe)
    as (Hall & Hsorted & _).
  split; [exact Hall |]. split; [exact Hsorted |]. split.
  - intros base_cmd attempt video_bitrate new_bitrate size_mb Hnext Hchanged.
    pose proof (attempt_body_spec w base_cmd input_path output_path
                  attempt video_bitrate) as [_ Hspec].
    cbv zeta in Hspec. rewrite Hnext in Hspec.
    destruct Hspec as (_ & Hover & [[_ Hsame] | (_ & Hcorr & Hlt)]);
      [contradiction | auto].
  - intros. eapply no_progress_ends_run; eassumption.
Qed.

(** The loop at work on the 1000 second source: it starts at the floor, the
    10 MiB output asks for a bitrate that is not lower, and the run ends
    after one encode with the result [False]. *)
Lemma bitrate_floor_and_strict_decrease_witness :
  encode_bitrates
    (fst (compress_video long_source "in.mp4" "8mb[in].mp4" "ffmpeg" "ffprobe"))
    = [80000] /\
  snd (attempts_loop long_source [] "in.mp4" "8mb[in].mp4" [1; 2; 3] 80000 None)
    = Ret false.
Proof.
  split; [vm_compute; reflexivity |].
  pose proof (bitrate_floor_and_strict_decrease long_source
                "in.mp4" "8mb[in].mp4" "ffmpeg" "ffprobe") as H.
  cbv zeta in H. destruct H as (_ & _ & _ & H).
  assert (80000 <= 80000) as Hle by lia.
  specialize (H [] 1 [2; 3] 80000 None 80000
                ltac:(reflexivity) ltac:(reflexivity) ltac:(reflexivity)
                ltac:(reflexivity) ltac:(vm_compute; reflexivity) Hle).
  destruct H as [_ H].
  destruct (snd (attempts_loop long_source [] "in.mp4" "8mb[in].mp4"
                   [1; 2; 3] 80000 None)) as [b | e] eqn:Hrun.
  - destruct H as [-> _]. reflexivity.
  - vm_compute in Hrun. discriminate.
Defined.

(** C2: whatever the world replies, a run of [compress_video] (and so of
    [main]) invokes the encoder at most [MAX_ATTEMPTS] = 3 times; the
    function is total, so the loop always ends within that bound. *)
Theorem at_most_three_encodes (w : World)
    (input_path output_path ffmpeg ffprobe : string) :
  (encode_count (fst (compress_video w input_path output_path ffmpeg ffprobe))
     <= Z.to_nat MAX_ATTEMPTS)%nat /\
  Z.to_nat MAX_ATTEMPTS = 3%nat /\
  (encode_count (fst (main w)) <= 3)%nat.
Proof.
  assert (forall i o f p,
             (encode_count (fst (compress_video w i o f p)) <= 3)%nat) as Hrun.
  { intros i o f p. rewrite encode_count_bitrates.
    apply (compress_video_bitrates w i o f p). }
  split; [apply Hrun |]. split; [reflexivity |].
  rewrite encode_count_bitrates. unfold main.
  destruct (Z.of_nat (List.length (argv w)) <? 2); [simpl; lia |].
  destruct (negb (path_isfile w (nth 1 (argv w) ""))); [simpl; lia |].
  destruct (negb (truthy (locate_tool w "ffmpeg"))
            || negb (truthy (locate_tool w "ffprobe"))); [simpl; lia |].
  unfold notify. rewrite io_bind_emit. cbn [fst encode_bitrates].
  rewrite io_bind_trace, encode_bitrates_app.
  match goal with
  | |- context [compress_video w ?i ?o ?f ?p] =>
      specialize (Hrun i o f p); rewrite encode_count_bitrates in Hrun;
      destruct (compress_video w i o f p) as [t [b | e]]
  end; simpl in *; rewrite ?app_nil_r; lia.
Qed.

(** ** The planner, step by step *)

(** The literals [0.03], [0.95] and [1.5] are the floats nearest to 3/100,
    95/100 and 3/2: the correctly rounded quotients. *)
Lemma literals_nearest :
  int_truediv 3 100 = Ret lit_0_03 /\
  int_truediv 95 100 = Ret lit_0_95 /\
  int_truediv 3 2 = Ret lit_1_5.
Proof. vm_compute. repeat split. Qed.

Lemma margin_factor_eq :
  num_sub (Int 1) (Float SAFETY_MARGIN) = Ret (Float margin_factor).
Proof. vm_compute. reflexivity. Qed.

Lemma budget_bits_eq :
  num_mul (Int TARGET_BITS) (Float margin_factor) = Ret (Float budget_bits).
Proof. vm_compute. reflexivity. Qed.

Lemma of_int_small (n : Z) (f : float) :
  of_int n = Ret f -> float_of n = f.
Proof. unfold float_of. now intros ->. Qed.

(** The planner as one expression on floats. *)
Lemma calculate_target_bitrate_eq (info : VideoInfo) :
  calculate_target_bitrate info =
  (let d := duration info in
   let audio_bits := if has_audio info then fmul (float_of AUDIO_BITRATE) d else zero in
   if is_zero d then Raise ZeroDivisionError
   else
     floored <- floor (fdiv (fdiv (fsub budget_bits audio_bits) d) (float_of 1000)) ;;
     Ret (Z.max MIN_VIDEO_BITRATE (floored * 1000)))%py.
Proof.
  unfold calculate_target_bitrate.
  destruct info as [d audio wd ht br]; cbn [duration has_audio].
  assert (of_int AUDIO_BITRATE = Ret (float_of AUDIO_BITRATE)) as Haudio
    by (vm_compute; reflexivity).
  assert (of_int 1000 = Ret (float_of 1000)) as Hthousand
    by (vm_compute; reflexivity).
  assert (of_int 0 = Ret zero) as Hzero by (vm_compute; reflexivity).
  assert (is_zero (float_of 1000) = false) as Hnz by (vm_compute; reflexivity).
  destruct audio.
  - unfold num_mul at 1. cbn [as_float]. rewrite Haudio. cbn [bind].
    rewrite margin_factor_eq. cbn [bind]. rewrite budget_bits_eq. cbn [bind].
    unfold num_sub, num_truediv. cbn [as_float bind].
    destruct (is_zero d); [reflexivity |]. cbn [bind as_float].
    rewrite Hthousand. cbn [bind]. rewrite Hnz. reflexivity.
  - cbn [bind].
    rewrite margin_factor_eq. cbn [bind]. rewrite budget_bits_eq. cbn [bind].
    unfold num_sub, num_truediv. cbn [as_float bind]. rewrite Hzero. cbn [bind].
    destruct (is_zero d); [reflexivity |]. cbn [bind as_float].
    rewrite Hthousand. cbn [bind]. rewrite Hnz. reflexivity.
Qed.

(** C4, as the code computes it: for a 60 second source with audio the
    audio takes 5,760,000 bits, 59,335,598 whole bits remain of the budget
    (not 59,395,522), the bitrate before flooring is 988,926 bits/s, and
    the planner returns 988,000. *)
Theorem sixty_seconds_with_audio (wd ht br : Z) :
  fmul (float_of AUDIO_BITRATE) (float_of 60) = float_of 5760000 /\
  floor (fsub budget_bits (float_of 5760000)) = Ret 59335598 /\
  floor (fdiv (fsub budget_bits (float_of 5760000)) (float_of 60)) = Ret 988926 /\
  calculate_target_bitrate
    {| duration := float_of 60; has_audio := true;
       width := wd; height := ht; bitrate := br |} = Ret 988000.
Proof. repeat split; vm_compute; reflexivity. Qed.

(** C4 as stated fails: the planner does not return 989,000 there. *)
Lemma sixty_seconds_not_989000 :
  calculate_target_bitrate (info_of (float_of 60) true) = Ret 988000 /\
  988000 <> 989000.
Proof. split; [vm_compute; reflexivity | discriminate]. Qed.

(** C9: for a duration above zero the planner either raises (the quotient
    is infinite or not a number, which [math.floor] refuses) or returns an
    exact multiple of 1000. *)
Theorem planned_bitrate_multiple_of_1000 (info : VideoInfo) :
  ltb zero (duration info) = true ->
  match calculate_target_bitrate info with
  | Ret r => (1000 | r)
  | Raise e => e = OverflowError \/ e = ValueError
  end.
Proof.
  intros Hpos. rewrite calculate_target_bitrate_eq. cbv zeta.
  destruct (is_zero (duration info)) eqn:Hz.
  - destruct (duration info); discriminate.
  - destruct (floor _) as [floored | e] eqn:Hfloor; cbn [bind].
    + unfold MIN_VIDEO_BITRATE.
      destruct (Z.max_spec 80000 (floored * 1000)) as [[_ ->] | [_ ->]].
      * now exists floored.
      * now exists 80.
    + unfold floor in Hfloor.
      destruct (fdiv _ _); inversion Hfloor; auto.
Qed.

Lemma planned_bitrate_multiple_of_1000_witness :
  ltb zero (float_of 60) = true /\ (1000 | 988000).
Proof.
  split; [reflexivity |].
  exact (planned_bitrate_multiple_of_1000 (info_of (float_of 60) true) eq_refl).
Defined.

(** ** Encoder selection *)

Lemma first_available_choice (priority : list (string * string)) (available : string) :
  match snd (first_available priority available) with
  | Ret (Some choice) => In choice priority /\ str_in (fst choice) available = true
  | Ret None => existsb (fun choice => str_in (fst choice) available) priority = false
  | Raise _ => False
  end.
Proof.
  induction priority as [| [codec preset] rest IH]; cbn [first_available].
  - reflexivity.
  - cbn [existsb fst]. destruct (str_in codec available) eqn:Hin.
    + simpl. auto.
    + destruct (snd (first_available rest available)) as [[choice |] | e];
        simpl in *; tauto.
Qed.

(** C8: the encoder selector never raises.  Whatever the capability query
    does, [detect_encoder] returns a pair of the priority list; and when
    the query raises or lists no codec of the priority list, the pair is
    the software fallback (libx265, veryfast). *)
Theorem detect_encoder_never_fails (w : World) (ffmpeg : string) :
  exists choice : string * string,
    snd (detect_encoder w ffmpeg) = Ret choice /\
    In choice ENCODER_PRIORITY /\
    (query_unusable w ffmpeg = true -> choice = ("libx265", "veryfast")).
Proof.
  unfold detect_encoder, query_unusable.
  destruct (encoders_query w ffmpeg) as [available | e].
  - pose proof (first_available_choice ENCODER_PRIORITY available) as Hfirst.
    unfold lift, try_except. cbn [io_bind].
    destruct (first_available ENCODER_PRIORITY available)
      as [t [[choice |] | e]]; cbn [snd] in Hfirst; [| | contradiction].
    + exists choice. destruct Hfirst as [Hin Hocc].
      assert (existsb (fun c => str_in (fst c) available) ENCODER_PRIORITY = true)
        as Hsome by (apply existsb_exists; now exists choice).
      rewrite Hsome. cbn [negb snd].
      split; [reflexivity |]. split; [exact Hin | discriminate].
    + exists ("libx265", "veryfast"). cbn.
      split; [reflexivity |]. split; [simpl; auto |]. reflexivity.
  - exists ("libx265", "veryfast"). cbn.
    split; [reflexivity |]. split; [simpl; auto |]. reflexivity.
Qed.

(** The selector on a capability query that raises. *)
Lemma detect_encoder_never_fails_witness :
  query_unusable no_listing "ffmpeg" = true /\
  snd (detect_encoder no_listing "ffmpeg") = Ret ("libx265", "veryfast").
Proof.
  split; [reflexivity |].
  destruct (detect_encoder_never_fails no_listing "ffmpeg")
    as (choice & Hret & _ & Hfallback).
  rewrite Hret. f_equal. apply Hfallback. reflexivity.
Defined.

(** ** The prober's guard *)

(** A duration that gets past the prober is neither zero nor below zero. *)
Lemma get_video_info_duration (w : World) (ffprobe input_path : string)
    (info : VideoInfo) :
  snd (get_video_info w ffprobe input_path) = Ret (Some info) ->
  is_zero (duration info) = false /\ leb (duration info) zero = false.
Proof.
  unfold get_video_info. io_unfold. unfold duration_rejected.
  intros H.
  repeat (let E := fresh "E" in
          match type of H with
          | context [match ?x with _ => _ end] =>
              lazymatch x with
              | context [match _ with _ => _ end] => fail
              | _ => destruct x eqn:E; cbn [snd fst] in H; try discriminate
              end
          end).
  all: injection H as <-; cbn [duration].
  all: match goal with
       | E : (is_zero ?d || leb ?d zero) = false |- _ =>
           now apply orb_false_iff in E
       end.
Qed.

Lemma get_video_info_never_raises (w : World) (ffprobe input_path : string)
    (e : exn) :
  snd (get_video_info w ffprobe input_path) <> Raise e.
Proof.
  unfold get_video_info. io_unfold.
  repeat (case_inner; simpl); discriminate.
Qed.

(** The planner divides by zero only on a zero duration. *)
Lemma planner_zero_division (info : VideoInfo) :
  calculate_target_bitrate info = Raise ZeroDivisionError ->
  is_zero (duration info) = true.
Proof.
  rewrite calculate_target_bitrate_eq. cbv zeta.
  destruct (is_zero (duration info)); [reflexivity |].
  unfold floor. destruct (fdiv _ _); cbn [bind]; discriminate.
Qed.

(** Which exceptions the numeric steps can raise. *)
Lemma of_int_raises (n : Z) (e : exn) : of_int n = Raise e -> e = OverflowError.
Proof.
  unfold of_int. destruct (binary_normalize _ _ _ _ _); congruence.
Qed.

Lemma trunc_raises (x : float) (e : exn) :
  trunc x = Raise e -> e <> ZeroDivisionError.
Proof. destruct x; cbn [trunc]; intros [= <-]; discriminate. Qed.

Lemma int_truediv_raises (a b : Z) (e : exn) :
  b <> 0 -> int_truediv a b = Raise e -> e <> ZeroDivisionError.
Proof.
  intros Hb. unfold int_truediv.
  destruct (Z.eqb_spec b 0) as [| _]; [contradiction |].
  destruct (a =? 0); [discriminate |].
  destruct (SFdiv_core_binary _ _ _ _ _ _) as [[m ex] l].
  destruct (binary_round_aux _ _ _ _ _ _); intros [= <-]; discriminate.
Qed.

Lemma corrective_bitrate_raises (video_bitrate out_size : Z) (e : exn) :
  TARGET_BYTES < out_size ->
  corrective_bitrate video_bitrate out_size = Raise e -> e <> ZeroDivisionError.
Proof.
  intros Hover. unfold corrective_bitrate, num_truediv, num_mul.
  destruct (int_truediv TARGET_BYTES out_size) as [ratio | e'] eqn:Hratio;
    cbn [bind as_float].
  - destruct (of_int video_bitrate) as [current | e'] eqn:Hcurrent; cbn [bind int_of].
    + destruct (trunc _) as [t | e'] eqn:Ht; cbn [bind]; [discriminate |].
      intros [= <-]. eapply trunc_raises; eassumption.
    + intros [= <-]. now rewrite (of_int_raises _ _ Hcurrent).
  - intros [= <-]. eapply int_truediv_raises; [| eassumption].
    unfold TARGET_BYTES in Hover. lia.
Qed.

Lemma attempt_body_no_zero_division (w : World) (base_cmd : list string)
    (input_path output_path : string) (attempt video_bitrate : Z) :
  snd (attempt_body w base_cmd input_path output_path attempt video_bitrate)
  <> Raise ZeroDivisionError.
Proof.
  unfold attempt_body. io_unfold.
  destruct (x <- num_mul (Int video_bitrate) (Float lit_1_5);; int_of x)%py
    as [maxrate | e] eqn:Hmaxrate.
  2: { cbn [snd]. intros [= ->]. revert Hmaxrate.
       unfold num_mul. cbn [as_float bind].
       destruct (of_int video_bitrate) as [current | e'] eqn:Hcurrent;
         cbn [bind int_of].
       - intros Ht. now apply trunc_raises in Ht.
       - intros [= ->]. apply of_int_raises in Hcurrent. discriminate. }
  cbn [num_mul bind int_of].
  destruct (encode_returncode w attempt) as [rc | e];
    [destruct (rc =? 0) |]; cbn [negb snd fst]; try discriminate.
  destruct (output_exists w attempt); cbn [negb snd fst]; try discriminate.
  destruct (num_truediv (Int (output_size w attempt)) (Int (1024 * 1024)))
    as [size_mb | e] eqn:Hmb.
  2: { cbn [snd]. intros [= ->]. revert Hmb. unfold num_truediv.
       destruct (int_truediv _ _) as [f | e'] eqn:Hdiv; cbn [bind]; [discriminate |].
       intros [= ->]. eapply int_truediv_raises; [| exact Hdiv | reflexivity].
       discriminate. }
  destruct (output_size w attempt <=? TARGET_BYTES) eqn:Hfit;
    cbn [snd fst]; try discriminate.
  apply Z.leb_gt in Hfit.
  destruct (attempt <? MAX_ATTEMPTS); cbn [snd fst]; try discriminate.
  destruct (corrective_bitrate video_bitrate (output_size w attempt))
    as [new_bitrate | e] eqn:Hnew.
  - destruct (new_bitrate >=? video_bitrate); cbn [snd fst]; discriminate.
  - cbn [snd]. intros [= ->].
    now apply (corrective_bitrate_raises _ _ _ Hfit Hnew).
Qed.

Lemma attempts_loop_no_zero_division (w : World) (base_cmd : list string)
    (input_path output_path : string) (attempts : list Z) :
  forall (video_bitrate : Z) (s : option num),
    snd (attempts_loop w base_cmd input_path output_path attempts video_bitrate s)
    <> Raise ZeroDivisionError.
Proof.
  induction attempts as [| attempt rest IH]; intros video_bitrate s.
  - destruct s; cbn; discriminate.
  - cbn [attempts_loop]. rewrite io_bind_result.
    pose proof (attempt_body_no_zero_division w base_cmd input_path output_path
                  attempt video_bitrate) as Hbody.
    destruct (snd (attempt_body w base_cmd input_path output_path
                     attempt video_bitrate)) as [[b | b' s'] | e].
    + cbn. discriminate.
    + apply IH.
    + congruence.
Qed.

(** The division by the duration is never a division by zero: no run of
    [compress_video] raises [ZeroDivisionError]. *)
Lemma compress_video_no_zero_division (w : World)
    (input_path output_path ffmpeg ffprobe : string) :
  snd (compress_video w input_path output_path ffmpeg ffprobe)
  <> Raise ZeroDivisionError.
Proof.
  unfold compress_video. rewrite io_bind_result.
  destruct (snd (get_video_info w ffprobe input_path)) as [[info |] | e] eqn:Hinfo.
  - apply get_video_info_duration in Hinfo. destruct Hinfo as [Hnz _].
    rewrite io_bind_result.
    destruct (snd (detect_encoder w ffmpeg)) as [[codec preset] | e] eqn:Hdetect.
    + match goal with
      | |- context [io_bind (lift ?r) ?k] => rewrite (io_bind_lift r k)
      end.
      destruct (calculate_target_bitrate info) as [video_bitrate | e] eqn:Hplan.
      * apply attempts_loop_no_zero_division.
      * cbn [snd]. intros [= ->].
        apply planner_zero_division in Hplan. congruence.
    + destruct (detect_encoder_never_raises w ffmpeg e). exact Hdetect.
  - cbn. discriminate.
  - now destruct (get_video_info_never_raises w ffprobe input_path e).
Qed.

(** C10, where it holds and where it breaks.  The prober's guard keeps
    zero and negative durations from the planner, and no run divides by
    zero.  But a probe whose duration reads ["nan"] is not rejected ([nan]
    is neither false nor [<= 0]), so a [VideoInfo] whose duration is not
    above zero does reach the planner; there [math.floor] raises
    [ValueError], which nothing catches. *)
Theorem nan_duration_reaches_planner :
  (forall (w : World) (input_path output_path ffmpeg ffprobe : string),
      (forall info,
          snd (get_video_info w ffprobe input_path) = Ret (Some info) ->
          is_zero (duration info) = false /\ leb (duration info) zero = false) /\
      snd (compress_video w input_path output_path ffmpeg ffprobe)
      <> Raise ZeroDivisionError) /\
  exists info : VideoInfo,
    get_video_info nan_source "/usr/bin/ffprobe" "in.mp4" = ([], Ret (Some info)) /\
    is_nan (duration info) = true /\
    ltb zero (duration info) = false /\
    calculate_target_bitrate info = Raise ValueError /\
    snd (compress_video nan_source "in.mp4" "8mb[in].mp4"
           "/usr/bin/ffmpeg" "/usr/bin/ffprobe") = Raise ValueError /\
    snd (main nan_source) = Raise ValueError.
Proof.
  split.
  - intros w input_path output_path ffmpeg ffprobe. split.
    + intros info. apply get_video_info_duration.
    + apply compress_video_no_zero_division.
  - exists {| duration := S754_nan; has_audio := true;
              width := 1280; height := 720; bitrate := 0 |}.
    repeat split; vm_compute; reflexivity.
Qed.

(** ** Notices and results *)

Lemma quiet_then (t t' : list event) :
  succeeded t = false -> failed t = false ->
  succeeded (t ++ t') = succeeded t' /\ failed (t ++ t') = failed t'.
Proof.
  unfold succeeded, failed. intros Hs Hf.
  now rewrite !existsb_app, Hs, Hf.
Qed.

Lemma attempt_body_notices (w : World) (base_cmd : list string)
    (input_path output_path : string) (attempt video_bitrate : Z) :
  let c := attempt_body w base_cmd input_path output_path attempt video_bitrate in
  match snd c with
  | Ret (Return b) => notices_match (fst c) (Ret b)
  | _ => succeeded (fst c) = false /\ failed (fst c) = false
  end.
Proof.
  cbv zeta. unfold attempt_body. io_unfold.
  repeat (case_inner; simpl); auto.
Qed.

Lemma attempts_loop_notices (w : World) (base_cmd : list string)
    (input_path output_path : string) (attempts : list Z) :
  forall (video_bitrate : Z) (s : option num),
    let c := attempts_loop w base_cmd input_path output_path
               attempts video_bitrate s in
    notices_match (fst c) (snd c).
Proof.
  induction attempts as [| attempt rest IH]; intros video_bitrate s; cbv zeta.
  - destruct s; simpl; auto.
  - cbn [attempts_loop].
    pose proof (attempt_body_notices w base_cmd input_path output_path
                  attempt video_bitrate) as Hbody.
    cbv zeta in Hbody. rewrite io_bind_trace, io_bind_result.
    destruct (snd (attempt_body w base_cmd input_path output_path
                     attempt video_bitrate)) as [[b | b' s'] | e].
    + cbn [io_ret fst snd]. now rewrite app_nil_r.
    + destruct Hbody as [Hs Hf].
      specialize (IH b' (Some s')). cbv zeta in IH.
      destruct (quiet_then _ (fst (attempts_loop w base_cmd input_path
                                     output_path rest b' (Some s'))) Hs Hf)
        as [Hs' Hf'].
      unfold notices_match in *. rewrite Hs', Hf'. exact IH.
    + now rewrite app_nil_r.
Qed.

Lemma get_video_info_quiet (w : World) (ffprobe input_path : string) :
  succeeded (fst (get_video_info w ffprobe input_path)) = false /\
  failed (fst (get_video_info w ffprobe input_path)) = false /\
  forall e, snd (get_video_info w ffprobe input_path) <> Raise e.
Proof.
  unfold get_video_info. io_unfold.
  repeat (case_inner; simpl); repeat split; auto; discriminate.
Qed.

Lemma detect_encoder_quiet (w : World) (ffmpeg : string) :
  succeeded (fst (detect_encoder w ffmpeg)) = false /\
  failed (fst (detect_encoder w ffmpeg)) = false.
Proof.
  unfold detect_encoder. io_unfold. simpl.
  repeat (case_inner; simpl); auto.
Qed.

Lemma compress_video_notices (w : World)
    (input_path output_path ffmpeg ffprobe : string) :
  let c := compress_video w input_path output_path ffmpeg ffprobe in
  notices_match (fst c) (snd c).
Proof.
  cbv zeta. unfold compress_video.
  destruct (get_video_info_quiet w ffprobe input_path) as (Hs & Hf & Hok).
  rewrite io_bind_trace, io_bind_result.
  destruct (snd (get_video_info w ffprobe input_path)) as [[info |] | e];
    [| | now destruct (Hok e)].
  - destruct (detect_encoder_quiet w ffmpeg) as (Hs' & Hf').
    match goal with
    | |- notices_match (_ ++ ?t)%list _ =>
        destruct (quiet_then _ t Hs Hf) as [Hs1 Hf1]
    end.
    unfold notices_match at 1. rewrite Hs1, Hf1. clear Hs1 Hf1.
    rewrite io_bind_trace, io_bind_result.
    destruct (snd (detect_encoder w ffmpeg)) as [[codec preset] | e].
    + match goal with
      | |- context [io_bind (lift ?r) ?k] => rewrite (io_bind_lift r k)
      end.
      match goal with
      | |- context [(_ ++ ?t)%list] =>
          destruct (quiet_then _ t Hs' Hf') as [Hs1 Hf1]
      end.
      rewrite Hs1, Hf1.
      destruct (calculate_target_bitrate info) as [video_bitrate | e].
      * apply attempts_loop_notices.
      * simpl. auto.
    + rewrite app_nil_r, Hs', Hf'. auto.
  - match goal with
    | |- notices_match (_ ++ ?t)%list _ =>
        destruct (quiet_then _ t Hs Hf) as [Hs1 Hf1]
    end.
    unfold notices_match at 1. rewrite Hs1, Hf1. simpl. auto.
Qed.

(** ** Rounding in binary64 *)

Lemma fexp_eq (e : Z) : fexp e = Z.max (e - 53) (-1074).
Proof. reflexivity. Qed.

Lemma digits2_pos_size (p : positive) : digits2_pos p = Pos.size p.
Proof. induction p; simpl; now rewrite ?IHp. Qed.

Lemma Zdigits2_log2 (m : Z) : 0 < m -> Zdigits2 m = Z.log2 m + 1.
Proof.
  destruct m as [| p | p]; try lia. intros _. simpl.
  rewrite digits2_pos_size.
  destruct p; simpl; lia.
Qed.

Lemma Zdigits2_nonneg (m : Z) : 0 <= Zdigits2 m.
Proof. destruct m; simpl; lia. Qed.

Lemma Zdigits2_bounds (m : Z) :
  0 < m -> 2 ^ (Zdigits2 m - 1) <= m < 2 ^ Zdigits2 m.
Proof.
  intros Hm. rewrite Zdigits2_log2 by exact Hm.
  replace (Z.log2 m + 1 - 1) with (Z.log2 m) by lia.
  replace (Z.log2 m + 1) with (Z.succ (Z.log2 m)) by lia.
  now apply Z.log2_spec.
Qed.

Lemma shr_1_m (r : shr_record) :
  0 <= shr_m r -> shr_m (shr_1 r) = shr_m r / 2.
Proof.
  destruct r as [m rb sb]. cbn [shr_m]. intros Hm.
  destruct m as [| p | p]; [reflexivity | | lia].
  rewrite <- Z.div2_div. destruct p; reflexivity.
Qed.

Lemma iter_shr_1_m (n : positive) :
  forall r : shr_record,
    0 <= shr_m r ->
    shr_m (iter_pos shr_1 n r) = shr_m r / 2 ^ Z.pos n.
Proof.
  induction n as [n IH | n IH |]; intros r Hr; cbn [iter_pos].
  - assert (0 <= shr_m (shr_1 r)) as H1
        by (rewrite shr_1_m by lia; apply Z.div_pos; lia).
    assert (0 <= shr_m (iter_pos shr_1 n (shr_1 r))) as H2
        by (rewrite IH by lia; apply Z.div_pos; lia).
    rewrite (IH _ H2), (IH _ H1), shr_1_m by lia.
    rewrite !Z.div_div by lia. f_equal.
    replace (Z.pos n~1) with (1 + (Z.pos n + Z.pos n)) by lia.
    rewrite !Z.pow_add_r by lia. rewrite Z.pow_1_r. ring.
  - assert (0 <= shr_m (iter_pos shr_1 n r)) as H2
        by (rewrite IH by lia; apply Z.div_pos; lia).
    rewrite (IH _ H2), (IH _ Hr).
    rewrite !Z.div_div by lia. f_equal.
    replace (Z.pos n~0) with (Z.pos n + Z.pos n) by lia.
    now rewrite Z.pow_add_r by lia.
  - now rewrite shr_1_m.
Qed.


Lemma shr_fexp_spec (m e : Z) (l : location) :
  0 <= m ->
  shr_m (fst (shr_fexp prec emax m e l)) = m / 2 ^ (target_exp m e - e) /\
  snd (shr_fexp prec emax m e l) = target_exp m e /\
  (target_exp m e = e -> fst (shr_fexp prec emax m e l) = shr_record_of_loc m l).
Proof.
  intros Hm. unfold shr_fexp, shr, target_exp.
  assert (shr_m (shr_record_of_loc m l) = m) as Hrec
    by (destruct l as [| []]; reflexivity).
  destruct (fexp (Zdigits2 m + e) - e) as [| n | n] eqn:Hn; cbn [fst snd].
  - rewrite Z.max_l by lia. rewrite Z.sub_diag, Z.div_1_r. auto.
  - rewrite Z.max_r by lia. rewrite iter_shr_1_m by lia.
    rewrite Hrec, <- Hn. repeat split; try lia.
  - rewrite Z.max_l by lia. rewrite Z.sub_diag, Z.div_1_r. auto.
Qed.

Lemma round_nearest_even_cases (mx : Z) (lx : location) :
  round_nearest_even mx lx = mx \/ round_nearest_even mx lx = mx + 1.
Proof.
  destruct lx as [| []]; cbn; auto. destruct (Z.even mx); auto.
Qed.

Lemma loc_of_shr_record_of_loc (m : Z) (l : location) :
  loc_of_shr_record (shr_record_of_loc m l) = l.
Proof. destruct l as [| []]; reflexivity. Qed.

(** What [binary_round_aux] returns, in terms of integer quotients. *)
Lemma binary_round_aux_spec (s : bool) (m e : Z) (l : location) :
  0 <= m ->
  exists m2 : Z,
    (m2 = m / 2 ^ (target_exp m e - e) \/ m2 = m / 2 ^ (target_exp m e - e) + 1) /\
    (l = loc_Exact -> target_exp m e = e -> m2 = m) /\
    binary_round_aux prec emax s m e l =
    match m2 / 2 ^ (target_exp m2 (target_exp m e) - target_exp m e) with
    | Z0 => S754_zero s
    | Zpos p =>
        if target_exp m2 (target_exp m e) <=? emax - prec
        then S754_finite s p (target_exp m2 (target_exp m e))
        else S754_infinity s
    | Zneg _ => S754_nan
    end.
Proof.
  intros Hm. unfold binary_round_aux.
  destruct (shr_fexp_spec m e l Hm) as (Hm1 & He1 & Hsame).
  destruct (shr_fexp prec emax m e l) as [mrs1 e1]. cbn [fst snd] in *.
  subst e1.
  set (m2 := round_nearest_even (shr_m mrs1) (loc_of_shr_record mrs1)).
  assert (0 <= m2) as Hm2.
  { assert (0 <= shr_m mrs1)
      by (rewrite Hm1; apply Z_div_nonneg_nonneg; [lia | apply Z.pow_nonneg; lia]).
    unfold m2.
    destruct (round_nearest_even_cases (shr_m mrs1) (loc_of_shr_record mrs1))
      as [-> | ->]; lia. }
  destruct (shr_fexp_spec m2 (target_exp m e) loc_Exact Hm2) as (Hm3 & He3 & _).
  destruct (shr_fexp prec emax m2 (target_exp m e) loc_Exact) as [mrs3 e3].
  cbn [fst snd] in *. subst e3. rewrite Hm3.
  exists m2. split; [| split; [| reflexivity]].
  - rewrite <- Hm1. apply round_nearest_even_cases.
  - intros -> Hnoshift. unfold m2. rewrite (Hsame Hnoshift).
    rewrite loc_of_shr_record_of_loc. destruct mrs1; reflexivity.
Qed.

Lemma target_exp_ge (m e : Z) : e <= target_exp m e.
Proof. unfold target_exp. lia. Qed.

(** A finite result of [binary_round_aux], against its input, in integers:
    the exponent only grows, stays in range, and the result is at most one
    unit of the rounding exponent above the input. *)
Lemma round_aux_upper_Z (s : bool) (m e : Z) (l : location)
    (s' : bool) (p : positive) (e' : Z) :
  0 <= m ->
  binary_round_aux prec emax s m e l = S754_finite s' p e' ->
  s' = s /\ target_exp m e <= e' /\ e' <= emax - prec /\
  Z.pos p * 2 ^ (e' - e) <= m + 2 ^ (target_exp m e - e) /\
  (l = loc_Exact -> target_exp m e = e -> Z.pos p * 2 ^ (e' - e) <= m).
Proof.
  intros Hm Hround.
  destruct (binary_round_aux_spec s m e l Hm) as (m2 & Hm2 & Hexact & Hspec).
  rewrite Hspec in Hround. clear Hspec.
  pose proof (target_exp_ge m e) as He1.
  pose proof (target_exp_ge m2 (target_exp m e)) as He3.
  set (e1 := target_exp m e) in *.
  set (e3 := target_exp m2 e1) in *.
  assert (0 < 2 ^ (e1 - e)) as Hp1 by (apply Z.pow_pos_nonneg; lia).
  assert (0 < 2 ^ (e3 - e1)) as Hp3 by (apply Z.pow_pos_nonneg; lia).
  destruct (m2 / 2 ^ (e3 - e1)) as [| q | q] eqn:Hq; try discriminate.
  destruct (e3 <=? emax - prec) eqn:Hrange; try discriminate.
  injection Hround as <- <- <-. apply Z.leb_le in Hrange.
  pose proof (Z.mul_div_le m2 (2 ^ (e3 - e1)) Hp3) as Hq3. rewrite Hq in Hq3.
  pose proof (Z.mul_div_le m (2 ^ (e1 - e)) Hp1) as Hq1.
  replace (e3 - e) with ((e3 - e1) + (e1 - e)) by lia.
  rewrite Z.pow_add_r by lia.
  repeat split; try lia.
  - destruct Hm2 as [-> | ->]; nia.
  - intros Hl Hno. rewrite (Hexact Hl Hno) in Hq3.
    rewrite Hno, Z.sub_diag in *. change (2 ^ 0) with 1 in *. lia.
Qed.

(** A result of [binary_round_aux] is finite when the input is below
    [2 ^ 1023] and its exponent is in range. *)
Lemma Zdigits2_succ (m : Z) : 0 <= m -> Zdigits2 (m + 1) <= Zdigits2 m + 1.
Proof.
  intros Hm. destruct (Z.eq_dec m 0) as [-> | Hnz]; [simpl; lia |].
  replace (m + 1) with (Z.succ m) by lia.
  rewrite !Zdigits2_log2 by lia.
  pose proof (Z.log2_succ_le m). lia.
Qed.

Lemma Zdigits2_div_pow2 (m k : Z) :
  0 <= k -> 0 < m / 2 ^ k -> Zdigits2 (m / 2 ^ k) = Zdigits2 m - k.
Proof.
  intros Hk Hq.
  assert (0 < m) as Hm.
  { destruct (Z_lt_le_dec 0 m) as [H | H]; [exact H |].
    exfalso. assert (m / 2 ^ k <= 0); [| lia].
    apply Z.div_le_upper_bound; [apply Z.pow_pos_nonneg; lia | nia]. }
  assert (2 ^ k <= m) as Hge.
  { destruct (Z_lt_le_dec m (2 ^ k)) as [Hlt | Hle]; [| exact Hle].
    rewrite Z.div_small in Hq; lia. }
  assert (k <= Z.log2 m) as Hlog by (apply Z.log2_le_pow2; lia).
  rewrite !Zdigits2_log2 by lia.
  rewrite <- Z.shiftr_div_pow2 by lia.
  rewrite Z.log2_shiftr by lia. lia.
Qed.

Lemma round_aux_finite (s : bool) (m e : Z) (l : location) :
  0 <= m -> Zdigits2 m + e <= emax - 1 -> e <= emax - prec ->
  match binary_round_aux prec emax s m e l with
  | S754_zero _ | S754_finite _ _ _ => True
  | _ => False
  end.
Proof.
  intros Hm Hmag He.
  destruct (binary_round_aux_spec s m e l Hm) as (m2 & Hm2 & _ & Hspec).
  rewrite Hspec. clear Hspec.
  pose proof (target_exp_ge m e) as He1.
  set (e1 := target_exp m e) in *.
  assert (0 < 2 ^ (e1 - e)) as Hp1 by (apply Z.pow_pos_nonneg; lia).
  assert (0 <= m / 2 ^ (e1 - e)) as Hm1 by (apply Z.div_pos; lia).
  assert (0 <= m2) as Hm2' by (destruct Hm2; lia).
  pose proof (target_exp_ge m2 e1) as He3.
  assert (0 < 2 ^ (target_exp m2 e1 - e1)) as Hp3 by (apply Z.pow_pos_nonneg; lia).
  destruct (m2 / 2 ^ (target_exp m2 e1 - e1)) as [| q | q] eqn:Hq; [exact I | |].
  - assert (target_exp m2 e1 <= emax - prec) as Hfin; [| apply Z.leb_le in Hfin; now rewrite Hfin].
    assert (e1 <= emax - prec) as He1'
      by (unfold e1, target_exp; rewrite fexp_eq; unfold emax, prec in *; lia).
    assert (Zdigits2 m2 + e1 <= emax) as Hmag2.
    { assert (Zdigits2 m2 <= Zdigits2 (m / 2 ^ (e1 - e)) + 1) as Hd.
      { destruct Hm2 as [-> | ->]; [lia | now apply Zdigits2_succ]. }
      destruct (Z.eq_dec (m / 2 ^ (e1 - e)) 0) as [Hz | Hnz].
      - rewrite Hz in Hd. simpl in Hd. unfold emax, prec in *. lia.
      - rewrite Zdigits2_div_pow2 in Hd by lia. lia. }
    unfold target_exp. rewrite fexp_eq. unfold emax, prec in *. lia.
  - pose proof (Z.div_pos m2 (2 ^ (target_exp m2 e1 - e1)) Hm2' Hp3). lia.
Qed.

(** The sign of a rounded result is the sign asked for, and it is a number. *)
Lemma round_aux_shape (s : bool) (m e : Z) (l : location) :
  0 <= m ->
  match binary_round_aux prec emax s m e l with
  | S754_zero s' | S754_infinity s' | S754_finite s' _ _ => s' = s
  | S754_nan => False
  end.
Proof.
  intros Hm.
  destruct (binary_round_aux_spec s m e l Hm) as (m2 & Hm2 & _ & Hspec).
  rewrite Hspec. clear Hspec.
  pose proof (target_exp_ge m e) as He1.
  assert (0 <= m / 2 ^ (target_exp m e - e)) as Hm1
    by (apply Z_div_nonneg_nonneg; [lia | apply Z.pow_nonneg; lia]).
  assert (0 <= m2 / 2 ^ (target_exp m2 (target_exp m e) - target_exp m e)) as Hm3
    by (apply Z_div_nonneg_nonneg; [lia | apply Z.pow_nonneg; lia]).
  destruct (m2 / 2 ^ (target_exp m2 (target_exp m e) - target_exp m e));
    [reflexivity | | lia].
  destruct (_ <=? _); reflexivity.
Qed.

Lemma binary_round_shape (s : bool) (mx : positive) (ex : Z) :
  match binary_round prec emax s mx ex with
  | S754_zero s' | S754_infinity s' | S754_finite s' _ _ => s' = s
  | S754_nan => False
  end.
Proof.
  unfold binary_round. destruct (shl_align _ _ _) as [mz ez].
  apply round_aux_shape. lia.
Qed.

Local Open Scope Q_scope.

(** ** Powers of two as rationals *)


Lemma pow2_pos (e : Z) : 0 < pow2 e.
Proof. apply Qpower_0_lt. reflexivity. Qed.

Lemma pow2_add (a b : Z) : pow2 (a + b) == pow2 a * pow2 b.
Proof. apply Qpower_plus. discriminate. Qed.

Lemma pow2_Z (n : Z) : (0 <= n)%Z -> pow2 n == inject_Z (2 ^ n).
Proof. intros Hn. unfold pow2. now rewrite Zpower_Qpower. Qed.

Lemma pow2_le (a b : Z) : (a <= b)%Z -> pow2 a <= pow2 b.
Proof.
  intros Hab. replace b with (a + (b - a))%Z by lia.
  rewrite pow2_add, (pow2_Z (b - a)) by lia.
  assert (1 <= inject_Z (2 ^ (b - a))) as Hone.
  { change 1 with (inject_Z 1). rewrite <- Zle_Qle.
    pose proof (Z.pow_pos_nonneg 2 (b - a)). lia. }
  pose proof (pow2_pos a). nra.
Qed.

Lemma pow2_lt_inv (a b : Z) : pow2 a < pow2 b -> (a < b)%Z.
Proof.
  intros Hlt. destruct (Z_lt_le_dec a b) as [H | H]; [exact H |].
  apply pow2_le in H. lra.
Qed.



Lemma mant_le (a b e : Z) : (a <= b)%Z -> mant a e <= mant b e.
Proof.
  intros Hab. unfold mant. rewrite Zle_Qle in Hab.
  pose proof (pow2_pos e). nra.
Qed.

Lemma mant_shift (m e e' : Z) :
  (e <= e')%Z -> mant m e' == mant (m * 2 ^ (e' - e)) e.
Proof.
  intros He. unfold mant.
  replace e' with ((e' - e) + e)%Z at 1 by lia.
  rewrite pow2_add, pow2_Z, inject_Z_mult by lia. ring.
Qed.

Lemma mant_pow2 (k e : Z) : (0 <= k)%Z -> mant (2 ^ k) e == pow2 (k + e).
Proof. intros Hk. unfold mant. rewrite pow2_add, (pow2_Z k) by lia. reflexivity. Qed.

Lemma mant_plus (a b e : Z) : mant (a + b) e == mant a e + mant b e.
Proof. unfold mant. rewrite inject_Z_plus. ring. Qed.

Lemma mant_nonneg (m e : Z) : (0 <= m)%Z -> 0 <= mant m e.
Proof.
  intros Hm. unfold mant. rewrite Zle_Qle in Hm.
  pose proof (pow2_pos e). change (inject_Z 0) with 0 in Hm. nra.
Qed.

(** One unit of the rounding exponent, against the value being rounded. *)
Lemma ulp_bound (m e : Z) :
  (0 < m)%Z ->
  pow2 (fexp (Zdigits2 m + e)) <= mant m e * u + eta.
Proof.
  intros Hm. rewrite fexp_eq.
  pose proof (mant_nonneg m e ltac:(lia)) as Hx.
  pose proof (pow2_pos (-52)) as Hu. pose proof (pow2_pos (-1074)) as Heta.
  fold u in Hu. fold eta in Heta.
  destruct (Z.max_spec (Zdigits2 m + e - 53) (-1074)) as [[_ ->] | [_ ->]].
  - fold eta. nra.
  - replace (Zdigits2 m + e - 53)%Z with ((Zdigits2 m - 1) + e + (-52))%Z by lia.
    rewrite !pow2_add. fold u.
    assert (pow2 (Zdigits2 m - 1) * pow2 e <= mant m e) as Hle.
    { pose proof (Zdigits2_bounds m Hm) as [Hlow _].
      assert (0 <= Zdigits2 m - 1)%Z
        by (rewrite Zdigits2_log2 by lia; pose proof (Z.log2_nonneg m); lia).
      rewrite pow2_Z by lia. now apply mant_le. }
    nra.
Qed.

(** The value of a finite result of [binary_round_aux] is at most the
    value rounded, grown by the relative error [u] and the absolute error
    [eta]. *)
Lemma round_aux_value_upper (s : bool) (m e : Z) (l : location)
    (s' : bool) (p : positive) (e' : Z) :
  (0 <= m)%Z ->
  ((0 < m)%Z /\ l = loc_Exact) \/ (e <= fexp (Zdigits2 m + e))%Z ->
  binary_round_aux prec emax s m e l = S754_finite s' p e' ->
  mant (Z.pos p) e' <= mant m e * (1 + u) + eta.
Proof.
  intros Hm Hcase Hround.
  destruct (round_aux_upper_Z s m e l s' p e' Hm Hround)
    as (_ & He' & _ & Hup & Hexact).
  pose proof (target_exp_ge m e) as He1.
  pose proof (mant_nonneg m e Hm) as Hx.
  pose proof (pow2_pos (-52)) as Hu. pose proof (pow2_pos (-1074)) as Heta.
  fold u in Hu. fold eta in Heta.
  rewrite (mant_shift (Z.pos p) e e') by lia.
  assert (target_exp m e = e /\ l = loc_Exact
          \/ target_exp m e = fexp (Zdigits2 m + e)) as [[Hno Hl] | Hshift].
  { unfold target_exp in *. destruct Hcase as [[_ Hl] | Hle].
    - destruct (Z.max_spec e (fexp (Zdigits2 m + e))) as [[_ ->] | [_ ->]]; auto.
    - right. apply Z.max_r. exact Hle. }
  - apply (mant_le _ _ e) in Hexact; [| exact Hl | exact Hno]. nra.
  - apply (mant_le _ _ e) in Hup. rewrite mant_plus, mant_pow2 in Hup by lia.
    replace (target_exp m e - e + e)%Z with (target_exp m e) in Hup by lia.
    assert (pow2 (target_exp m e) <= mant m e * u + eta) as Hulp.
    { rewrite Hshift.
      destruct (Z.eq_dec m 0) as [-> | Hnz].
      - destruct Hcase as [[Hpos _] | Hle]; [lia |].
        cbn [Zdigits2] in *. rewrite fexp_eq in *.
        rewrite Z.max_r by lia. fold eta. nra.
      - apply ulp_bound. lia. }
    nra.
Qed.

Local Open Scope Z_scope.

(** ** Alignment and normalisation *)

Lemma iter_xO (d : positive) (m : positive) :
  Z.pos (Pos.iter xO m d) = Z.pos m * 2 ^ Z.pos d.
Proof.
  revert m. induction d as [| d IH] using Pos.peano_ind; intros m.
  - cbn [Pos.iter]. rewrite Pos2Z.inj_xO. change (2 ^ 1)%Z with 2%Z. ring.
  - rewrite Pos.iter_succ, Pos2Z.inj_succ, Z.pow_succ_r by lia.
    rewrite Pos2Z.inj_xO, IH. ring.
Qed.

Lemma shl_align_spec (mx : positive) (ex ex' : Z) :
  snd (shl_align mx ex ex') = Z.min ex ex' /\
  Z.pos (fst (shl_align mx ex ex')) = Z.pos mx * 2 ^ (ex - Z.min ex ex').
Proof.
  unfold shl_align.
  destruct (ex' - ex) as [| d | d] eqn:Hd; cbn [fst snd].
  - rewrite Z.min_l by lia. rewrite Z.sub_diag. split; [reflexivity | simpl; lia].
  - rewrite Z.min_l by lia. rewrite Z.sub_diag. split; [reflexivity | simpl; lia].
  - rewrite Z.min_r by lia. split; [reflexivity |].
    rewrite iter_xO. f_equal. f_equal. lia.
Qed.

Lemma Zdigits2_mul_pow2 (m k : Z) :
  0 < m -> 0 <= k -> Zdigits2 (m * 2 ^ k) = Zdigits2 m + k.
Proof.
  intros Hm Hk.
  assert (0 < 2 ^ k) by (apply Z.pow_pos_nonneg; lia).
  rewrite !Zdigits2_log2 by nia.
  rewrite Z.log2_mul_pow2 by lia. lia.
Qed.

Local Open Scope Q_scope.

(** [binary_round]: rounding a positive mantissa at an exponent. *)
Lemma binary_round_value_upper (s : bool) (mx : positive) (ex : Z)
    (s' : bool) (p : positive) (e' : Z) :
  binary_round prec emax s mx ex = S754_finite s' p e' ->
  s' = s /\ mant (Z.pos p) e' <= mant (Z.pos mx) ex * (1 + u) + eta.
Proof.
  unfold binary_round. intros Hround.
  destruct (shl_align_spec mx ex (fexp (Z.pos (digits2_pos mx) + ex)))
    as [He Hm].
  destruct (shl_align mx ex (fexp (Z.pos (digits2_pos mx) + ex))) as [mz ez].
  cbn [fst snd] in *.
  split.
  - now destruct (round_aux_upper_Z s (Z.pos mz) ez loc_Exact s' p e'
                    ltac:(lia) Hround).
  - assert (mant (Z.pos mz) ez == mant (Z.pos mx) ex) as <-.
    { rewrite Hm, He. symmetry. apply mant_shift. lia. }
    apply (round_aux_value_upper s (Z.pos mz) ez loc_Exact s' p e');
      [lia | left; split; [lia | reflexivity] | exact Hround].
Qed.

Lemma pow2_digits (m e k : Z) :
  (0 < m)%Z -> mant m e < pow2 k -> (Zdigits2 m + e <= k)%Z.
Proof.
  intros Hm Hlt.
  pose proof (Zdigits2_bounds m Hm) as [Hlow _].
  assert (0 <= Zdigits2 m - 1)%Z
    by (rewrite Zdigits2_log2 by lia; pose proof (Z.log2_nonneg m); lia).
  apply (mant_le _ _ e) in Hlow. rewrite mant_pow2 in Hlow by lia.
  assert (pow2 (Zdigits2 m - 1 + e) < pow2 k) as H' by lra.
  apply pow2_lt_inv in H'. lia.
Qed.

Lemma binary_round_finite (s : bool) (mx : positive) (ex : Z) :
  mant (Z.pos mx) ex < pow2 (emax - 1) ->
  match binary_round prec emax s mx ex with
  | S754_zero _ | S754_finite _ _ _ => True
  | _ => False
  end.
Proof.
  intros Hlt. unfold binary_round.
  destruct (shl_align_spec mx ex (fexp (Z.pos (digits2_pos mx) + ex)))
    as [He Hm].
  destruct (shl_align mx ex (fexp (Z.pos (digits2_pos mx) + ex))) as [mz ez].
  cbn [fst snd] in *.
  pose proof (pow2_digits (Z.pos mx) ex (emax - 1) ltac:(lia) Hlt) as Hd.
  apply round_aux_finite; [lia | |].
  - rewrite Hm, He, Zdigits2_mul_pow2 by lia. lia.
  - rewrite He. change (Zdigits2 (Z.pos mx)) with (Z.pos (digits2_pos mx)) in Hd.
    rewrite fexp_eq. unfold emax, prec in *. lia.
Qed.

(** ** The operations on floats that are zero or above *)


Lemma to_Q_mant (p : positive) (e : Z) :
  to_Q (S754_finite false p e) = mant (Z.pos p) e.
Proof. reflexivity. Qed.

Lemma to_Q_nonneg (x : float) : nonneg_finite x -> 0 <= to_Q x.
Proof.
  destruct x as [| | | [] p e]; cbn [nonneg_finite]; try easy; intros _.
  rewrite to_Q_mant. apply mant_nonneg. lia.
Qed.

Lemma u_pos : 0 < u.
Proof. apply pow2_pos. Qed.

Lemma eta_pos : 0 < eta.
Proof. apply pow2_pos. Qed.

Lemma inject_div_le (m e : Z) :
  (0 <= m)%Z -> (e < 0)%Z -> inject_Z (m / 2 ^ (- e)) <= mant m e.
Proof.
  intros Hm He.
  assert (0 < 2 ^ (- e))%Z as Hp by (apply Z.pow_pos_nonneg; lia).
  pose proof (Z.mul_div_le m (2 ^ (- e)) Hp) as Hq.
  assert (inject_Z (m / 2 ^ (- e)) == mant (m / 2 ^ (- e)) 0) as ->
    by (unfold mant; change (pow2 0) with 1; ring).
  rewrite (mant_shift (m / 2 ^ (- e)) e 0) by lia.
  apply mant_le. replace (0 - e)%Z with (- e)%Z by lia. lia.
Qed.

Lemma floor_positive (x : float) (n : Z) :
  floor x = Ret n -> (0 < n)%Z ->
  exists p e, x = S754_finite false p e /\ inject_Z n <= mant (Z.pos p) e.
Proof.
  destruct x as [sx | sx | | sx p e]; cbn [floor]; try discriminate.
  - intros [= <-]. lia.
  - intros [= <-] Hn. destruct sx.
    + exfalso. destruct (0 <=? e)%Z eqn:He.
      * apply Z.leb_le in He. pose proof (Z.pow_nonneg 2 e). nia.
      * apply Z.leb_gt in He.
        assert (0 < 2 ^ (- e))%Z by (apply Z.pow_pos_nonneg; lia).
        assert (Z.neg p / 2 ^ (- e) < 0)%Z; [| lia].
        apply Z.div_lt_upper_bound; lia.
    + exists p, e. split; [reflexivity |].
      destruct (0 <=? e)%Z eqn:He.
      * apply Z.leb_le in He. unfold mant.
        rewrite inject_Z_mult, pow2_Z by lia. lra.
      * apply Z.leb_gt in He. apply inject_div_le; lia.
Qed.

Lemma trunc_nonneg (x : float) :
  nonneg_finite x ->
  exists t, trunc x = Ret t /\ (0 <= t)%Z /\ inject_Z t <= to_Q x.
Proof.
  destruct x as [sx | sx | | [] p e]; cbn [nonneg_finite]; try easy; intros _.
  - exists 0%Z. split; [reflexivity |]. split; [lia | apply Qle_refl].
  - cbn [trunc]. eexists. split; [reflexivity |].
    rewrite to_Q_mant.
    destruct (0 <=? e)%Z eqn:He.
    + apply Z.leb_le in He. pose proof (Z.pow_nonneg 2 e ltac:(lia)).
      split; [nia |]. unfold mant.
      rewrite inject_Z_mult, pow2_Z by lia. lra.
    + apply Z.leb_gt in He.
      assert (0 < 2 ^ (- e))%Z as Hp by (apply Z.pow_pos_nonneg; lia).
      rewrite Z.quot_div_nonneg by lia.
      split; [apply Z.div_pos; lia |]. apply inject_div_le; lia.
Qed.

(** [float(n)] for a positive [n]. *)
Lemma of_int_upper (n : Z) (f : float) :
  (0 < n)%Z -> of_int n = Ret f ->
  nonneg_finite f /\ to_Q f <= inject_Z n * (1 + u) + eta.
Proof.
  intros Hn. unfold of_int.
  destruct n as [| p | p]; try lia. cbn [binary_normalize].
  pose proof (binary_round_shape false p 0) as Hshape.
  destruct (binary_round prec emax false p 0) as [sz | sz | | sz q e] eqn:Hround;
    try discriminate; try contradiction; intros [= <-].
  - cbn. split; [exact I |].
    pose proof u_pos. pose proof eta_pos.
    assert (0 < inject_Z (Z.pos p)) by (change 0 with (inject_Z 0); now rewrite <- Zlt_Qlt).
    nra.
  - destruct (binary_round_value_upper false p 0 sz q e Hround) as [-> Hup].
    split; [exact I |]. rewrite to_Q_mant.
    unfold mant at 2 in Hup. change (pow2 0) with 1 in Hup. lra.
Qed.

Lemma of_int_finite (n : Z) :
  (0 < n)%Z -> inject_Z n < pow2 (emax - 1) -> exists f, of_int n = Ret f.
Proof.
  intros Hn Hlt. unfold of_int.
  destruct n as [| p | p]; try lia. cbn [binary_normalize].
  pose proof (binary_round_finite false p 0) as Hfin.
  assert (mant (Z.pos p) 0 < pow2 (emax - 1)) as Hm
    by (unfold mant; change (pow2 0) with 1; lra).
  specialize (Hfin Hm).
  destruct (binary_round prec emax false p 0); try contradiction; eauto.
Qed.

(** The product of two floats that are zero or above. *)
Lemma fmul_upper (x y : float) :
  nonneg_finite x -> nonneg_finite y -> is_finite (fmul x y) = true ->
  nonneg_finite (fmul x y) /\ to_Q (fmul x y) <= to_Q x * to_Q y * (1 + u) + eta.
Proof.
  pose proof u_pos. pose proof eta_pos.
  destruct x as [sx | sx | | [] mx ex]; cbn [nonneg_finite]; try easy; intros _;
    destruct y as [sy | sy | | [] my ey]; cbn [nonneg_finite]; try easy; intros _.
  all: try (intros _; cbn [fmul SFmul to_Q nonneg_finite]; split; [exact I | lra]).
  unfold fmul. cbn [SFmul xorb].
  pose proof (round_aux_shape false (Z.pos (mx * my)) (ex + ey) loc_Exact
                ltac:(lia)) as Hshape.
  destruct (binary_round_aux prec emax false (Z.pos (mx * my)) (ex + ey) loc_Exact)
    as [sz | sz | | sz q e] eqn:Hround; try discriminate; intros _; subst sz.
  - split; [exact I |]. rewrite !to_Q_mant. cbn [to_Q].
    pose proof (mant_nonneg (Z.pos mx) ex ltac:(lia)) as Hx.
    pose proof (mant_nonneg (Z.pos my) ey ltac:(lia)) as Hy.
    pose proof (Qmult_le_0_compat _ _ Hx Hy). nra.
  - split; [exact I |]. rewrite !to_Q_mant.
      pose proof (round_aux_value_upper false (Z.pos (mx * my)) (ex + ey)
                    loc_Exact false q e ltac:(lia)
                    ltac:(left; split; [lia | reflexivity]) Hround) as Hup.
      assert (mant (Z.pos (mx * my)) (ex + ey)
              == mant (Z.pos mx) ex * mant (Z.pos my) ey) as Hprod.
      { unfold mant. rewrite Pos2Z.inj_mul, inject_Z_mult, pow2_add. ring. }
      rewrite Hprod in Hup. exact Hup.
Qed.

Lemma fmul_finite (mx my : positive) (ex ey : Z) :
  (ex + ey <= emax - prec)%Z ->
  mant (Z.pos mx) ex * mant (Z.pos my) ey < pow2 (emax - 1) ->
  is_finite (fmul (S754_finite false mx ex) (S754_finite false my ey)) = true.
Proof.
  intros He Hlt. unfold fmul. cbn [SFmul xorb].
  assert (mant (Z.pos (mx * my)) (ex + ey)
          == mant (Z.pos mx) ex * mant (Z.pos my) ey) as Hprod.
  { unfold mant. rewrite Pos2Z.inj_mul, inject_Z_mult, pow2_add. ring. }
  rewrite <- Hprod in Hlt.
  pose proof (pow2_digits (Z.pos (mx * my)) (ex + ey) (emax - 1) ltac:(lia) Hlt).
  pose proof (round_aux_finite false (Z.pos (mx * my)) (ex + ey) loc_Exact
                ltac:(lia) ltac:(lia) He) as Hfin.
  destruct (binary_round_aux _ _ _ _ _ _); try contradiction; reflexivity.
Qed.

Local Open Scope Z_scope.

(** ** Division *)

Lemma fexp_mono (a b : Z) : a <= b -> fexp a <= fexp b.
Proof. intros Hab. rewrite !fexp_eq. lia. Qed.

(** The integer quotient the division hands to the rounding: it is below
    the exact quotient by less than one unit, and its exponent is one the
    rounding does not have to lower. *)
Lemma div_core_spec (m1 e1 m2 e2 : Z) :
  0 < m1 -> 0 < m2 ->
  exists (q e' : Z) (l : location),
    SFdiv_core_binary prec emax m1 e1 m2 e2 = (q, e', l) /\
    0 <= q /\
    e' <= e1 - e2 /\
    e' <= fexp (Zdigits2 m1 + e1 - (Zdigits2 m2 + e2)) /\
    e' <= fexp (Zdigits2 q + e') /\
    q * m2 <= m1 * 2 ^ (e1 - e2 - e').
Proof.
  intros Hm1 Hm2. unfold SFdiv_core_binary.
  set (M := Zdigits2 m1 + e1 - (Zdigits2 m2 + e2)).
  set (e' := Z.min (fexp M) (e1 - e2)).
  set (s := e1 - e2 - e').
  assert (0 <= s) as Hs by (unfold s, e'; lia).
  set (m' := match s with Z.pos _ => Z.shiftl m1 s | Z0 => m1 | Z.neg _ => 0 end).
  assert (m' = m1 * 2 ^ s) as Hm'.
  { unfold m'. destruct s as [| ps | ps]; [simpl; lia | | lia].
    now rewrite Z.shiftl_mul_pow2 by lia. }
  assert (0 < 2 ^ s) as Hps by (apply Z.pow_pos_nonneg; lia).
  pose proof (Z_div_mod m' m2 ltac:(lia)) as Hdiv.
  destruct (Z.div_eucl m' m2) as [q r]. destruct Hdiv as [Hdiv Hr].
  exists q, e', (new_location m2 r). split; [reflexivity |].
  assert (0 <= q) as Hq by nia.
  split; [exact Hq |]. split; [unfold e'; lia |]. split; [unfold e'; lia |].
  split; [| change (e1 - e2 - e') with s; rewrite <- Hm'; nia].
  pose proof (Zdigits2_bounds m1 Hm1) as [Hlow1 _].
  pose proof (Zdigits2_bounds m2 Hm2) as [_ Hup2].
  assert (1 <= Zdigits2 m1)
    by (rewrite Zdigits2_log2 by lia; pose proof (Z.log2_nonneg m1); lia).
  assert (1 <= Zdigits2 m2)
    by (rewrite Zdigits2_log2 by lia; pose proof (Z.log2_nonneg m2); lia).
  destruct (Z.eq_dec q 0) as [-> | Hqnz].
  - (* the quotient is zero: deep underflow *)
    cbn [Zdigits2]. rewrite Z.add_0_l.
    assert (m1 * 2 ^ s < m2) as Hsmall by nia.
    assert (Zdigits2 m1 - 1 + s < Zdigits2 m2) as Hd.
    { apply (Z.pow_lt_mono_r_iff 2); [lia | lia |].
      rewrite Z.pow_add_r by lia. nia. }
    assert (M <= e') as HM by (unfold M, s in *; lia).
    assert (e' <= fexp M) by (unfold e'; lia).
    rewrite fexp_eq in *. lia.
  - assert (Zdigits2 m1 + s - Zdigits2 m2 <= Zdigits2 q) as Hdq.
    { rewrite (Zdigits2_log2 q) by lia.
      destruct (Z_le_gt_dec (Zdigits2 m1 + s - Zdigits2 m2 - 1) 0) as [Hk | Hk].
      - pose proof (Z.log2_nonneg q). lia.
      - assert (Zdigits2 m1 + s - Zdigits2 m2 - 1 <= Z.log2 q); [| lia].
        apply Z.log2_le_pow2; [lia |].
        set (k := Zdigits2 m1 + s - Zdigits2 m2 - 1) in *.
        assert (2 ^ k * 2 ^ Zdigits2 m2 <= m1 * 2 ^ s) as Hbig.
        { rewrite <- Z.pow_add_r by lia.
          replace (k + Zdigits2 m2) with ((Zdigits2 m1 - 1) + s) by (unfold k; lia).
          rewrite Z.pow_add_r by lia. nia. }
        assert (0 < 2 ^ k) by (apply Z.pow_pos_nonneg; lia).
        nia. }
    assert (M <= Zdigits2 q + e') as HM by (unfold M, s in *; lia).
    apply fexp_mono in HM. unfold e' at 1. lia.
Qed.

Local Open Scope Q_scope.

Lemma div_core_value (m1 e1 m2 e2 q e' : Z) :
  (e' <= e1 - e2)%Z ->
  (q * m2 <= m1 * 2 ^ (e1 - e2 - e'))%Z ->
  mant q e' * mant m2 e2 <= mant m1 e1.
Proof.
  intros He Hq.
  replace (e1 - e2 - e')%Z with (e1 - (e' + e2))%Z in Hq by lia.
  apply (mant_le _ _ (e' + e2)) in Hq.
  rewrite <- (mant_shift m1 (e' + e2) e1) in Hq by lia.
  assert (mant (q * m2) (e' + e2) == mant q e' * mant m2 e2) as <-; [| exact Hq].
  unfold mant. rewrite inject_Z_mult, pow2_add. ring.
Qed.

(** A positive finite quotient by a positive finite divisor: the dividend
    is positive and finite, and the quotient times the divisor is at most
    the dividend, grown by the rounding errors. *)
Lemma fdiv_positive (x : float) (my : positive) (ey : Z) (p : positive) (e : Z) :
  fdiv x (S754_finite false my ey) = S754_finite false p e ->
  exists mx ex,
    x = S754_finite false mx ex /\
    mant (Z.pos p) e * mant (Z.pos my) ey
    <= mant (Z.pos mx) ex * (1 + u) + eta * mant (Z.pos my) ey.
Proof.
  unfold fdiv. destruct x as [sx | sx | | sx mx ex]; cbn [SFdiv]; try discriminate.
  destruct (div_core_spec (Z.pos mx) ex (Z.pos my) ey ltac:(lia) ltac:(lia))
    as (q & e' & l & Hcore & Hq & He' & _ & Hfexp & Hquot).
  rewrite Hcore. intros Hround.
  pose proof (round_aux_shape (xorb sx false) q e' l Hq) as Hshape.
  rewrite Hround in Hshape. destruct sx; [discriminate |].
  exists mx, ex. split; [reflexivity |].
  pose proof (round_aux_value_upper _ q e' l _ p e Hq (or_intror Hfexp) Hround)
    as Hup.
  pose proof (div_core_value _ _ _ _ _ _ He' Hquot) as Hval.
  pose proof (mant_nonneg (Z.pos my) ey ltac:(lia)) as Hy.
  pose proof (mant_nonneg q e' Hq) as Hqv.
  pose proof u_pos. pose proof eta_pos.
  nra.
Qed.

(** ** Subtraction from a positive float *)


Lemma shl_align_value (mx : positive) (ex ez : Z) :
  (ez <= ex)%Z ->
  mant (Z.pos (fst (shl_align mx ex ez))) ez == mant (Z.pos mx) ex.
Proof.
  intros He. destruct (shl_align_spec mx ex ez) as [_ Hm].
  rewrite Hm, Z.min_r by lia. symmetry. apply mant_shift. exact He.
Qed.

Lemma fsub_positive (mb : positive) (eb : Z) (y : float)
    (p : positive) (e : Z) :
  not_below_zero y ->
  fsub (S754_finite false mb eb) y = S754_finite false p e ->
  mant (Z.pos p) e <= mant (Z.pos mb) eb * (1 + u) + eta.
Proof.
  pose proof u_pos. pose proof eta_pos.
  pose proof (mant_nonneg (Z.pos mb) eb ltac:(lia)) as Hb.
  unfold fsub.
  destruct y as [sy | [] | | [] my ey]; cbn [not_below_zero SFsub];
    try easy; intros _.
  - intros [= <- <-]. nra.
  - cbn [cond_Zopp].
    set (ez := Z.min eb ey).
    pose proof (shl_align_value mb eb ez ltac:(unfold ez; lia)) as Hvb.
    set (mb' := fst (shl_align mb eb ez)) in *.
    set (my' := fst (shl_align my ey ez)) in *.
    destruct (Z.pos mb' - Z.pos my')%Z as [| d | d] eqn:Hd;
      cbn [binary_normalize]; try discriminate.
    + intros Hround.
      destruct (binary_round_value_upper false d ez false p e Hround) as [_ Hup].
      assert (mant (Z.pos d) ez <= mant (Z.pos mb') ez) as Hle
        by (apply mant_le; lia).
      rewrite Hvb in Hle. nra.
    + intros Hround.
      pose proof (binary_round_shape true d ez) as Hshape.
      rewrite Hround in Hshape. discriminate.
Qed.

Lemma fmul_not_below_zero (mx : positive) (ex : Z) (y : float) :
  ltb zero y = true -> not_below_zero (fmul (S754_finite false mx ex) y).
Proof.
  unfold ltb, SFltb, zero, fmul.
  destruct y as [sy | [] | | [] my ey]; cbn [SFcompare SFmul xorb]; try discriminate;
    intros _; try exact I.
  pose proof (round_aux_shape false (Z.pos (mx * my)) (ex + ey) loc_Exact
                ltac:(lia)) as Hshape.
  destruct (binary_round_aux _ _ _ _ _ _) as [s | s | | s q e];
    try contradiction; subst s; exact I.
Qed.

(** ** Numbers *)

Lemma u_small : u <= 1 # 1000000.
Proof. vm_compute. discriminate. Qed.

Lemma eta_small : eta <= 1 # 1000000.
Proof.
  apply Qle_trans with (pow2 (-50)); [apply pow2_le; lia |].
  vm_compute. discriminate.
Qed.

(** A binary64 number is below [2 ^ 1024]. *)
Lemma valid_binary_below (m : positive) (e : Z) :
  valid_binary prec emax (S754_finite false m e) = true ->
  mant (Z.pos m) e < pow2 emax.
Proof.
  cbn [valid_binary]. unfold bounded, canonical_mantissa.
  intros Hb. apply andb_true_iff in Hb. destruct Hb as [Hc He].
  apply Z.eqb_eq in Hc. apply Z.leb_le in He.
  rewrite fexp_eq in Hc. unfold emax, prec in *.
  pose proof (Zdigits2_bounds (Z.pos m) ltac:(lia)) as [_ Hup].
  change (Zdigits2 (Z.pos m)) with (Z.pos (digits2_pos m)) in Hup.
  assert (Z.pos m < 2 ^ 53)%Z as Hm.
  { eapply Z.lt_le_trans; [exact Hup |]. apply Z.pow_le_mono_r; lia. }
  apply Qlt_le_trans with (mant (2 ^ 53) e).
  - unfold mant. rewrite Zlt_Qlt in Hm. pose proof (pow2_pos e). nra.
  - rewrite mant_pow2 by lia. apply pow2_le. lia.
Qed.

Lemma eta_times_below (x : Q) :
  0 <= x -> x < pow2 emax -> eta * x <= 1 # 1000000.
Proof.
  intros Hx Hlt.
  assert (eta * pow2 emax <= 1 # 1000000) as Hprod.
  { unfold eta. rewrite <- pow2_add. vm_compute. discriminate. }
  pose proof eta_pos. nra.
Qed.

Lemma mul_le_l (x y z : Q) : 0 <= z -> x <= y -> z * x <= z * y.
Proof.
  intros Hz Hxy. rewrite (Qmult_comm z x), (Qmult_comm z y).
  now apply Qmult_le_compat_r.
Qed.

(** The relative error on a value that is bounded. *)
Lemma grow_rel (x c : Q) :
  0 <= x -> x <= c -> x * (1 + u) <= c * (1000001 # 1000000).
Proof.
  intros Hx Hc. pose proof u_pos as Hu0. pose proof u_small as Hu.
  apply Qle_trans with (c * (1 + u)).
  - apply Qmult_le_compat_r; lra.
  - assert (0 <= c) as Hc0 by lra.
    assert (c * u <= c * (1 # 1000000)) as H by (apply mul_le_l; lra).
    lra.
Qed.

Lemma grow_bound (x c : Q) :
  0 <= x -> x <= c ->
  x * (1 + u) + eta <= c * (1000001 # 1000000) + (1 # 1000000).
Proof.
  intros Hx Hc. pose proof (grow_rel x c Hx Hc). pose proof eta_small. lra.
Qed.

Lemma mul_le_bounds (a b A B : Q) :
  0 <= a -> a <= A -> 0 <= b -> b <= B -> a * b <= A * B.
Proof.
  intros Ha HaA Hb HbB. apply Qmult_le_compat_nonneg; split; assumption.
Qed.

(** ** The planner's upper bound *)

Lemma thousand_value :
  exists m e, float_of 1000 = S754_finite false m e /\ mant (Z.pos m) e == 1000.
Proof.
  eexists _, _. split; [vm_compute; reflexivity |]. vm_compute. reflexivity.
Qed.

Lemma audio_rate_value :
  exists m e, float_of AUDIO_BITRATE = S754_finite false m e.
Proof. eexists _, _. vm_compute. reflexivity. Qed.

Lemma budget_bits_value :
  mant 8736983277098762 (-27) <= 65095599.
Proof. vm_compute. discriminate. Qed.

(** Above the floor the planned bitrate, times the duration, is below the
    bit budget. *)
Lemma planned_bitrate_below_budget (info : VideoInfo) (r : Z) :
  valid_binary prec emax (duration info) = true ->
  ltb zero (duration info) = true ->
  calculate_target_bitrate info = Ret r ->
  (MIN_VIDEO_BITRATE <= r)%Z /\
  ((MIN_VIDEO_BITRATE < r)%Z ->
   inject_Z r * to_Q (duration info) < inject_Z TARGET_BITS).
Proof.
  intros Hvalid Hpos Hplan.
  split; [now apply calculate_target_bitrate_floor in Hplan |].
  intros Habove.
  rewrite calculate_target_bitrate_eq in Hplan. cbv zeta in Hplan.
  destruct (is_zero (duration info)); [discriminate |].
  destruct (floor _) as [floored |] eqn:Hfloor; cbn [bind] in Hplan;
    [| discriminate].
  injection Hplan as <-.
  assert (MIN_VIDEO_BITRATE < floored * 1000)%Z as Hbig by lia.
  rewrite Z.max_r by lia.
  assert (0 < floored)%Z as Hfl by (unfold MIN_VIDEO_BITRATE in Hbig; lia).
  destruct (floor_positive _ _ Hfloor Hfl) as (p2 & e2 & Hq2 & Hn).
  destruct thousand_value as (mk & ek & Hk & Hkv). rewrite Hk in Hq2.
  destruct (fdiv_positive _ _ _ _ _ Hq2) as (p1 & e1 & Hq1 & Hb2).
  rewrite Hkv in Hb2.
  set (audio_bits := if has_audio info
                     then fmul (float_of AUDIO_BITRATE) (duration info)
                     else zero) in *.
  assert (not_below_zero audio_bits) as Haudio.
  { unfold audio_bits. destruct (has_audio info); [| exact I].
    destruct audio_rate_value as (ma & ea & ->).
    now apply fmul_not_below_zero. }
  destruct (duration info) as [sd | sd | | sd md ed] eqn:Hd;
    try discriminate.
  { (* an infinite duration gives no positive quotient *)
    unfold fdiv in Hq1.
    destruct (fsub budget_bits audio_bits) as [? | ? | | ? ? ?];
      cbn [SFdiv] in Hq1; discriminate. }
  destruct sd; [discriminate |].
  destruct (fdiv_positive _ _ _ _ _ Hq1) as (pa & ea & Hqa & Hb1).
  pose proof (fsub_positive _ _ _ _ _ Haudio Hqa) as Hba.
  pose proof (valid_binary_below md ed Hvalid) as Hdlt.
  rewrite to_Q_mant.
  pose proof (mant_nonneg (Z.pos md) ed ltac:(lia)) as HD.
  pose proof (mant_nonneg (Z.pos pa) ea ltac:(lia)) as HA.
  pose proof (mant_nonneg (Z.pos p1) e1 ltac:(lia)) as H1.
  pose proof (mant_nonneg (Z.pos p2) e2 ltac:(lia)) as H2.
  pose proof (eta_times_below _ HD Hdlt) as HetaD.
  pose proof u_small as Hu. pose proof eta_small as Heta.
  pose proof u_pos as Hu0. pose proof eta_pos as Heta0.
  pose proof budget_bits_value as HB.
  set (D := mant (Z.pos md) ed) in *.
  set (A := mant (Z.pos pa) ea) in *.
  set (Q1 := mant (Z.pos p1) e1) in *.
  set (Q2 := mant (Z.pos p2) e2) in *.
  set (B := mant 8736983277098762 (-27)) in *.
  rewrite inject_Z_mult. change (inject_Z 1000) with 1000.
  change (inject_Z TARGET_BITS) with 67108864.
  assert (A <= 65095700) as HA' by nra.
  assert (Q1 * D <= 65095800) as HQ1 by nra.
  assert (Q2 * 1000 * D <= 65095900) as HQ2 by nra.
  nra.
Qed.

(** ** The corrective bitrate *)

(** The exponent of a positive float below two is not above zero. *)
Lemma small_value_exponent (p : positive) (e : Z) :
  mant (Z.pos p) e < 2 -> (e <= 0)%Z.
Proof.
  intros Hlt.
  assert (pow2 e <= mant (Z.pos p) e) as Hle.
  { unfold mant. pose proof (pow2_pos e).
    assert (1 <= inject_Z (Z.pos p))
      by (change 1 with (inject_Z 1); rewrite <- Zle_Qle; lia).
    nra. }
  assert (pow2 e < pow2 1) as H by (change (pow2 1) with 2; lra).
  apply pow2_lt_inv in H. lia.
Qed.

(** [a / b] for [0 < a < b]: a float that is zero or above and, times [b],
    at most [a] grown by the rounding errors. *)
Lemma int_truediv_below_one (a b : Z) :
  (0 < a < b)%Z ->
  exists f, int_truediv a b = Ret f /\ nonneg_finite f /\
            to_Q f < 1 + u + eta.
Proof.
  intros Hab. unfold int_truediv.
  destruct (Z.eqb_spec b 0) as [-> | _]; [lia |].
  destruct (Z.eqb_spec a 0) as [-> | _]; [lia |].
  assert ((a <? 0)%Z = false) as -> by (apply Z.ltb_ge; lia).
  assert ((b <? 0)%Z = false) as -> by (apply Z.ltb_ge; lia).
  rewrite !Z.abs_eq by lia. cbn [xorb].
  destruct (div_core_spec a 0 b 0 ltac:(lia) ltac:(lia))
    as (q & e' & l & Hcore & Hq & He' & HeM & Hfexp & Hquot).
  rewrite Hcore.
  pose proof (div_core_value _ _ _ _ _ _ He' Hquot) as Hval.
  unfold mant at 2 3 in Hval. change (pow2 0) with 1 in Hval.
  assert (0 < inject_Z a) as Ha by (change 0 with (inject_Z 0); rewrite <- Zlt_Qlt; lia).
  assert (inject_Z a < inject_Z b) as Hlt by (rewrite <- Zlt_Qlt; lia).
  pose proof (mant_nonneg q e' Hq) as Hqv.
  assert (mant q e' < 1) as Hq1 by nra.
  pose proof (round_aux_shape false q e' l Hq) as Hshape.
  pose proof (round_aux_finite false q e' l Hq) as Hfin.
  assert (Zdigits2 q + e' <= emax - 1)%Z as Hmag.
  { destruct (Z.eq_dec q 0) as [-> | Hnz].
    - cbn [Zdigits2]. rewrite !Z.add_0_r in HeM. rewrite fexp_eq in HeM.
      pose proof (Zdigits2_log2 a ltac:(lia)). pose proof (Zdigits2_log2 b ltac:(lia)).
      pose proof (Z.log2_le_mono a b ltac:(lia)). unfold emax. lia.
    - assert (mant q e' < pow2 0) as H0 by (change (pow2 0) with 1; exact Hq1).
      apply pow2_digits in H0; [| lia]. unfold emax. lia. }
  assert (e' <= emax - prec)%Z as Hexp.
  { rewrite !Z.add_0_r in HeM. rewrite fexp_eq in HeM.
    pose proof (Zdigits2_log2 a ltac:(lia)). pose proof (Zdigits2_log2 b ltac:(lia)).
    pose proof (Z.log2_le_mono a b ltac:(lia)). unfold emax, prec. lia. }
  specialize (Hfin Hmag Hexp).
  destruct (binary_round_aux prec emax false q e' l) as [s | s | | s p e] eqn:Hround;
    try contradiction; subst s.
  - eexists. split; [reflexivity |]. split; [exact I |].
    cbn [to_Q]. pose proof u_pos. pose proof eta_pos. lra.
  - eexists. split; [reflexivity |]. split; [exact I |].
    rewrite to_Q_mant.
    pose proof (round_aux_value_upper _ q e' l _ p e Hq (or_intror Hfexp) Hround)
      as Hup.
    pose proof u_pos. pose proof eta_pos. nra.
Qed.

Lemma lit_0_95_value : to_Q lit_0_95 <= 95 # 100.
Proof. vm_compute. discriminate. Qed.

Lemma lit_1_5_value : to_Q lit_1_5 == 3 # 2.
Proof. vm_compute. reflexivity. Qed.


Lemma of_int_exponent (n : Z) (f : float) :
  of_int n = Ret f -> exponent_in_range f.
Proof.
  unfold of_int. destruct n as [| p | p]; cbn [binary_normalize].
  - now intros [= <-].
  - unfold binary_round. destruct (shl_align _ _ _) as [mz ez].
    destruct (binary_round_aux prec emax false (Z.pos mz) ez loc_Exact)
      as [s | s | | s q e] eqn:Hround; try discriminate; intros [= <-]; try exact I.
    apply round_aux_upper_Z in Hround; [| lia]. now destruct Hround as (_ & _ & He & _).
  - unfold binary_round. destruct (shl_align _ _ _) as [mz ez].
    destruct (binary_round_aux prec emax true (Z.pos mz) ez loc_Exact)
      as [s | s | | s q e] eqn:Hround; try discriminate; intros [= <-]; try exact I.
    apply round_aux_upper_Z in Hround; [| lia]. now destruct Hround as (_ & _ & He & _).
Qed.

(** A product of floats that are zero or above is finite when the exact
    product is below [2 ^ 1023] and the second factor is below two. *)
Lemma fmul_finite_small (x y : float) :
  nonneg_finite x -> nonneg_finite y ->
  exponent_in_range x -> to_Q y < 2 ->
  to_Q x * to_Q y < pow2 (emax - 1) ->
  is_finite (fmul x y) = true.
Proof.
  destruct x as [sx | sx | | [] mx ex]; cbn [nonneg_finite]; try easy; intros _;
    destruct y as [sy | sy | | [] my ey]; cbn [nonneg_finite]; try easy; intros _;
    try reflexivity.
  cbn [exponent_in_range]. rewrite !to_Q_mant. intros Hex Hy Hprod.
  apply small_value_exponent in Hy.
  apply fmul_finite; [lia | exact Hprod].
Qed.

(** Above the floor, and as long as no float overflows, the corrective
    bitrate of an over-budget output is strictly below the current one. *)
Lemma corrective_bitrate_decreases (video_bitrate out_size : Z) :
  (MIN_VIDEO_BITRATE < video_bitrate)%Z ->
  (video_bitrate < 2 ^ 1022)%Z ->
  (TARGET_BYTES < out_size)%Z ->
  exists ratio scale_factor current scaled t,
    int_truediv TARGET_BYTES out_size = Ret ratio /\
    scale_factor = fmul ratio lit_0_95 /\
    of_int video_bitrate = Ret current /\
    scaled = fmul current scale_factor /\
    trunc scaled = Ret t /\
    corrective_bitrate video_bitrate out_size = Ret (Z.max MIN_VIDEO_BITRATE t) /\
    inject_Z t <= inject_Z video_bitrate * (97 # 100) /\
    (MIN_VIDEO_BITRATE <= Z.max MIN_VIDEO_BITRATE t < video_bitrate)%Z.
Proof.
  intros Hmin Hmax Hover.
  pose proof u_pos as Hu0. pose proof eta_pos as He0.
  pose proof u_small as Hu. pose proof eta_small as He.
  assert (80000 < inject_Z video_bitrate) as Hcur.
  { change 80000 with (inject_Z MIN_VIDEO_BITRATE). now rewrite <- Zlt_Qlt. }
  assert (inject_Z video_bitrate < pow2 1022) as Hcur'.
  { rewrite pow2_Z by lia. now rewrite <- Zlt_Qlt. }
  assert (pow2 1022 * 2 == pow2 (emax - 1)) as Hdouble.
  { change (pow2 1022 * pow2 1 == pow2 (1022 + 1)). now rewrite pow2_add. }
  (* the ratio *)
  destruct (int_truediv_below_one TARGET_BYTES out_size)
    as (ratio & Hratio & Hrn & Hrv); [unfold TARGET_BYTES in *; lia |].
  pose proof (to_Q_nonneg ratio Hrn) as Hr0.
  (* the scale factor *)
  pose proof lit_0_95_value as H95.
  assert (0 <= to_Q lit_0_95) as H95' by (vm_compute; discriminate).
  assert (is_finite (fmul ratio lit_0_95) = true) as Hsf_fin.
  { apply fmul_finite_small; try exact Hrn; try exact I.
    - destruct ratio as [| | | [] p e]; try exact I; try contradiction.
      rewrite to_Q_mant in Hrv. cbn [exponent_in_range].
      assert (mant (Z.pos p) e < 2) as H2 by lra.
      apply small_value_exponent in H2. unfold emax, prec. lia.
    - lra.
    - apply Qlt_le_trans with 2; [nra |].
      change 2 with (pow2 1). apply pow2_le. unfold emax. lia. }
  destruct (fmul_upper ratio lit_0_95 Hrn I Hsf_fin) as [Hsn Hsv].
  set (scale_factor := fmul ratio lit_0_95) in *.
  pose proof (to_Q_nonneg scale_factor Hsn) as Hs0.
  assert (to_Q ratio * to_Q lit_0_95 <= 951 # 1000) as Hrl.
  { pose proof (mul_le_bounds _ _ (1000002 # 1000000) (95 # 100)
                  Hr0 ltac:(lra) H95' H95) as Hmul.
    lra. }
  assert (0 <= to_Q ratio * to_Q lit_0_95) as Hrl0
    by (now apply Qmult_le_0_compat).
  assert (to_Q scale_factor <= 96 # 100) as Hs96.
  { pose proof (grow_bound _ _ Hrl0 Hrl). lra. }
  (* the current bitrate as a float *)
  destruct (of_int_finite video_bitrate) as (current & Hcurrent);
    [unfold MIN_VIDEO_BITRATE in *; lia | |].
  { apply Qlt_le_trans with (pow2 1022); [exact Hcur' |].
    apply pow2_le. unfold emax. lia. }
  destruct (of_int_upper video_bitrate current) as [Hcn Hcv];
    [unfold MIN_VIDEO_BITRATE in *; lia | exact Hcurrent |].
  pose proof (of_int_exponent _ _ Hcurrent) as Hce.
  pose proof (to_Q_nonneg current Hcn) as Hc0.
  (* the product *)
  assert (is_finite (fmul current scale_factor) = true) as Hp_fin.
  { apply fmul_finite_small; try assumption; [lra |].
    rewrite <- Hdouble.
    pose proof (mul_le_l _ _ _ Hc0 Hs96) as Hle.
    pose proof (grow_bound (inject_Z video_bitrate) (inject_Z video_bitrate)
                  ltac:(lra) ltac:(lra)).
    lra. }
  destruct (fmul_upper current scale_factor Hcn Hsn Hp_fin) as [Hpn Hpv].
  destruct (trunc_nonneg _ Hpn) as (t & Ht & Ht0 & Htv).
  exists ratio, scale_factor, current, (fmul current scale_factor), t.
  assert (to_Q current <= inject_Z video_bitrate * (1000001 # 1000000) + (1 # 1000000))
    as Hc1.
  { pose proof (grow_bound (inject_Z video_bitrate) (inject_Z video_bitrate)
                  ltac:(lra) ltac:(lra)). lra. }
  assert (to_Q current * to_Q scale_factor <= to_Q current * (96 # 100)) as Hcs
    by (now apply mul_le_l).
  assert (0 <= to_Q current * to_Q scale_factor) as Hcs0
    by (now apply Qmult_le_0_compat).
  assert (to_Q (fmul current scale_factor)
          <= to_Q current * (96 # 100) * (1000001 # 1000000) + (1 # 1000000))
    as Hp1.
  { pose proof (grow_bound _ _ Hcs0 Hcs). lra. }
  assert (inject_Z t <= inject_Z video_bitrate * (97 # 100)) as Hbound by lra.
  assert (t < video_bitrate)%Z as Hlt.
  { rewrite Zlt_Qlt. nra. }
  repeat split; try assumption; try reflexivity; try lia.
  unfold corrective_bitrate, num_truediv, num_mul.
  rewrite Hratio. cbn [bind as_float]. rewrite Hcurrent. cbn [bind int_of].
  fold scale_factor. rewrite Ht. reflexivity.
Qed.

Local Open Scope Z_scope.


Lemma scale_after_10_MiB_eq :
  exists ratio, int_truediv TARGET_BYTES (10 * MiB) = Ret ratio /\
                fmul ratio lit_0_95 = scale_after_10_MiB.
Proof. eexists. split; vm_compute; reflexivity. Qed.

(** Building the command line succeeds below [2 ^ 1022]. *)
Lemma maxrate_computed (video_bitrate : Z) :
  0 < video_bitrate < 2 ^ 1022 ->
  exists maxrate,
    (x <- num_mul (Int video_bitrate) (Float lit_1_5) ;; int_of x)%py = Ret maxrate.
Proof.
  intros [Hpos Hmax].
  pose proof u_pos as Hu0. pose proof eta_pos as He0.
  pose proof u_small as Hu. pose proof eta_small as He.
  assert (0 < inject_Z video_bitrate)%Q as Hcur
    by (change 0%Q with (inject_Z 0); now rewrite <- Zlt_Qlt).
  assert (inject_Z video_bitrate + 1 <= pow2 1022)%Q as Hcur'.
  { rewrite pow2_Z by lia. change 1%Q with (inject_Z 1).
    rewrite <- inject_Z_plus, <- Zle_Qle. lia. }
  assert (pow2 1022 * 2 == pow2 (emax - 1))%Q as Hdouble.
  { change (pow2 1022 * pow2 1 == pow2 (1022 + 1))%Q. now rewrite pow2_add. }
  destruct (of_int_finite video_bitrate Hpos) as (current & Hcurrent).
  { apply Qlt_le_trans with (pow2 1022); [lra |]. apply pow2_le. unfold emax. lia. }
  destruct (of_int_upper video_bitrate current Hpos Hcurrent) as [Hcn Hcv].
  pose proof (of_int_exponent _ _ Hcurrent) as Hce.
  pose proof (to_Q_nonneg current Hcn) as Hc0.
  pose proof lit_1_5_value as H15.
  assert (is_finite (fmul current lit_1_5) = true) as Hfin.
  { apply fmul_finite_small;
      [exact Hcn | exact I | exact Hce | rewrite H15; reflexivity
      | rewrite H15, <- Hdouble; nra]. }
  destruct (fmul_upper current lit_1_5 Hcn I Hfin) as [Hpn _].
  destruct (trunc_nonneg _ Hpn) as (t & Ht & _).
  exists t. unfold num_mul. cbn [as_float bind]. rewrite Hcurrent.
  cbn [bind int_of]. exact Ht.
Qed.

(** C5, as the code has it: from any bitrate above the floor (and below
    [2 ^ 1022], where the float arithmetic cannot overflow), a first
    attempt that leaves a 10 MiB file sets the bitrate to the larger of
    [MIN_VIDEO_BITRATE] and the truncated binary64 product of the current
    bitrate and [(8/10) * 0.95]; the new bitrate is strictly below the
    current one, and the loop goes on to the next attempt with it. *)
Theorem ten_MiB_first_attempt (w : World) (base_cmd : list string)
    (input_path output_path : string) (rest : list Z)
    (video_bitrate : Z) (s : option num) :
  MIN_VIDEO_BITRATE < video_bitrate ->
  video_bitrate < 2 ^ 1022 ->
  encode_returncode w 1 = Ret 0 ->
  output_exists w 1 = true ->
  output_size w 1 = 10 * MiB ->
  exists (current : float) (t : Z) (size_mb : num),
    of_int video_bitrate = Ret current /\
    trunc (fmul current scale_after_10_MiB) = Ret t /\
    (inject_Z t <= inject_Z video_bitrate * (97 # 100))%Q /\
    MIN_VIDEO_BITRATE <= Z.max MIN_VIDEO_BITRATE t < video_bitrate /\
    snd (attempt_body w base_cmd input_path output_path 1 video_bitrate)
      = Ret (Next (Z.max MIN_VIDEO_BITRATE t) size_mb) /\
    encode_bitrates
      (fst (attempt_body w base_cmd input_path output_path 1 video_bitrate))
      = [video_bitrate] /\
    snd (attempts_loop w base_cmd input_path output_path (1 :: rest) video_bitrate s)
      = snd (attempts_loop w base_cmd input_path output_path rest
               (Z.max MIN_VIDEO_BITRATE t) (Some size_mb)).
Proof.
  intros Hmin Hmax Hrc Hexists Hsize.
  destruct (corrective_bitrate_decreases video_bitrate (10 * MiB) Hmin Hmax
              ltac:(reflexivity))
    as (ratio & sf & current & scaled & t & Hratio & -> & Hcurrent & -> & Ht
        & Hcorr & Hbound & Hlt).
  destruct scale_after_10_MiB_eq as (ratio' & Hratio' & Hscale).
  rewrite Hratio' in Hratio. injection Hratio as <-. rewrite Hscale in *.
  destruct (maxrate_computed video_bitrate) as (maxrate & Hmaxrate);
    [unfold MIN_VIDEO_BITRATE in *; lia |].
  assert (num_truediv (Int (10 * MiB)) (Int (1024 * 1024))
          = Ret (Float (float_of 10))) as Hmb by (vm_compute; reflexivity).
  exists current, t, (Float (float_of 10)).
  assert (attempt_body w base_cmd input_path output_path 1 video_bitrate
          = ([EvRunEncode 1 video_bitrate
                (base_cmd ++
                 [ "-b:v"; str video_bitrate; "-maxrate"; str maxrate;
                   "-bufsize"; str (video_bitrate * 2);
                   "-movflags"; "+faststart"; output_path ])
                ("Pass " ++ str 1)%string;
              EvSleep],
             Ret (Next (Z.max MIN_VIDEO_BITRATE t) (Float (float_of 10)))))
    as Hbody.
  { unfold attempt_body. rewrite Hmaxrate. io_unfold.
    cbn [num_mul bind int_of]. rewrite Hrc, Hexists, Hsize, Hmb, Hcorr.
    assert ((Z.max MIN_VIDEO_BITRATE t >=? video_bitrate) = false) as ->
      by (rewrite Z.geb_leb; apply Z.leb_gt; lia).
    reflexivity. }
  repeat split; try assumption; try lia.
  - now rewrite Hbody.
  - now rewrite Hbody.
  - cbn [attempts_loop]. rewrite Hbody. unfold io_bind.
    now destruct (attempts_loop w base_cmd input_path output_path rest _ _).
Qed.

(** ** Totality of the planner *)

Local Open Scope Q_scope.

Lemma magnitude_nonneg (x : float) : 0 <= magnitude x.
Proof.
  destruct x; cbn [magnitude]; try apply Qle_refl. apply mant_nonneg. lia.
Qed.

Lemma mant_lt (a b e : Z) : (a < b)%Z -> mant a e < mant b e.
Proof.
  intros Hab. unfold mant. rewrite Zlt_Qlt in Hab.
  pose proof (pow2_pos e). nra.
Qed.

Lemma mant_digits (m e : Z) :
  (0 < m)%Z ->
  pow2 (Zdigits2 m - 1 + e) <= mant m e /\ mant m e < pow2 (Zdigits2 m + e).
Proof.
  intros Hm. pose proof (Zdigits2_bounds m Hm) as [Hlow Hup].
  assert (0 <= Zdigits2 m - 1)%Z
    by (rewrite Zdigits2_log2 by lia; pose proof (Z.log2_nonneg m); lia).
  split.
  - rewrite <- mant_pow2 by lia. now apply mant_le.
  - rewrite <- mant_pow2 by lia. now apply mant_lt.
Qed.

(** A quotient by a positive finite divisor is finite when the exact
    quotient is below [2 ^ 1023], and then no larger than the exact one
    grown by the rounding errors. *)
Lemma fdiv_finite (x : float) (my : positive) (ey : Z) :
  is_finite x = true ->
  magnitude x < pow2 (emax - 1) * mant (Z.pos my) ey ->
  is_finite (fdiv x (S754_finite false my ey)) = true /\
  magnitude (fdiv x (S754_finite false my ey)) * mant (Z.pos my) ey
  <= magnitude x * (1 + u) + eta * mant (Z.pos my) ey.
Proof.
  pose proof u_pos as Hu0. pose proof eta_pos as He0.
  pose proof (mant_nonneg (Z.pos my) ey ltac:(lia)) as Hy.
  unfold fdiv. destruct x as [sx | sx | | sx mx ex]; cbn [SFdiv is_finite];
    try discriminate; intros _.
  - intros _. cbn [is_finite magnitude]. split; [reflexivity | nra].
  - cbn [magnitude]. intros Hlt.
    destruct (div_core_spec (Z.pos mx) ex (Z.pos my) ey ltac:(lia) ltac:(lia))
      as (q & e' & l & Hcore & Hq & He' & HeM & Hfexp & Hquot).
    rewrite Hcore.
    pose proof (div_core_value _ _ _ _ _ _ He' Hquot) as Hval.
    pose proof (mant_digits (Z.pos mx) ex ltac:(lia)) as [Hxlow _].
    pose proof (mant_digits (Z.pos my) ey ltac:(lia)) as [_ Hyup].
    assert (0 < mant (Z.pos my) ey) as Hy0.
    { unfold mant. pose proof (pow2_pos ey).
      assert (0 < inject_Z (Z.pos my))
        by (change 0 with (inject_Z 0); rewrite <- Zlt_Qlt; lia).
      nra. }
    assert (e' <= emax - prec)%Z as Hexp.
    { assert (pow2 (Zdigits2 (Z.pos mx) - 1 + ex)
              < pow2 (emax - 1 + (Zdigits2 (Z.pos my) + ey))) as Hp.
      { rewrite (pow2_add (emax - 1)).
        pose proof (pow2_pos (emax - 1)). nra. }
      apply pow2_lt_inv in Hp. rewrite fexp_eq in HeM.
      unfold emax, prec in *. lia. }
    assert (Zdigits2 q + e' <= emax - 1)%Z as Hmag.
    { destruct (Z.eq_dec q 0) as [-> | Hnz].
      - cbn [Zdigits2]. unfold emax, prec in *. lia.
      - apply pow2_digits; [lia |].
        pose proof (mant_nonneg q e' Hq).
        pose proof (pow2_pos (emax - 1)). nra. }
    pose proof (round_aux_finite (xorb sx false) q e' l Hq Hmag Hexp) as Hfin.
    pose proof (mant_nonneg q e' Hq) as Hqv.
    pose proof (mant_nonneg (Z.pos mx) ex ltac:(lia)) as Hx.
    destruct (binary_round_aux prec emax (xorb sx false) q e' l)
      as [s | s | | s p e] eqn:Hround; try contradiction;
      cbn [is_finite magnitude]; (split; [reflexivity |]).
    + nra.
    + pose proof (round_aux_value_upper _ q e' l _ p e Hq (or_intror Hfexp) Hround)
        as Hup.
      nra.
Qed.

(** The difference of a positive float and one that is zero or above is
    finite, and no larger than the larger of the two grown by the rounding
    errors. *)
Lemma fsub_finite (mb : positive) (eb : Z) (y : float) :
  nonneg_finite y ->
  mant (Z.pos mb) eb < pow2 (emax - 1) -> to_Q y < pow2 (emax - 1) ->
  is_finite (fsub (S754_finite false mb eb) y) = true /\
  magnitude (fsub (S754_finite false mb eb) y)
  <= (mant (Z.pos mb) eb + to_Q y) * (1 + u) + eta.
Proof.
  pose proof u_pos as Hu0. pose proof eta_pos as He0.
  pose proof (mant_nonneg (Z.pos mb) eb ltac:(lia)) as Hb.
  unfold fsub.
  destruct y as [sy | sy | | [] my ey]; cbn [nonneg_finite SFsub]; try easy;
    intros _ Hblt Hylt.
  - cbn [is_finite magnitude to_Q]. split; [reflexivity | nra].
  - rewrite to_Q_mant in *. cbn [cond_Zopp].
    pose proof (mant_nonneg (Z.pos my) ey ltac:(lia)) as Hy.
    set (ez := Z.min eb ey).
    pose proof (shl_align_value mb eb ez ltac:(unfold ez; lia)) as Hvb.
    pose proof (shl_align_value my ey ez ltac:(unfold ez; lia)) as Hvy.
    set (mb' := fst (shl_align mb eb ez)) in *.
    set (my' := fst (shl_align my ey ez)) in *.
    destruct (Z.pos mb' - Z.pos my')%Z as [| d | d] eqn:Hd;
      cbn [binary_normalize].
    + cbn [is_finite magnitude]. split; [reflexivity | nra].
    + assert (mant (Z.pos d) ez <= mant (Z.pos mb) eb) as Hle
        by (rewrite <- Hvb; apply mant_le; lia).
      pose proof (binary_round_finite false d ez ltac:(lra)) as Hfin.
      pose proof (binary_round_shape false d ez) as Hshape.
      destruct (binary_round prec emax false d ez) as [s | s | | s p e] eqn:Hround;
        try contradiction; cbn [is_finite magnitude]; (split; [reflexivity |]).
      * nra.
      * destruct (binary_round_value_upper _ _ _ _ _ _ Hround) as [_ Hup]. nra.
    + assert (mant (Z.pos d) ez <= mant (Z.pos my) ey) as Hle
        by (rewrite <- Hvy; apply mant_le; lia).
      pose proof (binary_round_finite true d ez ltac:(lra)) as Hfin.
      destruct (binary_round prec emax true d ez) as [s | s | | s p e] eqn:Hround;
        try contradiction; cbn [is_finite magnitude]; (split; [reflexivity |]).
      * nra.
      * destruct (binary_round_value_upper _ _ _ _ _ _ Hround) as [_ Hup]. nra.
Qed.

Lemma floor_finite (x : float) :
  is_finite x = true -> exists n, floor x = Ret n.
Proof. destruct x; cbn; try discriminate; eauto. Qed.

Lemma valid_binary_exponent (m : positive) (e : Z) :
  valid_binary prec emax (S754_finite false m e) = true -> (e <= emax - prec)%Z.
Proof.
  cbn [valid_binary]. unfold bounded. intros Hb.
  apply andb_true_iff in Hb. destruct Hb as [_ He]. now apply Z.leb_le in He.
Qed.

Lemma audio_rate_exact :
  exists m, float_of AUDIO_BITRATE = S754_finite false m (-36) /\
            mant (Z.pos m) (-36) == 96000.
Proof. eexists. split; vm_compute; reflexivity. Qed.

(** The planner returns on every binary64 duration between [2 ^ -900] and
    [2 ^ 900] seconds. *)
Lemma planner_returns (info : VideoInfo) :
  valid_binary prec emax (duration info) = true ->
  ltb zero (duration info) = true ->
  pow2 (-900) <= to_Q (duration info) <= pow2 900 ->
  exists r, calculate_target_bitrate info = Ret r.
Proof.
  intros Hvalid Hpos [Hlow Hhigh].
  pose proof u_pos as Hu0. pose proof eta_pos as He0.
  pose proof u_small as Hu. pose proof eta_small as He.
  rewrite calculate_target_bitrate_eq. cbv zeta.
  destruct (duration info) as [sd | sd | | sd md ed] eqn:Hd; try discriminate.
  { exfalso. cbn [to_Q] in Hlow. pose proof (pow2_pos (-900)). lra. }
  destruct sd; [discriminate |]. cbn [is_zero]. rewrite to_Q_mant in *.
  pose proof (valid_binary_exponent md ed Hvalid) as Hed.
  set (D := mant (Z.pos md) ed) in *.
  assert (pow2 (emax - 1) == pow2 900 * pow2 123) as HP
    by (rewrite <- pow2_add; reflexivity).
  assert (pow2 123 == pow2 (emax - 1) * pow2 (-900)) as HP'
    by (rewrite <- pow2_add; reflexivity).
  assert (1000000000000 <= pow2 123) as H123 by (vm_compute; discriminate).
  pose proof (pow2_pos (-900)) as Hl0. pose proof (pow2_pos 900) as Hh0.
  pose proof (pow2_pos 123) as H1230.
  set (P := pow2 (emax - 1)) in *.
  assert (0 < D) as HD0 by lra.
  assert (0 < P) as HP0 by apply pow2_pos.
  assert (D * 1000000000000 <= P) as HPD.
  { pose proof (mul_le_bounds D 1000000000000 (pow2 900) (pow2 123)
                  ltac:(lra) Hhigh ltac:(lra) H123). lra. }
  assert (1000000000000 <= P) as HP12.
  { pose proof (mul_le_bounds 1 1000000000000 (pow2 900) (pow2 123)
                  ltac:(lra) ltac:(change 1 with (pow2 0); apply pow2_le; lia)
                  ltac:(lra) H123). lra. }
  assert (1000000000000 <= P * D) as HPD'.
  { assert (pow2 123 <= P * D); [| lra].
    rewrite HP'. apply mul_le_l; lra. }
  assert (1000000000000 * D <= P * D) as HPD''
    by (apply Qmult_le_compat_r; lra).
  (* the audio bits *)
  set (audio_bits := if has_audio info
                     then fmul (float_of AUDIO_BITRATE) (S754_finite false md ed)
                     else zero).
  assert (nonneg_finite audio_bits /\ to_Q audio_bits <= 96001 * D + 1) as [Han Hav].
  { unfold audio_bits. destruct (has_audio info).
    - destruct audio_rate_exact as (ma & -> & Hmav).
      assert (is_finite (fmul (S754_finite false ma (-36)) (S754_finite false md ed))
              = true) as Hfin.
      { apply fmul_finite; [unfold emax, prec in *; lia |].
        rewrite Hmav. fold D. fold P. lra. }
      destruct (fmul_upper (S754_finite false ma (-36)) (S754_finite false md ed)
                  I I Hfin) as [Hn Hv]. split; [exact Hn |].
      rewrite !to_Q_mant, Hmav in Hv. fold D in Hv.
      pose proof (grow_bound (96000 * D) (96000 * D) ltac:(lra) ltac:(lra)). lra.
    - split; [exact I |]. cbn [to_Q zero]. lra. }
  pose proof (to_Q_nonneg _ Han) as Ha0.
  (* the available bits *)
  pose proof budget_bits_value as HB.
  assert (0 <= mant 8736983277098762 (-27)) as HB0 by (apply mant_nonneg; lia).
  destruct (fsub_finite 8736983277098762 (-27) audio_bits Han) as [Hsf Hsv];
    [fold P; lra | fold P; lra |].
  change (S754_finite false 8736983277098762 (-27)) with budget_bits in *.
  set (available := fsub budget_bits audio_bits) in *.
  pose proof (magnitude_nonneg available) as Hav0.
  assert (magnitude available <= 65095700 + 96002 * D) as Hsv'.
  { pose proof (grow_bound (mant 8736983277098762 (-27) + to_Q audio_bits)
                  (65095600 + 96001 * D) ltac:(lra) ltac:(lra)). lra. }
  (* the bitrate *)
  destruct (fdiv_finite available md ed Hsf) as [Hqf Hqv]; [fold D; fold P; lra |].
  fold D in Hqv.
  set (rate := fdiv available (S754_finite false md ed)) in *.
  pose proof (magnitude_nonneg rate) as Hr0.
  assert (magnitude rate * D <= 65095800 + 96003 * D) as Hqv'.
  { pose proof (grow_rel (magnitude available) (65095700 + 96002 * D)
                  Hav0 Hsv').
    assert (eta * D <= (1 # 1000000) * D) by (apply Qmult_le_compat_r; lra).
    lra. }
  (* the thousands *)
  destruct thousand_value as (mk & ek & -> & Hkv).
  destruct (fdiv_finite rate mk ek Hqf) as [Hkf _].
  { rewrite Hkv. fold P.
    destruct (Qlt_le_dec (magnitude rate) (P * 1000)) as [Hlt | Hge]; [exact Hlt |].
    exfalso.
    assert (P * 1000 * D <= magnitude rate * D) as Hbig
      by (apply Qmult_le_compat_r; lra).
    assert (P * 1000 * D == 1000 * (P * D)) as Hre by ring.
    lra. }
  destruct (floor_finite _ Hkf) as (n & ->). cbn [bind]. eauto.
Qed.

Local Open Scope Z_scope.

(** C3, as the code has it: for every binary64 duration above zero and
    every audio flag, a value the planner returns is at least
    [MIN_VIDEO_BITRATE], and strictly below [TARGET_BITS / d] whenever it is
    above [MIN_VIDEO_BITRATE] (a result clamped to the floor need not be);
    and the planner does return a value for every duration between
    [2 ^ -900] and [2 ^ 900] seconds. *)
Theorem planned_bitrate_bounds (info : VideoInfo) :
  valid_binary prec emax (duration info) = true ->
  ltb zero (duration info) = true ->
  (forall r : Z,
      calculate_target_bitrate info = Ret r ->
      MIN_VIDEO_BITRATE <= r /\
      (MIN_VIDEO_BITRATE < r ->
       (inject_Z r * to_Q (duration info) < inject_Z TARGET_BITS)%Q)) /\
  ((pow2 (-900) <= to_Q (duration info) <= pow2 900)%Q ->
   exists r : Z, calculate_target_bitrate info = Ret r).
Proof.
  intros Hvalid Hpos. split.
  - intros r. now apply planned_bitrate_below_budget.
  - now apply planner_returns.
Qed.

(** The bounds on the 60 second source with audio: 988,000 bits/s, and
    988,000 * 60 bits is below the bit budget. *)
Lemma planned_bitrate_bounds_witness :
  MIN_VIDEO_BITRATE <= 988000 /\
  (inject_Z 988000 * to_Q (float_of 60) < inject_Z TARGET_BITS)%Q.
Proof.
  destruct (planned_bitrate_bounds (info_of (float_of 60) true)
              ltac:(reflexivity) ltac:(reflexivity)) as [Hbounds _].
  destruct (Hbounds 988000 ltac:(vm_compute; reflexivity)) as [Hfloor Hbelow].
  split; [exact Hfloor | apply Hbelow; reflexivity].
Defined.

(** The first attempt on the 60 second source: from 988,000 bits/s the 10
    MiB output leads to 750,880 bits/s and a second attempt. *)
Lemma ten_MiB_first_attempt_witness :
  exists size_mb : num,
    snd (attempt_body minute_source [] "in.mp4" "8mb[in].mp4" 1 988000)
    = Ret (Next 750880 size_mb).
Proof.
  destruct (ten_MiB_first_attempt minute_source [] "in.mp4" "8mb[in].mp4"
              [2; 3] 988000 None
              ltac:(reflexivity) ltac:(reflexivity) ltac:(reflexivity)
              ltac:(reflexivity) ltac:(reflexivity))
    as (current & t & size_mb & Hcurrent & Ht & _ & _ & Hbody & _).
  exists size_mb.
  vm_compute in Hcurrent. injection Hcurrent as <-.
  vm_compute in Ht. injection Ht as <-.
  exact Hbody.
Defined.

(** ** Where the stated bounds fail *)

(** C3 as stated fails: a 1000 second source without audio is planned at
    the floor, 80,000 bits/s, which is not below [TARGET_BITS / 1000]. *)
Lemma long_source_planned_at_floor :
  calculate_target_bitrate (info_of (float_of 1000) false) = Ret 80000 /\
  ltb zero (float_of 1000) = true /\
  TARGET_BITS <= 80000 * 1000.
Proof. repeat split; vm_compute; try reflexivity; discriminate. Qed.

(** C5 as stated fails: at the floor a 10 MiB first output asks for a
    bitrate that is not lower (the floor again, not 60,800), and the run
    ends after its first encode instead of going on to attempt 2. *)
Lemma floor_bitrate_cannot_retry :
  corrective_bitrate 80000 (10 * MiB) = Ret 80000 /\
  encode_bitrates
    (fst (compress_video long_source "in.mp4" "8mb[in].mp4"
            "/usr/bin/ffmpeg" "/usr/bin/ffprobe")) = [80000] /\
  snd (compress_video long_source "in.mp4" "8mb[in].mp4"
         "/usr/bin/ffmpeg" "/usr/bin/ffprobe") = Ret false.
Proof. repeat split; vm_compute; reflexivity. Qed.

(** * Further properties

    What the code shows beyond the stated claims: how the prober, the
    encoder selector, the planner, the loop and the entry point behave on
    every reply of the outside world. *)

Local Open Scope Z_scope.

(** ** Runs, attempt by attempt *)

(** One iteration of the loop, as the decision tree it is. *)

Lemma attempt_body_eq (w : World) (base_cmd : list string)
    (input_path output_path : string) (attempt video_bitrate : Z) :
  attempt_body w base_cmd input_path output_path attempt video_bitrate =
  match maxrate_of video_bitrate with
  | Raise e => ([], Raise e)
  | Ret maxrate =>
      let run := encode_event base_cmd output_path attempt video_bitrate maxrate in
      match encode_returncode w attempt with
      | Ret 0 =>
          if output_exists w attempt then
            match size_in_mb (output_size w attempt) with
            | Raise e => ([run; EvSleep], Raise e)
            | Ret size_mb =>
                if output_size w attempt <=? TARGET_BYTES then
                  ([run; EvSleep;
                    EvNotify (NotifyComplete (path_name w input_path) size_mb)],
                   Ret (Return true))
                else if attempt <? MAX_ATTEMPTS then
                  match corrective_bitrate video_bitrate (output_size w attempt) with
                  | Raise e => ([run; EvSleep], Raise e)
                  | Ret new_bitrate =>
                      if new_bitrate >=? video_bitrate
                      then ([run; EvSleep; EvNotify (NotifyCannotReduce size_mb)],
                            Ret (Return false))
                      else ([run; EvSleep], Ret (Next new_bitrate size_mb))
                  end
                else ([run; EvSleep], Ret (Next video_bitrate size_mb))
            end
          else ([run; EvSleep; EvNotify NotifyOutputMissing], Ret (Return false))
      | _ => ([run; EvNotify (NotifyEncodingFailed attempt)], Ret (Return false))
      end
  end.
Proof.
  unfold attempt_body, maxrate_of, size_in_mb, encode_event, rate_arguments,
    run_encode.
  destruct (x <- num_mul (Int video_bitrate) (Float lit_1_5);; int_of x)%py
    as [maxrate | e]; [| reflexivity].
  rewrite io_bind_lift. cbn [num_mul bind int_of]. rewrite io_bind_lift.
  generalize (num_truediv (Int (output_size w attempt)) (Int (1024 * 1024))).
  generalize (corrective_bitrate video_bitrate (output_size w attempt)).
  generalize (output_size w attempt <=? TARGET_BYTES).
  generalize (attempt <? MAX_ATTEMPTS).
  intros last_one fits corrected size_mb.
  destruct (encode_returncode w attempt) as [[| rc | rc] | e];
    try reflexivity.
  destruct (output_exists w attempt); [| reflexivity].
  destruct size_mb as [size_mb | e]; [| reflexivity].
  destruct fits; [reflexivity |].
  destruct last_one; [| reflexivity].
  destruct corrected as [new_bitrate | e]; [| reflexivity].
  io_unfold. cbn [negb Z.eqb app].
  destruct (new_bitrate >=? video_bitrate); reflexivity.
Qed.

Lemma notifications_app (t t' : list event) :
  notifications (t ++ t') = (notifications t ++ notifications t')%list.
Proof.
  induction t as [| ev t IH]; simpl; [reflexivity |].
  destruct ev; simpl; now rewrite IH.
Qed.

Lemma encode_count_app (t t' : list event) :
  encode_count (t ++ t') = (encode_count t + encode_count t')%nat.
Proof.
  unfold encode_count. now rewrite filter_app, length_app.
Qed.

Lemma encode_count_cons (ev : event) (t : list event) :
  encode_count (ev :: t) = ((if is_encode ev then 1 else 0) + encode_count t)%nat.
Proof. unfold encode_count. simpl. now destruct (is_encode ev). Qed.

Lemma io_bind_pair {A B : Type} (t : list event) (a : A) (k : A -> io B) :
  io_bind (t, Ret a) k = ((t ++ fst (k a))%list, snd (k a)).
Proof. simpl. now destruct (k a). Qed.

(** Splits one iteration of the loop into the ways it can end. *)
Ltac attempt_cases :=
  cbn [count_from attempts_loop]; rewrite attempt_body_eq;
  let Hrate := fresh "Hrate" in
  let Hrc := fresh "Hrc" in
  let Hexists := fresh "Hexists" in
  let Hmb := fresh "Hmb" in
  let Hfits := fresh "Hfits" in
  let Hmore := fresh "Hmore" in
  let Hcorr := fresh "Hcorr" in
  let Hstuck := fresh "Hstuck" in
  destruct (maxrate_of _) as [?maxrate | ?e] eqn:Hrate; cbv zeta;
  [ destruct (encode_returncode _ _) as [[| ?rc | ?rc] | ?e] eqn:Hrc;
    [ destruct (output_exists _ _) eqn:Hexists;
      [ destruct (size_in_mb _) as [?size_mb | ?e] eqn:Hmb;
        [ destruct (_ <=? TARGET_BYTES) eqn:Hfits;
          [ apply Z.leb_le in Hfits
          | apply Z.leb_gt in Hfits;
            destruct (_ <? MAX_ATTEMPTS) eqn:Hmore;
            [ apply Z.ltb_lt in Hmore;
              destruct (corrective_bitrate _ _) as [?new_bitrate | ?e] eqn:Hcorr;
              [ destruct (_ >=? _) eqn:Hstuck;
                [ rewrite Z.geb_leb in Hstuck; apply Z.leb_le in Hstuck
                | rewrite Z.geb_leb in Hstuck; apply Z.leb_gt in Hstuck ]
              | ]
            | apply Z.ltb_ge in Hmore ] ]
        | ]
      | ]
    | | | ]
  | ];
  rewrite ?io_bind_pair; cbn [io_bind io_ret fst snd app].

Section Run.

Variable w : World.
Variable base_cmd : list string.
Variables input_path output_path : string.

Lemma attempts_loop_success (n : nat) :
  forall (k b : Z) (s : option num),
    let run := attempts_loop w base_cmd input_path output_path
                 (count_from k n) b s in
    snd run = Ret true ->
    exists (a : Z) (size_mb : num),
      k <= a < k + Z.of_nat n /\
      (forall j, k <= j < a -> over_target w j) /\
      encode_returncode w a = Ret 0 /\
      output_exists w a = true /\
      output_size w a <= TARGET_BYTES /\
      size_in_mb (output_size w a) = Ret size_mb /\
      notifications (fst run) = [NotifyComplete (path_name w input_path) size_mb] /\
      encode_count (fst run) = Z.to_nat (a - k + 1).
Proof.
  induction n as [| n IH]; intros k b s; cbv zeta.
  - cbn. destruct s; discriminate.
  - attempt_cases; try discriminate.
    + intros _. exists k, size_mb.
      split; [lia |]. split; [intros j Hj; lia |].
      do 4 (split; [assumption |]). split; [reflexivity |].
      replace (k - k + 1) with 1 by lia. reflexivity.
    + intros Hr. apply IH in Hr.
      destruct Hr as (a & sz & Ha & Hover & Hrc' & Hex & Hsz & Hmb' & Hnote & Hcount).
      exists a, sz.
      split; [lia |]. split.
      { intros j Hj. destruct (Z.eq_dec j k) as [-> |];
          [now repeat split | apply Hover; lia]. }
      do 4 (split; [assumption |]). split; [exact Hnote |].
      rewrite !encode_count_cons, Hcount. cbn [is_encode encode_event]. lia.
    + intros Hr. apply IH in Hr.
      destruct Hr as (a & sz & Ha & Hover & Hrc' & Hex & Hsz & Hmb' & Hnote & Hcount).
      exists a, sz.
      split; [lia |]. split.
      { intros j Hj. destruct (Z.eq_dec j k) as [-> |];
          [now repeat split | apply Hover; lia]. }
      do 4 (split; [assumption |]). split; [exact Hnote |].
      rewrite !encode_count_cons, Hcount. cbn [is_encode encode_event]. lia.
Qed.

Lemma attempts_loop_failure (n : nat) :
  forall (k b : Z) (s : option num),
    k + Z.of_nat n = MAX_ATTEMPTS + 1 ->
    let run := attempts_loop w base_cmd input_path output_path
                 (count_from k n) b s in
    snd run = Ret false ->
    (exists a : Z,
        k <= a < k + Z.of_nat n /\
        (forall j, k <= j < a -> over_target w j) /\
        encode_count (fst run) = Z.to_nat (a - k + 1) /\
        failure_at w (fst run) a) \/
    (n = 0%nat /\
     exists size_mb, s = Some size_mb /\ fst run = [EvNotify (NotifyOverTarget size_mb)]).
Proof.
  induction n as [| n IH]; intros k b s Hk; cbv zeta.
  - cbn. destruct s as [size_mb |]; [| discriminate].
    intros _. right. split; [reflexivity |]. now exists size_mb.
  - attempt_cases; try discriminate; intros Hr; left.
    + (* cannot reduce *)
      exists k. split; [lia |]. split; [intros j Hj; lia |].
      split; [replace (k - k + 1) with 1 by lia; reflexivity |].
      right. right. left. split; [now repeat split |]. split; [assumption |].
      exists size_mb, b, new_bitrate.
      split; [assumption |]. split; [reflexivity |].
      split; [left; reflexivity |]. split; assumption.
    + (* retried with the corrective bitrate *)
      apply IH in Hr; [| lia].
      destruct Hr as [(a & Ha & Hover & Hcount & Hcase) | (-> & _)];
        [| change MAX_ATTEMPTS with 3 in *; lia].
      exists a. split; [lia |]. split.
      { intros j Hj. destruct (Z.eq_dec j k) as [-> |];
          [now repeat split | apply Hover; lia]. }
      split.
      { rewrite !encode_count_cons, Hcount. cbn [is_encode encode_event]. lia. }
      unfold failure_at in *. cbn [fst notifications encode_event encode_bitrates].
      destruct Hcase as [H | [H | [H | H]]]; [auto | auto | | auto].
      right. right. left.
      destruct H as (H1 & H2 & sz & cur & cand & H3 & H4 & H5 & H6 & H7).
      split; [assumption |]. split; [assumption |].
      exists sz, cur, cand. repeat (split; [assumption |]).
      split; [right; assumption |]. split; assumption.
    + (* the last attempt, still over the target *)
      assert (n = 0%nat) as -> by (change MAX_ATTEMPTS with 3 in *; lia).
      exists k. split; [lia |]. split; [intros j Hj; lia |].
      split; [replace (k - k + 1) with 1 by lia; reflexivity |].
      right. right. right. split; [now repeat split |].
      split; [change MAX_ATTEMPTS with 3 in *; lia |].
      exists size_mb. split; [assumption |]. reflexivity.
    + (* the output is missing *)
      exists k. split; [lia |]. split; [intros j Hj; lia |].
      split; [replace (k - k + 1) with 1 by lia; reflexivity |].
      right. left. auto.
    + exists k. split; [lia |]. split; [intros j Hj; lia |].
      split; [replace (k - k + 1) with 1 by lia; reflexivity |].
      left. split; [rewrite Hrc; discriminate | reflexivity].
    + exists k. split; [lia |]. split; [intros j Hj; lia |].
      split; [replace (k - k + 1) with 1 by lia; reflexivity |].
      left. split; [rewrite Hrc; discriminate | reflexivity].
    + exists k. split; [lia |]. split; [intros j Hj; lia |].
      split; [replace (k - k + 1) with 1 by lia; reflexivity |].
      left. split; [rewrite Hrc; discriminate | reflexivity].
Qed.


(** Every encode of the loop runs the base command followed by the rate
    arguments of its bitrate. *)
Lemma attempts_loop_commands (n : nat) :
  forall (k b : Z) (s : option num) (a c : Z) (cmd : list string) (desc : string),
    In (EvRunEncode a c cmd desc)
       (fst (attempts_loop w base_cmd input_path output_path
               (count_from k n) b s)) ->
    k <= a < k + Z.of_nat n /\
    exists maxrate : Z,
      maxrate_of c = Ret maxrate /\
      EvRunEncode a c cmd desc = encode_event base_cmd output_path a c maxrate.
Proof.
  induction n as [| n IH]; intros k b s a c cmd desc.
  - cbn. destruct s; cbn; intuition discriminate.
  - attempt_cases; cbn [In];
      repeat match goal with
        | |- _ \/ _ -> _ => intros [H | H]; revert H
        | |- False -> _ => intros []
        | |- EvSleep = _ -> _ => discriminate
        | |- EvNotify _ = _ -> _ => discriminate
        | |- encode_event _ _ _ _ _ = _ -> _ =>
            let H := fresh in
            intros H; injection H as <- <- <- <-;
            split; [lia |]; eexists; split; [eassumption | reflexivity]
        | |- In _ _ -> _ =>
            let H := fresh in
            intros H; apply IH in H; destruct H as [? ?]; split; [lia | assumption]
        end.
Qed.

End Run.

(** The bitrates of the loop follow the corrections. *)
Lemma attempts_loop_schedule (w : World) (base_cmd : list string)
    (input_path output_path : string) (n : nat) :
  forall (k b : Z) (s : option num),
    k + Z.of_nat n = MAX_ATTEMPTS + 1 ->
    follows_corrections w k b
      (encode_bitrates
         (fst (attempts_loop w base_cmd input_path output_path
                 (count_from k n) b s))).
Proof.
  induction n as [| n IH]; intros k b s Hk.
  - cbn. destruct s; exact I.
  - attempt_cases; cbn [encode_bitrates encode_event follows_corrections];
      auto.
    + specialize (IH (k + 1) new_bitrate (Some size_mb) ltac:(lia)).
      split; [reflexivity |].
      destruct (encode_bitrates _) as [| x rest] eqn:Hrates; [exact I |].
      exists new_bitrate. auto.
    + assert (n = 0%nat) as -> by (change MAX_ATTEMPTS with 3 in *; lia).
      cbn. auto.
Qed.

(** ** The prober *)

(** The prober ends in one of two ways: silently with a result, or with
    one printed error and [None]. *)
Lemma get_video_info_cases (w : World) (ffprobe input_path : string) :
  (exists r, get_video_info w ffprobe input_path = ([], Ret r)) \/
  (exists e, get_video_info w ffprobe input_path = ([EvPrintProbeError e], Ret None)).
Proof.
  unfold get_video_info. io_unfold.
  repeat (case_inner; simpl); eauto.
Qed.


(** X2: [get_video_info] returns a [VideoInfo] exactly when the video
    query answers with a first stream, the duration read from it (or, when
    the stream has no duration key, from the container) is neither falsy
    nor [<= 0], the width, height and bit rate convert (a missing key
    standing for 1920, 1080 and 0), and the audio query answers; the
    fields are those values, and [has_audio] tells whether the audio query
    listed a stream. *)
Theorem probed_fields (w : World) (ffprobe input_path : string) (info : VideoInfo) :
  snd (get_video_info w ffprobe input_path) = Ret (Some info) <->
  exists (data : ProbeData) (s : ProbeStream) (rest : list ProbeStream)
         (audio : option nat),
    probe_video w ffprobe input_path = Ret data /\
    pd_streams data = Some (s :: rest) /\
    (st_duration s = Some (Ret (duration info)) \/
     (st_duration s = None /\
      pd_format data = Some (Some (Ret (duration info))))) /\
    is_zero (duration info) = false /\
    leb (duration info) zero = false /\
    get_int (st_width s) 1920 = Ret (width info) /\
    get_int (st_height s) 1080 = Ret (height info) /\
    get_int (st_bit_rate s) 0 = Ret (bitrate info) /\
    probe_audio w ffprobe input_path = Ret audio /\
    has_audio info = match audio with
                     | Some n => (0 <? n)%nat
                     | None => false
                     end.
Proof.
  split.
  - unfold get_video_info, probed_duration, first_stream, duration_rejected.
    io_unfold.
    destruct (probe_video w ffprobe input_path) as [data | e]; [| discriminate].
    destruct (pd_streams data) as [[| s rest] |] eqn:Hstreams.
    + repeat (case_inner; simpl); discriminate.
    + intros H. exists data, s, rest.
      destruct (st_duration s) as [[d | e] |] eqn:Hd.
      * simpl in H. destruct (is_zero d || leb d zero) eqn:Hrej;
          [discriminate |].
        apply orb_false_iff in Hrej. destruct Hrej as [Hz Hl].
        simpl in H.
        destruct (get_int (st_width s) 1920); simpl in H; [| discriminate].
        destruct (get_int (st_height s) 1080); simpl in H; [| discriminate].
        destruct (get_int (st_bit_rate s) 0); simpl in H; [| discriminate].
        destruct (probe_audio w ffprobe input_path) as [audio |];
          simpl in H; [| discriminate].
        injection H as <-. exists audio. simpl. auto 12.
      * discriminate.
      * destruct (pd_format data) as [[[d | e] |] |]; try discriminate.
        simpl in H. destruct (is_zero d || leb d zero) eqn:Hrej;
          [discriminate |].
        apply orb_false_iff in Hrej. destruct Hrej as [Hz Hl].
        simpl in H.
        destruct (get_int (st_width s) 1920); simpl in H; [| discriminate].
        destruct (get_int (st_height s) 1080); simpl in H; [| discriminate].
        destruct (get_int (st_bit_rate s) 0); simpl in H; [| discriminate].
        destruct (probe_audio w ffprobe input_path) as [audio |];
          simpl in H; [| discriminate].
        injection H as <-. exists audio. simpl. auto 12.
    + repeat (case_inner; simpl); discriminate.
  - intros (data & s & rest & audio & Hdata & Hstreams & Hd & Hz & Hl
            & Hw & Hh & Hb & Ha & Haudio).
    destruct info as [d au wd ht br]. simpl in *.
    unfold get_video_info, probed_duration, first_stream, duration_rejected.
    io_unfold. rewrite Hdata, Hstreams.
    destruct Hd as [-> | [-> ->]]; simpl; rewrite Hz, Hl; simpl;
      rewrite Hw, Hh, Hb, Ha; simpl; now subst au.
Qed.

(** X3: the container's duration alone is not enough.  When the video
    query lists no stream (the key is missing, or the list is empty) and
    the container reports a usable duration, the prober goes on to read
    the first stream, fails with [KeyError] or [IndexError], prints it and
    returns [None]. *)
Theorem container_duration_needs_stream (w : World) (ffprobe input_path : string)
    (data : ProbeData) (d : float) :
  probe_video w ffprobe input_path = Ret data ->
  pd_streams data = None \/ pd_streams data = Some [] ->
  pd_format data = Some (Some (Ret d)) ->
  duration_rejected (Some d) = false ->
  get_video_info w ffprobe input_path =
  ([EvPrintProbeError
      (match pd_streams data with None => KeyError | Some _ => IndexError end)],
   Ret None).
Proof.
  intros Hdata Hstreams Hformat Hok.
  unfold get_video_info, probed_duration, first_stream. io_unfold.
  rewrite Hdata.
  simpl in Hok.
  destruct Hstreams as [-> | ->]; rewrite Hformat; simpl; rewrite Hok; reflexivity.
Qed.

Lemma container_duration_needs_stream_witness :
  get_video_info audio_only "/usr/bin/ffprobe" "in.mp3"
  = ([EvPrintProbeError IndexError], Ret None).
Proof.
  exact (container_duration_needs_stream audio_only "/usr/bin/ffprobe" "in.mp3"
           {| pd_streams := Some [];
              pd_format := Some (Some (Ret (float_of 60))) |}
           (float_of 60) eq_refl (or_intror eq_refl) eq_refl eq_refl).
Defined.

(** ** The encoder selector *)

Lemma prefix_spec (sub s : string) :
  String.prefix sub s = true <-> exists post, s = sub ++ post.
Proof.
  revert s. induction sub as [| a sub IH]; intros s.
  - split; [intros _; now exists s | now destruct s].
  - destruct s as [| b s]; simpl;
      [split; [discriminate | intros [post [=]]] |].
    destruct (ascii_dec a b) as [-> | Hne].
    + rewrite IH. split; intros [post H]; exists post; [now rewrite H |].
      now injection H.
    + split; [discriminate |]. intros [post H]. congruence.
Qed.

Lemma str_in_spec (sub s : string) : str_in sub s = true <-> occurs sub s.
Proof.
  unfold occurs. induction s as [| c s IH].
  - cbn [str_in]. rewrite orb_false_r, prefix_spec. split.
    + intros [post H]. now exists EmptyString, post.
    + intros (pre & post & H). destruct pre; [now exists post |]. discriminate.
  - cbn [str_in]. rewrite orb_true_iff, prefix_spec, IH. split.
    + intros [[post H] | (pre & post & H)].
      * now exists EmptyString, post.
      * exists (String c pre), post. simpl. now rewrite H.
    + intros (pre & post & H). destruct pre as [| c' pre].
      * left. now exists post.
      * right. injection H as _ H. now exists pre, post.
Qed.

Lemma first_available_first (priority : list (string * string)) (available : string) :
  match first_available priority available with
  | (t, Ret (Some choice)) =>
      t = [EvPrintUsing (fst choice)] /\
      occurs (fst choice) available /\
      exists earlier later,
        priority = (earlier ++ choice :: later)%list /\
        Forall (fun c => ~ occurs (fst c) available) earlier
  | (t, Ret None) =>
      t = [] /\ Forall (fun c => ~ occurs (fst c) available) priority
  | (_, Raise _) => False
  end.
Proof.
  induction priority as [| [codec preset] rest IH]; simpl.
  - auto.
  - destruct (str_in codec available) eqn:Hin.
    + simpl. split; [reflexivity |]. split; [now apply str_in_spec |].
      exists [], rest. auto.
    + assert (~ occurs codec available) as Hnot
        by (rewrite <- str_in_spec, Hin; discriminate).
      destruct (first_available rest available) as [t [[choice |] | e]].
      * destruct IH as (-> & Hocc & earlier & later & -> & Hall).
        split; [reflexivity |]. split; [assumption |].
        exists ((codec, preset) :: earlier), later. split; [reflexivity |].
        constructor; assumption.
      * destruct IH as [-> Hall]. split; [reflexivity |].
        constructor; assumption.
      * contradiction.
Qed.

(** The selector, by the reply of the capability query. *)
Lemma detect_encoder_cases (w : World) (ffmpeg : string) :
  match encoders_query w ffmpeg with
  | Ret available =>
      (exists (choice : string * string) (earlier later : list (string * string)),
          detect_encoder w ffmpeg = ([EvPrintUsing (fst choice)], Ret choice) /\
          ENCODER_PRIORITY = (earlier ++ choice :: later)%list /\
          occurs (fst choice) available /\
          Forall (fun c => ~ occurs (fst c) available) earlier) \/
      (detect_encoder w ffmpeg = ([], Ret ("libx265", "veryfast")) /\
       Forall (fun c => ~ occurs (fst c) available) ENCODER_PRIORITY)
  | Raise _ => detect_encoder w ffmpeg = ([], Ret ("libx265", "veryfast"))
  end.
Proof.
  unfold detect_encoder.
  destruct (encoders_query w ffmpeg) as [available | e]; [| reflexivity].
  rewrite io_bind_lift.
  pose proof (first_available_first ENCODER_PRIORITY available) as H.
  destruct (first_available ENCODER_PRIORITY available) as [t [[choice |] | e]].
  - destruct H as (-> & Hocc & earlier & later & Heq & Hall).
    left. exists choice, earlier, later. auto.
  - destruct H as [-> Hall]. right. auto.
  - contradiction.
Qed.


(** ** A whole run *)

Lemma compress_video_eq (w : World) (input_path output_path ffmpeg ffprobe : string) :
  compress_video w input_path output_path ffmpeg ffprobe =
  match get_video_info w ffprobe input_path with
  | (t, Ret None) => ((t ++ [EvNotify NotifyAnalyzeError])%list, Ret false)
  | (t, Ret (Some info)) =>
      match detect_encoder w ffmpeg with
      | (t', Ret (codec, preset)) =>
          match calculate_target_bitrate info with
          | Ret video_bitrate =>
              let run :=
                attempts_loop w (base_command ffmpeg input_path info codec preset)
                  input_path output_path (count_from 1 3) video_bitrate None in
              ((t ++ t' ++ fst run)%list, snd run)
          | Raise e => ((t ++ t')%list, Raise e)
          end
      | (t', Raise e) => ((t ++ t')%list, Raise e)
      end
  | (t, Raise e) => (t, Raise e)
  end.
Proof.
  unfold compress_video.
  destruct (get_video_info w ffprobe input_path) as [t [[info |] | e]];
    [| reflexivity | reflexivity].
  rewrite io_bind_pair.
  destruct (detect_encoder w ffmpeg) as [t' [[codec preset] | e]];
    [| reflexivity].
  rewrite io_bind_pair, io_bind_lift.
  destruct (calculate_target_bitrate info) as [video_bitrate | e];
    [| simpl; now rewrite app_nil_r].
  reflexivity.
Qed.

Lemma prober_quiet (w : World) (ffprobe input_path : string) :
  notifications (fst (get_video_info w ffprobe input_path)) = [] /\
  encode_count (fst (get_video_info w ffprobe input_path)) = 0%nat /\
  forall ev, In ev (fst (get_video_info w ffprobe input_path)) ->
             is_encode ev = false.
Proof.
  destruct (get_video_info_cases w ffprobe input_path) as [[r ->] | [e ->]];
    simpl; repeat split; try reflexivity; intros ev H; intuition (subst; auto).
Qed.

Lemma selector_quiet (w : World) (ffmpeg : string) :
  notifications (fst (detect_encoder w ffmpeg)) = [] /\
  encode_count (fst (detect_encoder w ffmpeg)) = 0%nat /\
  forall ev, In ev (fst (detect_encoder w ffmpeg)) -> is_encode ev = false.
Proof.
  pose proof (detect_encoder_cases w ffmpeg) as H.
  destruct (encoders_query w ffmpeg);
    [destruct H as [(c & ? & ? & -> & _) | [-> _]] | rewrite H];
    simpl; repeat split; try reflexivity; intros ev H'; intuition (subst; auto).
Qed.

(** A run that returns [True]. *)
Lemma compress_video_success (w : World)
    (input_path output_path ffmpeg ffprobe : string) :
  let run := compress_video w input_path output_path ffmpeg ffprobe in
  snd run = Ret true ->
  exists (a : Z) (size_mb : num),
    1 <= a <= MAX_ATTEMPTS /\
    (forall j, 1 <= j < a -> over_target w j) /\
    encode_returncode w a = Ret 0 /\
    output_exists w a = true /\
    output_size w a <= TARGET_BYTES /\
    size_in_mb (output_size w a) = Ret size_mb /\
    notifications (fst run) = [NotifyComplete (path_name w input_path) size_mb] /\
    encode_count (fst run) = Z.to_nat a.
Proof.
  cbv zeta. rewrite compress_video_eq.
  pose proof (prober_quiet w ffprobe input_path) as (Hpn & Hpe & _).
  pose proof (selector_quiet w ffmpeg) as (Hsn & Hse & _).
  destruct (get_video_info w ffprobe input_path) as [t [[info |] | e]];
    [| discriminate | discriminate].
  destruct (detect_encoder w ffmpeg) as [t' [[codec preset] | e]];
    [| discriminate].
  destruct (calculate_target_bitrate info) as [video_bitrate | e];
    [| discriminate].
  cbv zeta. cbn [fst snd] in *. intros Hr.
  apply attempts_loop_success in Hr.
  destruct Hr as (a & sz & Ha & Hover & Hrc & Hex & Hsz & Hmb & Hnote & Hcount).
  exists a, sz. split; [change MAX_ATTEMPTS with 3; lia |].
  do 5 (split; [assumption |]).
  rewrite !notifications_app, !encode_count_app, Hpn, Hpe, Hsn, Hse, Hnote, Hcount.
  split; [reflexivity |]. f_equal. lia.
Qed.

(** A run that returns [False]. *)
Lemma compress_video_failure (w : World)
    (input_path output_path ffmpeg ffprobe : string) :
  let run := compress_video w input_path output_path ffmpeg ffprobe in
  snd run = Ret false ->
  (snd (get_video_info w ffprobe input_path) = Ret None /\
   notifications (fst run) = [NotifyAnalyzeError] /\
   encode_count (fst run) = 0%nat) \/
  exists a : Z,
    1 <= a <= MAX_ATTEMPTS /\
    (forall j, 1 <= j < a -> over_target w j) /\
    encode_count (fst run) = Z.to_nat a /\
    failure_at w (fst run) a.
Proof.
  cbv zeta. rewrite compress_video_eq.
  pose proof (prober_quiet w ffprobe input_path) as (Hpn & Hpe & _).
  pose proof (selector_quiet w ffmpeg) as (Hsn & Hse & _).
  pose proof (get_video_info_no_encode w ffprobe input_path) as Hpb.
  pose proof (detect_encoder_no_encode w ffmpeg) as Hsb.
  destruct (get_video_info w ffprobe input_path) as [t [[info |] | e]];
    [| | discriminate].
  - destruct (detect_encoder w ffmpeg) as [t' [[codec preset] | e]];
      [| discriminate].
    destruct (calculate_target_bitrate info) as [video_bitrate | e];
      [| discriminate].
    cbv zeta. cbn [fst snd] in *. intros Hr. right.
    apply attempts_loop_failure in Hr; [| reflexivity].
    destruct Hr as [(a & Ha & Hover & Hcount & Hcase) | ([=] & _)].
    exists a. split; [change MAX_ATTEMPTS with 3; lia |].
    split; [assumption |].
    split; [rewrite !encode_count_app, Hpe, Hse, Hcount; f_equal; lia |].
    unfold failure_at in *.
    rewrite !notifications_app, !encode_bitrates_app, Hpn, Hsn, Hpb, Hsb.
    exact Hcase.
  - intros _. left. cbn [fst snd] in *. split; [reflexivity |].
    rewrite notifications_app, encode_count_app, Hpn, Hpe. auto.
Qed.

(** X8: [compress_video] returns [True] only when an attempt [a] among
    the [MAX_ATTEMPTS] exited with code 0 and left a file of at most
    [TARGET_BYTES]; every attempt before it exited with 0 and left a file
    over the target; [a] encodes were run; and the one notification posted
    is the success notice, with the input's file name and the size of that
    file in megabytes. *)
Theorem success_means_under_target (w : World)
    (input_path output_path ffmpeg ffprobe : string) :
  let run := compress_video w input_path output_path ffmpeg ffprobe in
  snd run = Ret true ->
  exists (a : Z) (size_mb : num),
    1 <= a <= MAX_ATTEMPTS /\
    (forall j, 1 <= j < a -> over_target w j) /\
    encode_returncode w a = Ret 0 /\
    output_exists w a = true /\
    output_size w a <= TARGET_BYTES /\
    size_in_mb (output_size w a) = Ret size_mb /\
    notifications (fst run) = [NotifyComplete (path_name w input_path) size_mb] /\
    encode_count (fst run) = Z.to_nat a.
Proof. exact (compress_video_success w input_path output_path ffmpeg ffprobe). Qed.

Lemma success_means_under_target_witness :
  exists (a : Z) (size_mb : num),
    1 <= a <= MAX_ATTEMPTS /\
    output_size no_listing a <= TARGET_BYTES /\
    notifications
      (fst (compress_video no_listing "in.mp4" "8mb[in].mp4"
              "/usr/bin/ffmpeg" "/usr/bin/ffprobe"))
    = [NotifyComplete "in.mp4" size_mb].
Proof.
  destruct (success_means_under_target no_listing "in.mp4" "8mb[in].mp4"
              "/usr/bin/ffmpeg" "/usr/bin/ffprobe"
              ltac:(vm_compute; reflexivity))
    as (a & size_mb & Ha & _ & _ & _ & Hsize & _ & Hnote & _).
  exists a, size_mb. auto.
Defined.

(** X9: [compress_video] returns [False] only after posting one failure
    notification that tells the cause.  Either the prober gave nothing
    and nothing was encoded; or attempt [a], after [a - 1] attempts that
    left files over the target, failed to encode (a return code other
    than 0, or an exception), or left no file, or left a file over the
    target on the last attempt, or left one over the target whose
    corrective bitrate is not below the bitrate of an encode that was
    run. *)
Theorem failure_has_a_cause (w : World)
    (input_path output_path ffmpeg ffprobe : string) :
  let run := compress_video w input_path output_path ffmpeg ffprobe in
  snd run = Ret false ->
  (snd (get_video_info w ffprobe input_path) = Ret None /\
   notifications (fst run) = [NotifyAnalyzeError] /\
   encode_count (fst run) = 0%nat) \/
  exists a : Z,
    1 <= a <= MAX_ATTEMPTS /\
    (forall j, 1 <= j < a -> over_target w j) /\
    encode_count (fst run) = Z.to_nat a /\
    failure_at w (fst run) a.
Proof. exact (compress_video_failure w input_path output_path ffmpeg ffprobe). Qed.

Lemma failure_has_a_cause_witness :
  exists a : Z,
    1 <= a <= MAX_ATTEMPTS /\
    encode_count
      (fst (compress_video minute_source "in.mp4" "8mb[in].mp4"
              "/usr/bin/ffmpeg" "/usr/bin/ffprobe"))
    = Z.to_nat a.
Proof.
  destruct (failure_has_a_cause minute_source "in.mp4" "8mb[in].mp4"
              "/usr/bin/ffmpeg" "/usr/bin/ffprobe"
              ltac:(vm_compute; reflexivity))
    as [(Hnone & _) | (a & Ha & _ & Hcount & _)].
  - vm_compute in Hnone. discriminate.
  - exists a. auto.
Defined.

(** X10: every encode [compress_video] runs is started with the same
    command line but for the rates: the located ffmpeg, [-y] and the
    logging flags, the input, the scale filter of the probed size, the
    codec and preset the selector chose, the audio arguments ([-c:a aac
    -b:a 96k] when the probe found audio, [-an] otherwise), then [-b:v]
    with the bitrate of the attempt, [-maxrate] with [int(bitrate * 1.5)],
    [-bufsize] with twice the bitrate, [-movflags +faststart] and the
    output path; its description is "Pass" and the number of the
    attempt. *)
Theorem encode_commands (w : World)
    (input_path output_path ffmpeg ffprobe : string)
    (a b : Z) (cmd : list string) (desc : string) :
  In (EvRunEncode a b cmd desc)
     (fst (compress_video w input_path output_path ffmpeg ffprobe)) ->
  exists (info : VideoInfo) (codec preset : string) (maxrate : Z),
    snd (get_video_info w ffprobe input_path) = Ret (Some info) /\
    snd (detect_encoder w ffmpeg) = Ret (codec, preset) /\
    maxrate_of b = Ret maxrate /\
    1 <= a <= MAX_ATTEMPTS /\
    desc = "Pass " ++ str a /\
    cmd = ([ ffmpeg; "-y"; "-hide_banner"; "-loglevel"; "error";
             "-i"; input_path;
             "-vf"; get_scale_filter info;
             "-c:v"; codec;
             "-preset"; preset ] ++
           (if has_audio info then [ "-c:a"; "aac"; "-b:a"; "96k" ] else [ "-an" ]) ++
           [ "-b:v"; str b;
             "-maxrate"; str maxrate;
             "-bufsize"; str (b * 2);
             "-movflags"; "+faststart";
             output_path ])%list.
Proof.
  rewrite compress_video_eq.
  pose proof (prober_quiet w ffprobe input_path) as (_ & _ & Hp).
  pose proof (selector_quiet w ffmpeg) as (_ & _ & Hs).
  destruct (get_video_info w ffprobe input_path) as [t [[info |] | e]];
    cbn [fst snd] in *.
  - destruct (detect_encoder w ffmpeg) as [t' [[codec preset] | e]];
      cbn [fst snd] in *.
    + destruct (calculate_target_bitrate info) as [video_bitrate | e];
        cbv zeta; cbn [fst snd].
      * rewrite !in_app_iff. intros [H | [H | H]];
          [apply Hp in H; discriminate | apply Hs in H; discriminate |].
        apply attempts_loop_commands in H.
        destruct H as (Ha & maxrate & Hrate & Heq).
        exists info, codec, preset, maxrate.
        unfold encode_event in Heq. injection Heq as -> ->.
        repeat (split; [first [reflexivity | assumption
                               | change MAX_ATTEMPTS with 3; lia] |]).
        unfold base_command, rate_arguments.
        destruct (has_audio info); reflexivity.
      * rewrite in_app_iff. intros [H | H];
          [apply Hp in H; discriminate | apply Hs in H; discriminate].
    + rewrite in_app_iff. intros [H | H];
        [apply Hp in H; discriminate | apply Hs in H; discriminate].
  - rewrite in_app_iff. intros [H | [H | []]];
      [apply Hp in H; discriminate | discriminate].
  - intros H. apply Hp in H. discriminate.
Qed.

Lemma encode_commands_witness :
  exists (cmd : list string) (info : VideoInfo) (codec preset : string),
    In (EvRunEncode 1 988000 cmd "Pass 1")
       (fst (compress_video no_listing "in.mp4" "8mb[in].mp4"
               "/usr/bin/ffmpeg" "/usr/bin/ffprobe")) /\
    cmd = ([ "/usr/bin/ffmpeg"; "-y"; "-hide_banner"; "-loglevel"; "error";
             "-i"; "in.mp4";
             "-vf"; get_scale_filter info;
             "-c:v"; codec;
             "-preset"; preset ] ++
           (if has_audio info then [ "-c:a"; "aac"; "-b:a"; "96k" ] else [ "-an" ]) ++
           [ "-b:v"; "988000";
             "-maxrate"; "1482000";
             "-bufsize"; "1976000";
             "-movflags"; "+faststart";
             "8mb[in].mp4" ])%list.
Proof.
  eexists. 
  assert (In (EvRunEncode 1 988000 ?[cmd] "Pass 1")
            (fst (compress_video no_listing "in.mp4" "8mb[in].mp4"
                    "/usr/bin/ffmpeg" "/usr/bin/ffprobe"))) as Hin
    by (vm_compute; left; reflexivity).
  destruct (encode_commands _ _ _ _ _ _ _ _ _ Hin)
    as (info & codec & preset & maxrate & _ & _ & Hrate & _ & _ & Hcmd).
  exists info, codec, preset. split; [exact Hin |].
  vm_compute in Hrate. injection Hrate as <-. exact Hcmd.
Defined.

(** X12: the first encode of a run is started at the bitrate the planner
    returned for the probed metadata, and each later one at the corrective
    bitrate computed from the bitrate of the encode before it and the size
    of the file that encode left, which was over the target. *)
Theorem bitrate_schedule (w : World)
    (input_path output_path ffmpeg ffprobe : string) :
  let rates :=
    encode_bitrates (fst (compress_video w input_path output_path ffmpeg ffprobe)) in
  rates = [] \/
  exists (info : VideoInfo) (planned : Z),
    snd (get_video_info w ffprobe input_path) = Ret (Some info) /\
    calculate_target_bitrate info = Ret planned /\
    follows_corrections w 1 planned rates.
Proof.
  cbv zeta. rewrite compress_video_eq.
  pose proof (get_video_info_no_encode w ffprobe input_path) as Hp.
  pose proof (detect_encoder_no_encode w ffmpeg) as Hs.
  destruct (get_video_info w ffprobe input_path) as [t [[info |] | e]];
    cbn [fst snd] in *.
  - destruct (detect_encoder w ffmpeg) as [t' [[codec preset] | e]];
      cbn [fst snd] in *.
    + destruct (calculate_target_bitrate info) as [planned | e] eqn:Hplan;
        cbv zeta; cbn [fst snd].
      * right. exists info, planned.
        split; [reflexivity |]. split; [exact Hplan |].
        rewrite !encode_bitrates_app, Hp, Hs. cbn [app].
        now apply attempts_loop_schedule.
      * left. now rewrite encode_bitrates_app, Hp, Hs.
    + left. now rewrite encode_bitrates_app, Hp, Hs.
  - left. now rewrite encode_bitrates_app, Hp.
  - left. exact Hp.
Qed.

(** ** What can escape *)

Lemma floor_raises (x : float) (e : exn) :
  floor x = Raise e -> e = OverflowError \/ e = ValueError.
Proof. destruct x; simpl; intros [= <-]; auto. Qed.










(** ** The entry point *)


(** ** Exit codes *)

(** What [main] returns, by the checks it makes and the result of the
    compression it starts. *)
Lemma main_result (w : World) :
  snd (main w) =
  if no_argument w then Ret 0
  else if input_missing w then Ret 1
  else if tools_missing w then Ret 2
  else match snd (main_run w) with
       | Ret true => Ret 0
       | Ret false => Ret 3
       | Raise e => Raise e
       end.
Proof.
  unfold main, main_run, main_input, no_argument, input_missing, tools_missing.
  destruct (Z.of_nat (List.length (argv w)) <? 2); [reflexivity |].
  destruct (negb (path_isfile w (nth 1 (argv w) ""))); [reflexivity |].
  destruct (negb (truthy (locate_tool w "ffmpeg"))
            || negb (truthy (locate_tool w "ffprobe"))); [reflexivity |].
  unfold notify. rewrite io_bind_emit. cbn [snd]. rewrite io_bind_result.
  destruct (snd (compress_video _ _ _ _ _)) as [[|] | e]; reflexivity.
Qed.

(** C7: the value [main] returns classifies the run, as long as it returns
    one.  It is 0 exactly when no argument was given, or the checks
    passed and [compress_video] returned [True], which it does only after
    an encode that exited with 0 and left a file of at most [TARGET_BYTES];
    1 exactly when an argument was given and it is not a file; 2 exactly
    when the file is there and ffmpeg or ffprobe was not located; 3
    exactly when the checks passed and [compress_video] returned [False]:
    the probe gave nothing, or an attempt failed to encode, left no file,
    could not be followed by a lower bitrate, or was the last and still
    over the target.  No other value is returned.  But [main] does not
    always return: an exception that escapes [compress_video] escapes
    [main] too, and the interpreter then ends the process with a
    traceback and status 1.  It happens on the source whose probe reports
    the duration ["nan"], though the argument is given, the input is a
    file and both tools are located. *)
Theorem main_exit_code :
  (forall w : World,
      (snd (main w) = Ret 0 <->
       no_argument w = true \/ (ready w = true /\ snd (main_run w) = Ret true)) /\
      (snd (main w) = Ret 1 <->
       no_argument w = false /\ input_missing w = true) /\
      (snd (main w) = Ret 2 <->
       no_argument w = false /\ input_missing w = false /\ tools_missing w = true) /\
      (snd (main w) = Ret 3 <->
       ready w = true /\ snd (main_run w) = Ret false) /\
      (forall code : Z, snd (main w) = Ret code -> In code [0; 1; 2; 3]) /\
      (forall e : exn,
          snd (main w) = Raise e <-> ready w = true /\ snd (main_run w) = Raise e) /\
      (snd (main_run w) = Ret true ->
       exists a : Z,
         1 <= a <= MAX_ATTEMPTS /\
         encode_returncode w a = Ret 0 /\
         output_exists w a = true /\
         output_size w a <= TARGET_BYTES /\
         encode_count (fst (main_run w)) = Z.to_nat a) /\
      (snd (main_run w) = Ret false ->
       (snd (get_video_info w (path_of (locate_tool w "ffprobe")) (main_input w))
        = Ret None /\
        encode_count (fst (main_run w)) = 0%nat) \/
       exists a : Z,
         1 <= a <= MAX_ATTEMPTS /\
         encode_count (fst (main_run w)) = Z.to_nat a /\
         failure_at w (fst (main_run w)) a)) /\
  (no_argument nan_source = false /\
   input_missing nan_source = false /\
   tools_missing nan_source = false /\
   snd (main nan_source) = Raise ValueError).
Proof.
  split; [| repeat split; vm_compute; reflexivity].
  intros w. pose proof (main_result w) as Hmain. unfold ready.
  split; [| split; [| split; [| split; [| split; [| split; [| split]]]]]].
  - rewrite Hmain.
    destruct (no_argument w); [intuition |].
    destruct (input_missing w); [intuition discriminate |].
    destruct (tools_missing w); [intuition discriminate |].
    destruct (snd (main_run w)) as [[|] | e]; cbn [negb andb];
      intuition discriminate.
  - rewrite Hmain.
    destruct (no_argument w); [intuition discriminate |].
    destruct (input_missing w); [intuition |].
    destruct (tools_missing w); [intuition discriminate |].
    destruct (snd (main_run w)) as [[|] | e]; intuition discriminate.
  - rewrite Hmain.
    destruct (no_argument w); [intuition discriminate |].
    destruct (input_missing w); [intuition discriminate |].
    destruct (tools_missing w); [intuition |].
    destruct (snd (main_run w)) as [[|] | e]; intuition discriminate.
  - rewrite Hmain.
    destruct (no_argument w); [intuition discriminate |].
    destruct (input_missing w); [intuition discriminate |].
    destruct (tools_missing w); [intuition discriminate |].
    destruct (snd (main_run w)) as [[|] | e]; cbn [negb andb];
      intuition discriminate.
  - intros code. rewrite Hmain.
    destruct (no_argument w); [intros [= <-]; simpl; auto |].
    destruct (input_missing w); [intros [= <-]; simpl; auto |].
    destruct (tools_missing w); [intros [= <-]; simpl; auto |].
    destruct (snd (main_run w)) as [[|] | e]; intros [= <-]; simpl; auto.
  - intros e. rewrite Hmain.
    destruct (no_argument w); [intuition discriminate |].
    destruct (input_missing w); [intuition discriminate |].
    destruct (tools_missing w); [intuition discriminate |].
    destruct (snd (main_run w)) as [[|] | e']; cbn [negb andb];
      intuition congruence.
  - intros Hyes. unfold main_run in *.
    destruct (compress_video_success _ _ _ _ _ Hyes)
      as (a & size_mb & Ha & _ & Hrc & Hex & Hsize & _ & _ & Hcount).
    exists a. auto.
  - intros Hno. unfold main_run in *.
    destruct (compress_video_failure _ _ _ _ _ Hno)
      as [(Hnone & _ & Hcount) | (a & Ha & _ & Hcount & Hcase)].
    + left. auto.
    + right. exists a. auto.
Qed.

(** ** The corrective bitrate, down to the floor *)

Local Open Scope Q_scope.

(** The corrective bitrate of an over-budget output, at or above the
    floor: it is computed, and before the clamp it is at most 97% of the
    current bitrate. *)
Lemma corrective_bitrate_candidate (video_bitrate out_size : Z) :
  (MIN_VIDEO_BITRATE <= video_bitrate)%Z ->
  (video_bitrate < 2 ^ 1022)%Z ->
  (TARGET_BYTES < out_size)%Z ->
  exists t : Z,
    corrective_bitrate video_bitrate out_size = Ret (Z.max MIN_VIDEO_BITRATE t) /\
    (0 <= t)%Z /\
    inject_Z t <= inject_Z video_bitrate * (97 # 100).
Proof.
  intros Hmin Hmax Hover.
  pose proof u_pos as Hu0. pose proof eta_pos as He0.
  pose proof u_small as Hu. pose proof eta_small as He.
  assert (80000 <= inject_Z video_bitrate) as Hcur.
  { change 80000 with (inject_Z MIN_VIDEO_BITRATE). now rewrite <- Zle_Qle. }
  assert (inject_Z video_bitrate < pow2 1022) as Hcur'.
  { rewrite pow2_Z by lia. now rewrite <- Zlt_Qlt. }
  assert (pow2 1022 * 2 == pow2 (emax - 1)) as Hdouble.
  { change (pow2 1022 * pow2 1 == pow2 (1022 + 1)). now rewrite pow2_add. }
  destruct (int_truediv_below_one TARGET_BYTES out_size)
    as (ratio & Hratio & Hrn & Hrv); [unfold TARGET_BYTES in *; lia |].
  pose proof (to_Q_nonneg ratio Hrn) as Hr0.
  pose proof lit_0_95_value as H95.
  assert (0 <= to_Q lit_0_95) as H95' by (vm_compute; discriminate).
  assert (is_finite (fmul ratio lit_0_95) = true) as Hsf_fin.
  { apply fmul_finite_small; try exact Hrn; try exact I.
    - destruct ratio as [| | | [] p e]; try exact I; try contradiction.
      rewrite to_Q_mant in Hrv. cbn [exponent_in_range].
      assert (mant (Z.pos p) e < 2) as H2 by lra.
      apply small_value_exponent in H2. unfold emax, prec. lia.
    - lra.
    - apply Qlt_le_trans with 2.
      + pose proof (mul_le_bounds _ _ (1000002 # 1000000) (95 # 100)
                      Hr0 ltac:(lra) H95' H95). lra.
      + change 2 with (pow2 1). apply pow2_le. unfold emax. lia. }
  destruct (fmul_upper ratio lit_0_95 Hrn I Hsf_fin) as [Hsn Hsv].
  set (scale_factor := fmul ratio lit_0_95) in *.
  pose proof (to_Q_nonneg scale_factor Hsn) as Hs0.
  assert (to_Q ratio * to_Q lit_0_95 <= 951 # 1000) as Hrl.
  { pose proof (mul_le_bounds _ _ (1000002 # 1000000) (95 # 100)
                  Hr0 ltac:(lra) H95' H95) as Hmul.
    lra. }
  assert (0 <= to_Q ratio * to_Q lit_0_95) as Hrl0
    by (now apply Qmult_le_0_compat).
  assert (to_Q scale_factor <= 96 # 100) as Hs96.
  { pose proof (grow_bound _ _ Hrl0 Hrl). lra. }
  destruct (of_int_finite video_bitrate) as (current & Hcurrent);
    [unfold MIN_VIDEO_BITRATE in *; lia | |].
  { apply Qlt_le_trans with (pow2 1022); [exact Hcur' |].
    apply pow2_le. unfold emax. lia. }
  destruct (of_int_upper video_bitrate current) as [Hcn Hcv];
    [unfold MIN_VIDEO_BITRATE in *; lia | exact Hcurrent |].
  pose proof (of_int_exponent _ _ Hcurrent) as Hce.
  pose proof (to_Q_nonneg current Hcn) as Hc0.
  assert (to_Q current <= inject_Z video_bitrate * (1000001 # 1000000) + (1 # 1000000))
    as Hc1.
  { pose proof (grow_bound (inject_Z video_bitrate) (inject_Z video_bitrate)
                  ltac:(lra) ltac:(lra)). lra. }
  assert (to_Q current * to_Q scale_factor <= to_Q current * (96 # 100)) as Hcs
    by (now apply mul_le_l).
  assert (0 <= to_Q current * to_Q scale_factor) as Hcs0
    by (now apply Qmult_le_0_compat).
  assert (is_finite (fmul current scale_factor) = true) as Hp_fin.
  { apply fmul_finite_small; try assumption; [lra |].
    rewrite <- Hdouble. lra. }
  destruct (fmul_upper current scale_factor Hcn Hsn Hp_fin) as [Hpn Hpv].
  destruct (trunc_nonneg _ Hpn) as (t & Ht & Ht0 & Htv).
  exists t.
  assert (to_Q (fmul current scale_factor)
          <= to_Q current * (96 # 100) * (1000001 # 1000000) + (1 # 1000000))
    as Hp1.
  { pose proof (grow_bound _ _ Hcs0 Hcs). lra. }
  split; [| split; [exact Ht0 | lra]].
  unfold corrective_bitrate, num_truediv, num_mul.
  rewrite Hratio. cbn [bind as_float]. rewrite Hcurrent. cbn [bind int_of].
  fold scale_factor. rewrite Ht. reflexivity.
Qed.

Local Open Scope Z_scope.

(** X13: for a bitrate at or above the floor (and below [2 ^ 1022]) and
    an output over the target, the corrective bitrate is computed, lies
    between the floor and the current bitrate, and fails the test
    [new_bitrate >= video_bitrate] of the loop exactly when the current
    bitrate is the floor itself: "cannot reduce further" is reported only
    at [MIN_VIDEO_BITRATE].  Above the floor the new bitrate is the floor
    or at most 97% of the current one. *)
Theorem cannot_reduce_only_at_floor (video_bitrate out_size : Z) :
  MIN_VIDEO_BITRATE <= video_bitrate ->
  video_bitrate < 2 ^ 1022 ->
  TARGET_BYTES < out_size ->
  exists candidate : Z,
    corrective_bitrate video_bitrate out_size = Ret candidate /\
    MIN_VIDEO_BITRATE <= candidate <= video_bitrate /\
    ((candidate >=? video_bitrate) = true <-> video_bitrate = MIN_VIDEO_BITRATE) /\
    (candidate = MIN_VIDEO_BITRATE \/ 100 * candidate <= 97 * video_bitrate).
Proof.
  intros Hmin Hmax Hover.
  destruct (corrective_bitrate_candidate video_bitrate out_size Hmin Hmax Hover)
    as (t & Hcorr & Ht0 & Ht).
  assert (100 * t <= 97 * video_bitrate) as Hz.
  { rewrite Zle_Qle, !inject_Z_mult.
    change (inject_Z 100) with 100%Q. change (inject_Z 97) with 97%Q.
    lra. }
  exists (Z.max MIN_VIDEO_BITRATE t). split; [exact Hcorr |].
  rewrite Z.geb_leb, Z.leb_le. unfold MIN_VIDEO_BITRATE in *. lia.
Qed.

Lemma cannot_reduce_only_at_floor_witness :
  exists candidate : Z,
    corrective_bitrate 988000 (10 * MiB) = Ret candidate /\
    MIN_VIDEO_BITRATE <= candidate <= 988000.
Proof.
  destruct (cannot_reduce_only_at_floor 988000 (10 * MiB))
    as (candidate & H1 & H2 & _); [vm_compute; discriminate | reflexivity
                                  | reflexivity |].
  exists candidate. split; assumption.
Defined.

(** ** Runs that return *)

(** The size in megabytes of a file of a size below [2 ^ 1000] bytes is
    computed. *)
Lemma size_in_mb_returns (out_size : Z) :
  0 <= out_size < 2 ^ 1000 -> exists s, size_in_mb out_size = Ret s.
Proof.
  intros [Hlow Hup]. unfold size_in_mb, num_truediv, int_truediv.
  change (1024 * 1024 =? 0) with false. cbv iota.
  destruct (Z.eqb_spec out_size 0) as [-> | Hnz]; [cbn; eauto |].
  assert ((out_size <? 0) = false) as -> by (apply Z.ltb_ge; lia).
  change (1024 * 1024 <? 0) with false. cbn [xorb].
  rewrite Z.abs_eq by lia. change (Z.abs (1024 * 1024)) with (2 ^ 20).
  destruct (div_core_spec out_size 0 (2 ^ 20) 0 ltac:(lia) ltac:(lia))
    as (q & e' & l & Hcore & Hq & He' & HeM & Hfexp & Hquot).
  rewrite Hcore.
  pose proof (round_aux_finite false q e' l Hq) as Hfin.
  assert (Zdigits2 q + e' <= emax - 1) as Hmag.
  { destruct (Z.eq_dec q 0) as [-> | Hqnz]; [cbn [Zdigits2]; unfold emax; lia |].
    pose proof (Zdigits2_bounds q ltac:(lia)) as [Hql _].
    pose proof (Zdigits2_log2 q ltac:(lia)) as Hdq.
    pose proof (Z.log2_nonneg q).
    assert (2 ^ (Zdigits2 q - 1) * 2 ^ 20 < 2 ^ 1000 * 2 ^ (0 - 0 - e')) as Hlt.
    { assert (0 < 2 ^ (0 - 0 - e')) by (apply Z.pow_pos_nonneg; lia).
      nia. }
    rewrite <- !Z.pow_add_r in Hlt by lia.
    apply Z.pow_lt_mono_r_iff in Hlt; [| lia | lia]. unfold emax. lia. }
  specialize (Hfin Hmag ltac:(unfold emax, prec; lia)).
  destruct (binary_round_aux prec emax false q e' l); try contradiction;
    cbn [bind]; eauto.
Qed.


Lemma planned_bitrate_in_range (info : VideoInfo) :
  valid_binary prec emax (duration info) = true ->
  (pow2 (-900) <= to_Q (duration info) <= pow2 900)%Q ->
  exists planned : Z,
    calculate_target_bitrate info = Ret planned /\
    MIN_VIDEO_BITRATE <= planned < 2 ^ 1022.
Proof.
  intros Hvalid Hrange.
  assert (ltb zero (duration info) = true) as Hpos.
  { destruct (duration info) as [| | | [] m e]; cbn [to_Q] in Hrange;
      try reflexivity; exfalso.
    1-3: pose proof (pow2_pos (-900)); lra.
    assert (inject_Z (Z.neg m) * 2 ^ e <= 0)%Q; [| pose proof (pow2_pos (-900)); lra].
    pose proof (pow2_pos e) as He. unfold pow2 in He.
    assert (inject_Z (Z.neg m) <= 0)%Q
      by (change 0%Q with (inject_Z 0); rewrite <- Zle_Qle; lia).
    nra. }
  destruct (planner_returns info Hvalid Hpos Hrange) as [r Hr].
  exists r. split; [exact Hr |].
  destruct (planned_bitrate_below_budget info r Hvalid Hpos Hr) as [Hlow Hup].
  split; [exact Hlow |].
  destruct (Z.eq_dec r MIN_VIDEO_BITRATE) as [-> | Hne]; [reflexivity |].
  specialize (Hup ltac:(lia)).
  rewrite Zlt_Qlt, <- pow2_Z by lia.
  apply Qlt_le_trans with (pow2 926); [| apply pow2_le; lia].
  assert (pow2 926 * pow2 (-900) == inject_Z TARGET_BITS)%Q as Hprod
    by (rewrite <- pow2_add; vm_compute; reflexivity).
  pose proof (pow2_pos (-900)). pose proof (pow2_pos 926).
  assert (0 <= inject_Z r)%Q
    by (change 0%Q with (inject_Z 0); rewrite <- Zle_Qle;
        unfold MIN_VIDEO_BITRATE in Hlow; lia).
  destruct (Qlt_le_dec (inject_Z r) (pow2 926)) as [Hlt | Hge]; [exact Hlt |].
  exfalso.
  assert (pow2 926 * pow2 (-900) <= inject_Z r * to_Q (duration info))%Q;
    [| lra].
  apply mul_le_bounds; lra.
Qed.



(** X16: on a source whose probed duration is between [2 ^ -900] and
    [2 ^ 900] seconds the planner returns a bitrate, the first encode is
    run at it, and its outcome decides the run when it is one of these: a
    failed encode ends the run with [False] and the "encoding failed"
    notice of attempt 1; a missing output with [False] and "output file
    not created"; an output of at most [TARGET_BYTES] with [True] and the
    success notice.  One encode has been run in each case. *)
Theorem first_attempt_decides (w : World)
    (input_path output_path ffmpeg ffprobe : string) (info : VideoInfo) :
  snd (get_video_info w ffprobe input_path) = Ret (Some info) ->
  valid_binary prec emax (duration info) = true ->
  (pow2 (-900) <= to_Q (duration info) <= pow2 900)%Q ->
  let run := compress_video w input_path output_path ffmpeg ffprobe in
  exists planned : Z,
    calculate_target_bitrate info = Ret planned /\
    (encode_returncode w 1 <> Ret 0 ->
     snd run = Ret false /\
     notifications (fst run) = [NotifyEncodingFailed 1] /\
     encode_bitrates (fst run) = [planned]) /\
    (encode_returncode w 1 = Ret 0 -> output_exists w 1 = false ->
     snd run = Ret false /\
     notifications (fst run) = [NotifyOutputMissing] /\
     encode_bitrates (fst run) = [planned]) /\
    (encode_returncode w 1 = Ret 0 -> output_exists w 1 = true ->
     0 <= output_size w 1 <= TARGET_BYTES ->
     snd run = Ret true /\
     (exists size_mb,
         notifications (fst run)
         = [NotifyComplete (path_name w input_path) size_mb]) /\
     encode_bitrates (fst run) = [planned]).
Proof.
  intros Hinfo Hvalid Hrange. cbv zeta.
  destruct (planned_bitrate_in_range info Hvalid Hrange) as (planned & Hplan & Hb).
  exists planned. split; [exact Hplan |].
  rewrite compress_video_eq.
  pose proof (prober_quiet w ffprobe input_path) as (Hpn & _ & _).
  pose proof (selector_quiet w ffmpeg) as (Hsn & _ & _).
  pose proof (get_video_info_no_encode w ffprobe input_path) as Hpb.
  pose proof (detect_encoder_no_encode w ffmpeg) as Hsb.
  pose proof (detect_encoder_never_raises w ffmpeg) as Hs.
  destruct (get_video_info w ffprobe input_path) as [t r].
  cbn [fst snd] in *. subst r.
  destruct (detect_encoder w ffmpeg) as [t' [[codec preset] | e]];
    cbn [fst snd] in *; [| now destruct (Hs e)].
  rewrite Hplan. cbv zeta. cbn [fst snd].
  rewrite !notifications_app, !encode_bitrates_app, Hpn, Hsn, Hpb, Hsb.
  cbn [app count_from attempts_loop]. rewrite attempt_body_eq.
  destruct (maxrate_computed planned) as [maxrate Hrate];
    [unfold MIN_VIDEO_BITRATE in Hb; lia |].
  fold (maxrate_of planned) in Hrate. rewrite Hrate. cbv zeta.
  split; [| split].
  - intros Hrc.
    destruct (encode_returncode w 1) as [[| rc | rc] | e]; try contradiction;
      cbn; auto.
  - intros -> ->. cbn. auto.
  - intros -> -> Hsize.
    destruct (size_in_mb_returns (output_size w 1)) as [size_mb ->];
      [change TARGET_BYTES with 8388608 in Hsize; lia |].
    destruct Hsize as [_ Hsize]. apply Z.leb_le in Hsize. rewrite Hsize.
    cbn. eauto.
Qed.

Lemma first_attempt_decides_witness :
  snd (compress_video no_listing "in.mp4" "8mb[in].mp4"
         "/usr/bin/ffmpeg" "/usr/bin/ffprobe") = Ret true /\
  encode_bitrates
    (fst (compress_video no_listing "in.mp4" "8mb[in].mp4"
            "/usr/bin/ffmpeg" "/usr/bin/ffprobe")) = [988000].
Proof.
  destruct (first_attempt_decides no_listing "in.mp4" "8mb[in].mp4"
              "/usr/bin/ffmpeg" "/usr/bin/ffprobe"
              (info_of (float_of 60) true)
              ltac:(vm_compute; reflexivity) ltac:(reflexivity)
              ltac:(split; vm_compute; discriminate))
    as (planned & Hplan & _ & _ & Hfit).
  vm_compute in Hplan. injection Hplan as <-.
  destruct (Hfit eq_refl eq_refl ltac:(split; vm_compute; discriminate))
    as (Hrun & _ & Hrates).
  split; assumption.
Defined.

(** ** Degenerate durations *)

Lemma binary_normalize_not_nan (m e : Z) (szero : bool) :
  is_nan (binary_normalize prec emax m e szero) = false.
Proof.
  destruct m as [| p | p]; cbn [binary_normalize]; [reflexivity | |].
  - pose proof (binary_round_shape false p e) as H.
    destruct (binary_round prec emax false p e); try reflexivity; contradiction.
  - pose proof (binary_round_shape true p e) as H.
    destruct (binary_round prec emax true p e); try reflexivity; contradiction.
Qed.

Lemma fmul_finite_not_nan (sx sy : bool) (mx my : positive) (ex ey : Z) :
  is_nan (fmul (S754_finite sx mx ex) (S754_finite sy my ey)) = false.
Proof.
  unfold fmul. cbn [SFmul].
  pose proof (round_aux_shape (xorb sx sy) (Z.pos (mx * my)) (ex + ey) loc_Exact
                ltac:(lia)) as H.
  destruct (binary_round_aux _ _ _ _ _ _); try reflexivity; contradiction.
Qed.

Lemma fsub_finite_not_nan (sx : bool) (mx : positive) (ex : Z) (y : float) :
  is_nan y = false -> is_nan (fsub (S754_finite sx mx ex) y) = false.
Proof.
  unfold fsub. destruct y as [sy | sy | | sy my ey]; cbn [SFsub is_nan];
    try reflexivity; try discriminate.
  intros _. apply binary_normalize_not_nan.
Qed.

Lemma fdiv_finite_not_nan (x : float) (sy : bool) (my : positive) (ey : Z) :
  is_nan x = false -> is_nan (fdiv x (S754_finite sy my ey)) = false.
Proof.
  unfold fdiv. destruct x as [sx | sx | | sx mx ex]; cbn [SFdiv is_nan];
    try reflexivity; try discriminate.
  intros _.
  destruct (div_core_spec (Z.pos mx) ex (Z.pos my) ey ltac:(lia) ltac:(lia))
    as (q & e' & l & Hcore & Hq & _).
  rewrite Hcore.
  pose proof (round_aux_shape (xorb sx sy) q e' l Hq) as H.
  destruct (binary_round_aux _ _ _ _ _ _); try reflexivity; contradiction.
Qed.

Lemma floor_value_error (x : float) :
  floor x = Raise ValueError <-> is_nan x = true.
Proof. destruct x; simpl; split; congruence. Qed.

(** X5: what [calculate_target_bitrate] does when called on a duration
    the prober's guard would not let through, or lets through by
    mistake.  It raises [ZeroDivisionError] exactly when the duration is
    a zero; [ValueError] exactly when it is a NaN, or an infinity on a
    source with audio; and on an infinite duration without audio it
    returns the floor, [MIN_VIDEO_BITRATE]. *)
Theorem planner_degenerate_durations (info : VideoInfo) :
  (calculate_target_bitrate info = Raise ZeroDivisionError <->
   is_zero (duration info) = true) /\
  (calculate_target_bitrate info = Raise ValueError <->
   is_nan (duration info) = true \/
   ((exists s, duration info = S754_infinity s) /\ has_audio info = true)) /\
  ((exists s, duration info = S754_infinity s) /\ has_audio info = false ->
   calculate_target_bitrate info = Ret MIN_VIDEO_BITRATE).
Proof.
  rewrite calculate_target_bitrate_eq. cbv zeta.
  destruct audio_rate_value as (ma & ea & Hrate). rewrite Hrate.
  destruct thousand_value as (mk & ek & Hk & _). rewrite Hk.
  change budget_bits with (S754_finite false 8736983277098762 (-27)).
  destruct (duration info) as [sd | sd | | sd md ed] eqn:Hd; cbn [is_zero is_nan].
  - (* zero *)
    split; [tauto |]. split.
    + split; [discriminate | intros [[=] | [[s [=]] _]]].
    + intros [[s [=]] _].
  - (* infinite *)
    split; [split; [| discriminate] |].
    { intros H. destruct (floor _) eqn:Hf; cbn [bind] in H; [discriminate |].
      injection H as ->. apply floor_raises in Hf. destruct Hf; discriminate. }
    destruct (has_audio info).
    + split; [| intros [_ [=]]].
      destruct sd; (split; [intros _; right; eauto | intros _; reflexivity]).
    + split; [| intros _; destruct sd; reflexivity].
      destruct sd; (split; [discriminate | intros [[=] | [_ [=]]]]).
  - (* not a number *)
    split; [split; [| discriminate] |].
    { destruct (has_audio info); discriminate. }
    split; [| intros [[s [=]] _]].
    destruct (has_audio info); (split; [auto | reflexivity]).
  - (* a finite number *)
    set (audio_bits := if has_audio info
                       then fmul (S754_finite false ma ea) (S754_finite sd md ed)
                       else zero).
    assert (is_nan audio_bits = false) as Ha.
    { unfold audio_bits. destruct (has_audio info);
        [apply fmul_finite_not_nan | reflexivity]. }
    pose proof (fsub_finite_not_nan false 8736983277098762 (-27) _ Ha) as Hs.
    pose proof (fdiv_finite_not_nan _ sd md ed Hs) as Hq.
    pose proof (fdiv_finite_not_nan _ false mk ek Hq) as Hq'.
    destruct (floor _) as [n | e] eqn:Hfloor; cbn [bind].
    + split; [split; discriminate |].
      split; [split; [discriminate | intros [[=] | [[s [=]] _]]] |].
      intros [[s [=]] _].
    + split; [split; [| discriminate] |].
      { intros [= ->]. apply floor_raises in Hfloor.
        destruct Hfloor; discriminate. }
      split; [| intros [[s [=]] _]].
      split; [| intros [[=] | [[s [=]] _]]].
      intros [= ->]. apply floor_value_error in Hfloor. congruence.
Qed.

(** ** Rounding from below *)

Local Open Scope Z_scope.

(** What an exact input loses to [binary_round_aux], in integers: the
    result, one unit of its own exponent added, is above the input; the
    exponent of the result is at most one above the rounding exponent; and
    nothing is lost when the input needs no shift. *)
Lemma round_aux_lower_Z (s : bool) (m e : Z) :
  0 < m ->
  exists q e3 : Z,
    0 <= q /\
    binary_round_aux prec emax s m e loc_Exact =
    match q with
    | Z0 => S754_zero s
    | Zpos p => if e3 <=? emax - prec then S754_finite s p e3 else S754_infinity s
    | Zneg _ => S754_nan
    end /\
    e <= e3 /\
    m < (q + 1) * 2 ^ (e3 - e) /\
    (target_exp m e = e -> q = m /\ e3 = e) /\
    (e < target_exp m e -> e3 <= fexp (Zdigits2 m + e) + 1).
Proof.
  intros Hm.
  destruct (binary_round_aux_spec s m e loc_Exact ltac:(lia))
    as (m2 & Hm2 & Hexact & Hspec).
  pose proof (target_exp_ge m e) as He1.
  set (e1 := target_exp m e) in *.
  pose proof (target_exp_ge m2 e1) as He3.
  set (e3 := target_exp m2 e1) in *.
  assert (0 < 2 ^ (e1 - e)) as Hp1 by (apply Z.pow_pos_nonneg; lia).
  assert (0 < 2 ^ (e3 - e1)) as Hp3 by (apply Z.pow_pos_nonneg; lia).
  assert (0 <= m / 2 ^ (e1 - e)) as Hq1 by (apply Z.div_pos; lia).
  assert (0 <= m2) as Hm2' by (destruct Hm2; lia).
  exists (m2 / 2 ^ (e3 - e1)), e3.
  split; [apply Z.div_pos; lia |]. split; [exact Hspec |].
  split; [lia |]. split; [| split].
  - replace (e3 - e) with ((e3 - e1) + (e1 - e)) by lia.
    rewrite Z.pow_add_r by lia.
    pose proof (Z.mod_pos_bound m (2 ^ (e1 - e)) Hp1) as Hr1.
    pose proof (Z.div_mod m (2 ^ (e1 - e)) ltac:(lia)) as Hd1.
    pose proof (Z.mod_pos_bound m2 (2 ^ (e3 - e1)) Hp3) as Hr3.
    pose proof (Z.div_mod m2 (2 ^ (e3 - e1)) ltac:(lia)) as Hd3.
    assert (m < (m2 + 1) * 2 ^ (e1 - e)) as Hlt1 by (destruct Hm2 as [-> | ->]; nia).
    assert (m2 + 1 <= (m2 / 2 ^ (e3 - e1) + 1) * 2 ^ (e3 - e1)) as Hle3 by nia.
    nia.
  - intros Hno. specialize (Hexact eq_refl Hno). subst m2.
    unfold e3. rewrite Hno. fold e1. rewrite Hno.
    rewrite Z.sub_diag. change (2 ^ 0) with 1. rewrite Z.div_1_r. auto.
  - intros Hshift.
    assert (e1 = fexp (Zdigits2 m + e)) as He1eq by (unfold e1, target_exp in *; lia).
    rewrite <- He1eq.
    assert (Zdigits2 m2 <= 54) as Hd2.
    { assert (Zdigits2 (m / 2 ^ (e1 - e)) <= 53) as Hd.
      { destruct (Z.eq_dec (m / 2 ^ (e1 - e)) 0) as [-> | Hnz]; [simpl; lia |].
        rewrite Zdigits2_div_pow2 by lia.
        rewrite He1eq, fexp_eq. lia. }
      destruct Hm2 as [-> | ->]; [lia |].
      pose proof (Zdigits2_succ (m / 2 ^ (e1 - e)) Hq1). lia. }
    assert (-1074 <= e1) as Hlow by (rewrite He1eq, fexp_eq; lia).
    unfold e3, target_exp. rewrite fexp_eq. lia.
Qed.

Local Open Scope Q_scope.

(** In value: an exact input loses at most two units of the relative
    error and two of the absolute one. *)
Lemma round_aux_value_lower (m e : Z) :
  (0 < m)%Z ->
  is_finite (binary_round_aux prec emax false m e loc_Exact) = true ->
  mant m e * (1 - 2 * u) - 2 * eta
  <= to_Q (binary_round_aux prec emax false m e loc_Exact).
Proof.
  intros Hm Hfin.
  destruct (round_aux_lower_Z false m e Hm)
    as (q & e3 & Hq & Hspec & He3 & Hlt & Hexact & Hshift).
  pose proof u_pos as Hu. pose proof eta_pos as Heta.
  pose proof (mant_nonneg m e ltac:(lia)) as Hx.
  assert (to_Q (binary_round_aux prec emax false m e loc_Exact) == mant q e3)
    as Hval.
  { rewrite Hspec in *. destruct q as [| p | p]; [| | lia].
    - unfold mant. cbn [to_Q]. ring.
    - destruct (e3 <=? emax - prec)%Z; [reflexivity | discriminate]. }
  rewrite Hval.
  pose proof (target_exp_ge m e) as Hge.
  destruct (Z.eq_dec (target_exp m e) e) as [Hno | Hyes].
  - destruct (Hexact Hno) as [-> ->].
    assert (mant m e * u >= 0) by nra. lra.
  - specialize (Hshift ltac:(lia)).
    apply Z.lt_le_incl in Hlt. apply (mant_le _ _ e) in Hlt.
    rewrite <- (mant_shift (q + 1) e e3) in Hlt by lia.
    rewrite mant_plus in Hlt.
    assert (mant 1 e3 <= 2 * (mant m e * u + eta)) as Hulp.
    { unfold mant. change (inject_Z 1) with 1. rewrite Qmult_1_l.
      apply Qle_trans with (pow2 (fexp (Zdigits2 m + e) + 1)).
      - apply pow2_le. exact Hshift.
      - rewrite pow2_add. change (pow2 1) with 2.
        pose proof (ulp_bound m e Hm) as Hb. unfold mant in Hb. lra. }
    lra.
Qed.

Lemma fmul_lower (mx my : positive) (ex ey : Z) :
  is_finite (fmul (S754_finite false mx ex) (S754_finite false my ey)) = true ->
  mant (Z.pos mx) ex * mant (Z.pos my) ey * (1 - 2 * u) - 2 * eta
  <= to_Q (fmul (S754_finite false mx ex) (S754_finite false my ey)).
Proof.
  unfold fmul. cbn [SFmul xorb]. intros Hfin.
  pose proof (round_aux_value_lower (Z.pos (mx * my)) (ex + ey) ltac:(lia) Hfin)
    as Hlow.
  assert (mant (Z.pos (mx * my)) (ex + ey)
          == mant (Z.pos mx) ex * mant (Z.pos my) ey) as Hprod.
  { unfold mant. rewrite Pos2Z.inj_mul, inject_Z_mult, pow2_add. ring. }
  rewrite Hprod in Hlow. exact Hlow.
Qed.

(** Subtracting a float that is zero or above from a positive one, with a
    positive finite result: the subtrahend is below the minuend, and the
    result at most the exact difference grown by the rounding errors. *)
Lemma fsub_upper (mb : positive) (eb : Z) (y : float) (p : positive) (e : Z) :
  nonneg_finite y ->
  fsub (S754_finite false mb eb) y = S754_finite false p e ->
  to_Q y <= mant (Z.pos mb) eb /\
  mant (Z.pos p) e <= (mant (Z.pos mb) eb - to_Q y) * (1 + u) + eta.
Proof.
  pose proof u_pos. pose proof eta_pos.
  pose proof (mant_nonneg (Z.pos mb) eb ltac:(lia)) as Hb.
  unfold fsub.
  destruct y as [sy | [] | | [] my ey]; cbn [nonneg_finite SFsub];
    try easy; intros _.
  - intros [= <- <-]. cbn [to_Q].
    assert (0 <= mant (Z.pos mb) eb * u) by (apply Qmult_le_0_compat; lra).
    split; lra.
  - cbn [cond_Zopp]. rewrite to_Q_mant.
    set (ez := Z.min eb ey).
    pose proof (shl_align_value mb eb ez ltac:(unfold ez; lia)) as Hvb.
    pose proof (shl_align_value my ey ez ltac:(unfold ez; lia)) as Hvy.
    set (mb' := fst (shl_align mb eb ez)) in *.
    set (my' := fst (shl_align my ey ez)) in *.
    destruct (Z.pos mb' - Z.pos my')%Z as [| d | d] eqn:Hd;
      cbn [binary_normalize]; try discriminate.
    + intros Hround.
      destruct (binary_round_value_upper false d ez false p e Hround) as [_ Hup].
      assert (mant (Z.pos d) ez == mant (Z.pos mb') ez - mant (Z.pos my') ez)
        as Hdiff.
      { rewrite <- Hd. unfold mant, Z.sub.
        rewrite inject_Z_plus, inject_Z_opp. ring. }
      rewrite Hvb, Hvy in Hdiff. rewrite Hdiff in Hup.
      pose proof (mant_nonneg (Z.pos d) ez ltac:(lia)) as Hd0.
      split; lra.
    + intros Hround.
      pose proof (binary_round_shape true d ez) as Hshape.
      rewrite Hround in Hshape. discriminate.
Qed.

Lemma u_tiny : u <= 1 # 1000000000000000.
Proof. vm_compute. discriminate. Qed.

Local Open Scope Z_scope.

(** The same from any location, for an input at or below its rounding
    exponent (what the division hands over). *)
Lemma round_aux_lower_any (s : bool) (m e : Z) (l : location) :
  0 <= m ->
  e <= fexp (Zdigits2 m + e) ->
  exists q e3 : Z,
    0 <= q /\
    binary_round_aux prec emax s m e l =
    match q with
    | Z0 => S754_zero s
    | Zpos p => if e3 <=? emax - prec then S754_finite s p e3 else S754_infinity s
    | Zneg _ => S754_nan
    end /\
    e <= e3 /\
    m < (q + 1) * 2 ^ (e3 - e) /\
    e3 <= fexp (Zdigits2 m + e) + 1.
Proof.
  intros Hm Hle.
  destruct (binary_round_aux_spec s m e l Hm) as (m2 & Hm2 & _ & Hspec).
  pose proof (target_exp_ge m e) as He1.
  assert (target_exp m e = fexp (Zdigits2 m + e)) as He1eq
    by (unfold target_exp; lia).
  set (e1 := target_exp m e) in *.
  pose proof (target_exp_ge m2 e1) as He3.
  set (e3 := target_exp m2 e1) in *.
  assert (0 < 2 ^ (e1 - e)) as Hp1 by (apply Z.pow_pos_nonneg; lia).
  assert (0 < 2 ^ (e3 - e1)) as Hp3 by (apply Z.pow_pos_nonneg; lia).
  assert (0 <= m / 2 ^ (e1 - e)) as Hq1 by (apply Z.div_pos; lia).
  assert (0 <= m2) as Hm2' by (destruct Hm2; lia).
  exists (m2 / 2 ^ (e3 - e1)), e3.
  split; [apply Z.div_pos; lia |]. split; [exact Hspec |].
  split; [lia |]. split.
  - replace (e3 - e) with ((e3 - e1) + (e1 - e)) by lia.
    rewrite Z.pow_add_r by lia.
    pose proof (Z.mod_pos_bound m (2 ^ (e1 - e)) Hp1) as Hr1.
    pose proof (Z.div_mod m (2 ^ (e1 - e)) ltac:(lia)) as Hd1.
    pose proof (Z.mod_pos_bound m2 (2 ^ (e3 - e1)) Hp3) as Hr3.
    pose proof (Z.div_mod m2 (2 ^ (e3 - e1)) ltac:(lia)) as Hd3.
    assert (m < (m2 + 1) * 2 ^ (e1 - e)) as Hlt1 by (destruct Hm2 as [-> | ->]; nia).
    assert (m2 + 1 <= (m2 / 2 ^ (e3 - e1) + 1) * 2 ^ (e3 - e1)) as Hle3 by nia.
    nia.
  - rewrite <- He1eq.
    assert (Zdigits2 m2 <= 54) as Hd2.
    { assert (Zdigits2 (m / 2 ^ (e1 - e)) <= 53) as Hd.
      { destruct (Z.eq_dec (m / 2 ^ (e1 - e)) 0) as [-> | Hnz]; [simpl; lia |].
        rewrite Zdigits2_div_pow2 by lia.
        rewrite He1eq, fexp_eq. lia. }
      destruct Hm2 as [-> | ->]; [lia |].
      pose proof (Zdigits2_succ (m / 2 ^ (e1 - e)) Hq1). lia. }
    assert (-1074 <= e1) as Hlow by (rewrite He1eq, fexp_eq; lia).
    unfold e3, target_exp. rewrite fexp_eq. lia.
Qed.

Local Open Scope Q_scope.

Lemma round_aux_value_lower_any (m e : Z) (l : location) :
  (0 <= m)%Z ->
  (e <= fexp (Zdigits2 m + e))%Z ->
  is_finite (binary_round_aux prec emax false m e l) = true ->
  mant m e * (1 - 2 * u) - 2 * eta
  <= to_Q (binary_round_aux prec emax false m e l).
Proof.
  intros Hm Hle Hfin.
  destruct (round_aux_lower_any false m e l Hm Hle)
    as (q & e3 & Hq & Hspec & He3 & Hlt & Hshift).
  pose proof u_pos as Hu. pose proof eta_pos as Heta.
  pose proof (mant_nonneg m e Hm) as Hx.
  assert (to_Q (binary_round_aux prec emax false m e l) == mant q e3) as Hval.
  { rewrite Hspec in *. destruct q as [| p | p]; [| | lia].
    - unfold mant. cbn [to_Q]. ring.
    - destruct (e3 <=? emax - prec)%Z; [reflexivity | discriminate]. }
  rewrite Hval.
  apply Z.lt_le_incl in Hlt. apply (mant_le _ _ e) in Hlt.
  rewrite <- (mant_shift (q + 1) e e3) in Hlt by lia.
  rewrite mant_plus in Hlt.
  assert (mant 1 e3 <= 2 * (mant m e * u + eta)) as Hulp.
  { unfold mant at 1. change (inject_Z 1) with 1. rewrite Qmult_1_l.
    apply Qle_trans with (pow2 (fexp (Zdigits2 m + e) + 1)).
    - apply pow2_le. exact Hshift.
    - rewrite pow2_add. change (pow2 1) with 2.
      destruct (Z.eq_dec m 0) as [-> | Hnz].
      + cbn [Zdigits2] in *. rewrite fexp_eq in *.
        rewrite Z.max_r by lia. fold eta.
        unfold mant. change (inject_Z 0) with 0. lra.
      + pose proof (ulp_bound m e ltac:(lia)) as Hb. lra. }
  lra.
Qed.

Lemma binary_round_value_lower (mx : positive) (ex : Z) (p : positive) (e : Z) :
  binary_round prec emax false mx ex = S754_finite false p e ->
  mant (Z.pos mx) ex * (1 - 2 * u) - 2 * eta <= mant (Z.pos p) e.
Proof.
  unfold binary_round. intros Hround.
  destruct (shl_align_spec mx ex (fexp (Z.pos (digits2_pos mx) + ex)))
    as [He Hm].
  destruct (shl_align mx ex (fexp (Z.pos (digits2_pos mx) + ex))) as [mz ez].
  cbn [fst snd] in *.
  assert (mant (Z.pos mz) ez == mant (Z.pos mx) ex) as <-.
  { rewrite Hm, He. symmetry. apply mant_shift. lia. }
  pose proof (round_aux_value_lower (Z.pos mz) ez ltac:(lia)) as Hlow.
  rewrite Hround in Hlow. apply Hlow. reflexivity.
Qed.

(** The difference of two positive floats, from below. *)
Lemma fsub_lower (mb : positive) (eb : Z) (y : float) (p : positive) (e : Z) :
  nonneg_finite y ->
  fsub (S754_finite false mb eb) y = S754_finite false p e ->
  (mant (Z.pos mb) eb - to_Q y) * (1 - 2 * u) - 2 * eta <= mant (Z.pos p) e.
Proof.
  pose proof u_pos. pose proof eta_pos.
  pose proof (mant_nonneg (Z.pos mb) eb ltac:(lia)) as Hb.
  unfold fsub.
  destruct y as [sy | [] | | [] my ey]; cbn [nonneg_finite SFsub];
    try easy; intros _.
  - intros [= <- <-]. cbn [to_Q].
    assert (0 <= mant (Z.pos mb) eb * u) by (apply Qmult_le_0_compat; lra).
    lra.
  - cbn [cond_Zopp]. rewrite to_Q_mant.
    set (ez := Z.min eb ey).
    pose proof (shl_align_value mb eb ez ltac:(unfold ez; lia)) as Hvb.
    pose proof (shl_align_value my ey ez ltac:(unfold ez; lia)) as Hvy.
    set (mb' := fst (shl_align mb eb ez)) in *.
    set (my' := fst (shl_align my ey ez)) in *.
    destruct (Z.pos mb' - Z.pos my')%Z as [| d | d] eqn:Hd;
      cbn [binary_normalize]; try discriminate.
    + intros Hround.
      pose proof (binary_round_value_lower d ez p e Hround) as Hlow.
      assert (mant (Z.pos d) ez == mant (Z.pos mb') ez - mant (Z.pos my') ez)
        as Hdiff.
      { rewrite <- Hd. unfold mant, Z.sub.
        rewrite inject_Z_plus, inject_Z_opp. ring. }
      rewrite Hvb, Hvy in Hdiff. rewrite Hdiff in Hlow. exact Hlow.
    + intros Hround.
      pose proof (binary_round_shape true d ez) as Hshape.
      rewrite Hround in Hshape. discriminate.
Qed.

Local Open Scope Z_scope.

(** The quotient the division hands to the rounding is less than one unit
    below the exact quotient. *)
Lemma div_core_remainder (m1 e1 m2 e2 q e' : Z) (l : location) :
  0 < m1 -> 0 < m2 ->
  SFdiv_core_binary prec emax m1 e1 m2 e2 = (q, e', l) ->
  m1 * 2 ^ (e1 - e2 - e') < (q + 1) * m2.
Proof.
  intros Hm1 Hm2. unfold SFdiv_core_binary.
  set (M := Zdigits2 m1 + e1 - (Zdigits2 m2 + e2)).
  set (e0 := Z.min (fexp M) (e1 - e2)).
  set (s := e1 - e2 - e0).
  assert (0 <= s) as Hs by (unfold s, e0; lia).
  set (m' := match s with Z.pos _ => Z.shiftl m1 s | Z0 => m1 | Z.neg _ => 0 end).
  assert (m' = m1 * 2 ^ s) as Hm'.
  { unfold m'. destruct s as [| ps | ps]; [simpl; lia | | lia].
    now rewrite Z.shiftl_mul_pow2 by lia. }
  pose proof (Z_div_mod m' m2 ltac:(lia)) as Hdiv.
  destruct (Z.div_eucl m' m2) as [q0 r]. destruct Hdiv as [Hdiv Hr].
  intros [= <- <- _]. fold s. rewrite <- Hm'. nia.
Qed.

Local Open Scope Q_scope.

(** A positive finite quotient of positive floats, from below. *)
Lemma fdiv_lower (mx my : positive) (ex ey : Z) (p : positive) (e : Z) :
  fdiv (S754_finite false mx ex) (S754_finite false my ey) = S754_finite false p e ->
  mant (Z.pos mx) ex * (1 - 3 * u) - 3 * (eta * mant (Z.pos my) ey)
  <= mant (Z.pos p) e * mant (Z.pos my) ey.
Proof.
  unfold fdiv. cbn [SFdiv xorb].
  destruct (div_core_spec (Z.pos mx) ex (Z.pos my) ey ltac:(lia) ltac:(lia))
    as (q & e' & l & Hcore & Hq & He' & _ & Hfexp & Hquot).
  pose proof (div_core_remainder (Z.pos mx) ex (Z.pos my) ey q e' l
                ltac:(lia) ltac:(lia) Hcore) as Hrem.
  rewrite Hcore. intros Hround.
  pose proof (round_aux_value_lower_any q e' l Hq Hfexp) as Hlow.
  rewrite Hround in Hlow. specialize (Hlow eq_refl). rewrite to_Q_mant in Hlow.
  pose proof (div_core_value _ _ _ _ _ _ He' Hquot) as Hval.
  pose proof u_pos as Hu. pose proof eta_pos as Heta.
  pose proof (mant_nonneg (Z.pos my) ey ltac:(lia)) as Hy.
  pose proof (mant_nonneg (Z.pos mx) ex ltac:(lia)) as Hx.
  pose proof (mant_nonneg q e' Hq) as Hqv.
  (* the exact quotient is below the next candidate *)
  assert (mant (Z.pos mx) ex <= mant (q + 1) e' * mant (Z.pos my) ey) as Hnext.
  { apply Z.lt_le_incl in Hrem.
    replace (ex - ey - e')%Z with (ex - (e' + ey))%Z in Hrem by lia.
    apply (mant_le _ _ (e' + ey)) in Hrem.
    rewrite <- (mant_shift (Z.pos mx) (e' + ey) ex) in Hrem by lia.
    assert (mant ((q + 1) * Z.pos my) (e' + ey)
            == mant (q + 1) e' * mant (Z.pos my) ey) as <-; [| exact Hrem].
    unfold mant. rewrite inject_Z_mult, pow2_add. ring. }
  rewrite mant_plus in Hnext.
  assert (mant 1 e' <= mant q e' * u + eta) as Hulp.
  { unfold mant at 1. change (inject_Z 1) with 1. rewrite Qmult_1_l.
    apply Qle_trans with (pow2 (fexp (Zdigits2 q + e'))); [now apply pow2_le |].
    destruct (Z.eq_dec q 0) as [-> | Hnz].
    - cbn [Zdigits2] in *. rewrite fexp_eq in *. rewrite Z.max_r by lia.
      fold eta. unfold mant. change (inject_Z 0) with 0. lra.
    - apply ulp_bound. lia. }
  set (X := mant (Z.pos mx) ex) in *.
  set (Y := mant (Z.pos my) ey) in *.
  set (Mq := mant q e') in *.
  set (R := mant (Z.pos p) e) in *.
  pose proof (mul_le_l _ _ _ Hy Hulp) as H1.
  pose proof (mul_le_l _ _ _ Hy Hlow) as H2.
  assert (0 <= Mq * Y) as HqY by (apply Qmult_le_0_compat; lra).
  assert (Mq * Y * u <= X * u) as H3 by (apply Qmult_le_compat_r; lra).
  lra.
Qed.

(** [math.floor] of a positive finite float, from above. *)
Lemma floor_upper (p : positive) (e : Z) (n : Z) :
  floor (S754_finite false p e) = Ret n -> mant (Z.pos p) e < inject_Z n + 1.
Proof.
  unfold floor. intros H.
  apply (f_equal (fun r => match r with Ret z => z | Raise _ => 0%Z end)) in H.
  cbv beta iota in H. subst n.
  destruct (0 <=? e)%Z eqn:He.
  - apply Z.leb_le in He. unfold mant.
    rewrite inject_Z_mult, pow2_Z by lia. lra.
  - apply Z.leb_gt in He.
    assert (0 < 2 ^ (- e))%Z as Hp by (apply Z.pow_pos_nonneg; lia).
    pose proof (Z.mod_pos_bound (Z.pos p) (2 ^ (- e)) Hp) as Hr.
    pose proof (Z.div_mod (Z.pos p) (2 ^ (- e)) ltac:(lia)) as Hd.
    assert (Z.pos p < (Z.pos p / 2 ^ (- e) + 1) * 2 ^ (- e))%Z as Hlt by nia.
    apply (mant_lt _ _ e) in Hlt.
    assert (mant ((Z.pos p / 2 ^ (- e) + 1) * 2 ^ (- e)) e
            == inject_Z (Z.pos p / 2 ^ (- e)) + 1) as Heq.
    { replace (- e)%Z with (0 - e)%Z by lia.
      rewrite <- (mant_shift _ e 0) by lia. unfold mant.
      change (pow2 0) with 1. rewrite inject_Z_plus. change (inject_Z 1) with 1.
      ring. }
    rewrite Heq in Hlt. exact Hlt.
Qed.

Lemma budget_bits_lower : 65095598 <= mant 8736983277098762 (-27).
Proof. vm_compute. discriminate. Qed.

(** X6: above the floor the planner uses the margin it is given, and no
    more.  The planned video bitrate plus the audio bitrate reserved
    (96,000 bit/s when the source has audio), times the duration, is at
    most 97.01% of [TARGET_BITS]; and with one step of 1000 bit/s more it
    would be at least 96.99% of it. *)
Theorem planned_bits_fill_the_margin (info : VideoInfo) (r : Z) :
  valid_binary prec emax (duration info) = true ->
  ltb zero (duration info) = true ->
  calculate_target_bitrate info = Ret r ->
  (MIN_VIDEO_BITRATE < r)%Z ->
  let audio := if has_audio info then AUDIO_BITRATE else 0%Z in
  inject_Z (r + audio) * to_Q (duration info)
  <= inject_Z TARGET_BITS * (9701 # 10000) /\
  inject_Z TARGET_BITS * (9699 # 10000)
  <= inject_Z (r + 1000 + audio) * to_Q (duration info).
Proof.
  intros Hvalid Hpos Hplan Habove. cbv zeta.
  destruct (planned_bitrate_below_budget info r Hvalid Hpos Hplan) as [_ Hbelow].
  specialize (Hbelow Habove).
  rewrite calculate_target_bitrate_eq in Hplan. cbv zeta in Hplan.
  destruct (is_zero (duration info)); [discriminate |].
  destruct (floor _) as [floored |] eqn:Hfloor; cbn [bind] in Hplan;
    [| discriminate].
  injection Hplan as <-.
  assert (MIN_VIDEO_BITRATE < floored * 1000)%Z as Hbig by lia.
  rewrite Z.max_r in * by lia.
  assert (0 < floored)%Z as Hfl by (unfold MIN_VIDEO_BITRATE in Hbig; lia).
  destruct (floor_positive _ _ Hfloor Hfl) as (p2 & e2 & Hq2 & Hn).
  rewrite Hq2 in Hfloor. apply floor_upper in Hfloor.
  destruct thousand_value as (mk & ek & Hk & Hkv). rewrite Hk in Hq2.
  destruct (fdiv_positive _ _ _ _ _ Hq2) as (p1 & e1 & Hq1 & Hb2).
  rewrite Hq1 in Hq2. apply fdiv_lower in Hq2.
  rewrite Hkv in Hb2, Hq2.
  destruct audio_rate_exact as (ma & Hrate & Hratev).
  rewrite Hrate in Hq1.
  destruct (duration info) as [sd | sd | | sd md ed] eqn:Hd;
    try discriminate.
  { unfold fdiv in Hq1.
    destruct (fsub budget_bits _) as [? | ? | | ? ? ?];
      cbn [SFdiv] in Hq1; discriminate. }
  destruct sd; [discriminate |].
  destruct (fdiv_positive _ _ _ _ _ Hq1) as (pa & ea & Hqa & Hb1).
  rewrite Hqa in Hq1. apply fdiv_lower in Hq1.
  set (audio_bits := if has_audio info
                     then fmul (S754_finite false ma (-36)) (S754_finite false md ed)
                     else zero) in *.
  set (a := inject_Z (if has_audio info then AUDIO_BITRATE else 0)).
  assert (nonneg_finite audio_bits /\
          a * mant (Z.pos md) ed * (1 - 2 * u) - 2 * eta <= to_Q audio_bits /\
          to_Q audio_bits <= a * mant (Z.pos md) ed * (1 + u) + eta)
    as (Haudio & Hlow & Hhigh).
  { unfold audio_bits, a in *. destruct (has_audio info).
    - pose proof (fmul_lower ma md (-36) ed) as Hl.
      pose proof (fmul_upper (S754_finite false ma (-36)) (S754_finite false md ed)
                    I I) as Hh.
      pose proof (fmul_finite_not_nan false false ma md (-36) ed) as Hnn.
      pose proof (round_aux_shape false (Z.pos (ma * md)) (-36 + ed) loc_Exact
                    ltac:(lia)) as Hshape.
      rewrite !to_Q_mant, Hratev in Hh. rewrite Hratev in Hl.
      unfold fmul in *. cbn [SFmul xorb] in *.
      destruct (binary_round_aux prec emax false (Z.pos (ma * md)) (-36 + ed)
                  loc_Exact) as [s | s | | s q e]; try discriminate.
      + split; [exact I |]. split; [apply Hl | apply Hh]; reflexivity.
      + subst s. split; [exact I |]. split; [apply Hl | apply Hh]; reflexivity.
    - split; [exact I |]. cbn [to_Q zero].
      change (inject_Z 0) with 0. pose proof eta_pos. pose proof u_pos.
      split; lra. }
  change budget_bits with (S754_finite false 8736983277098762 (-27)) in Hqa.
  destruct (fsub_upper _ _ _ _ _ Haudio Hqa) as [HY Hba].
  pose proof (fsub_lower _ _ _ _ _ Haudio Hqa) as Hbl.
  pose proof (to_Q_nonneg _ Haudio) as HY0.
  pose proof (valid_binary_below md ed Hvalid) as Hdlt.
  rewrite to_Q_mant in *.
  pose proof (mant_nonneg (Z.pos md) ed ltac:(lia)) as HD.
  pose proof (mant_nonneg (Z.pos pa) ea ltac:(lia)) as HA.
  pose proof (mant_nonneg (Z.pos p1) e1 ltac:(lia)) as H1.
  pose proof (mant_nonneg (Z.pos p2) e2 ltac:(lia)) as H2.
  pose proof (eta_times_below _ HD Hdlt) as HetaD.
  pose proof u_tiny as Hu. pose proof eta_small as Heta.
  pose proof u_pos as Hu0. pose proof eta_pos as Heta0.
  pose proof budget_bits_value as HB. pose proof budget_bits_lower as HBl.
  set (D := mant (Z.pos md) ed) in *.
  set (A := mant (Z.pos pa) ea) in *.
  set (Q1 := mant (Z.pos p1) e1) in *.
  set (Q2 := mant (Z.pos p2) e2) in *.
  set (B := mant 8736983277098762 (-27)) in *.
  set (Y := to_Q audio_bits) in *.
  assert (0 <= a <= 96000) as Ha.
  { unfold a. destruct (has_audio info); vm_compute; split; discriminate. }
  rewrite !inject_Z_plus, inject_Z_mult in *. fold a.
  change (inject_Z 1000) with 1000 in *.
  change (inject_Z TARGET_BITS) with 67108864 in *.
  assert (80000 < inject_Z floored * 1000) as Hf80.
  { change 80000 with (inject_Z MIN_VIDEO_BITRATE). change 1000 with (inject_Z 1000).
    rewrite <- inject_Z_mult, <- Zlt_Qlt. exact Hbig. }
  (* the duration is short *)
  assert (D <= 839) as HD839.
  { destruct (Qlt_le_dec 839 D) as [Hgt | Hle]; [| exact Hle]. exfalso.
    assert (80000 * 839 <= inject_Z floored * 1000 * D)
      by (apply mul_le_bounds; lra).
    lra. }
  assert (D * u <= 839 * (1 # 1000000000000000)) as HDu
    by (apply mul_le_bounds; lra).
  assert (0 <= D * u) as HDu0 by (apply Qmult_le_0_compat; lra).
  assert (a * (D * u) <= 96000 * (839 * (1 # 1000000000000000))) as HaDu
    by (apply mul_le_bounds; lra).
  assert (0 <= a * (D * u)) as HaDu0 by (apply Qmult_le_0_compat; lra).
  assert (a * D - (1 # 1000) <= Y) as HYlow by lra.
  assert (Y <= a * D + (1 # 1000)) as HYhigh by lra.
  (* the difference *)
  assert ((B - Y) * u <= 65095599 * (1 # 1000000000000000)) as HZu
    by (apply mul_le_bounds; lra).
  assert (0 <= (B - Y) * u) as HZu0 by (apply Qmult_le_0_compat; lra).
  assert (A <= B - Y + (1 # 1000)) as HA' by lra.
  assert (B - Y - (1 # 1000) <= A) as HAl by lra.
  assert (A * u <= 65095600 * (1 # 1000000000000000)) as HAu
    by (apply mul_le_bounds; lra).
  assert (0 <= A * u) as HAu0 by (apply Qmult_le_0_compat; lra).
  (* the first quotient, times the duration *)
  assert (Q1 * D <= A + (1 # 1000)) as HQ1 by lra.
  assert (A - (1 # 1000) <= Q1 * D) as HQ1l by lra.
  assert (0 <= Q1 * D) as HQ1D by (apply Qmult_le_0_compat; lra).
  assert (Q1 * D * u <= 65095601 * (1 # 1000000000000000)) as HQ1u
    by (apply mul_le_bounds; lra).
  assert (0 <= Q1 * D * u) as HQ1u0 by (apply Qmult_le_0_compat; lra).
  (* the second quotient, times the duration *)
  pose proof (mul_le_l _ _ _ HD Hb2) as Hb2D.
  pose proof (mul_le_l _ _ _ HD Hq2) as Hq2D.
  assert (Q2 * 1000 * D <= Q1 * D + (2 # 1000)) as HQ2 by lra.
  assert (Q1 * D - (4 # 1000) <= Q2 * 1000 * D) as HQ2l by lra.
  (* the floor *)
  assert (inject_Z floored * D <= Q2 * D) as Hfl2
    by (apply Qmult_le_compat_r; lra).
  assert (Q2 * D <= (inject_Z floored + 1) * D) as Hfl3
    by (apply Qmult_le_compat_r; lra).
  split; lra.
Qed.

Lemma planned_bits_fill_the_margin_witness :
  inject_Z (988000 + AUDIO_BITRATE) * to_Q (float_of 60)
  <= inject_Z TARGET_BITS * (9701 # 10000) /\
  inject_Z TARGET_BITS * (9699 # 10000)
  <= inject_Z (988000 + 1000 + AUDIO_BITRATE) * to_Q (float_of 60).
Proof.
  apply (planned_bits_fill_the_margin (info_of (float_of 60) true) 988000);
    [reflexivity | reflexivity | vm_compute; reflexivity | reflexivity].
Defined.

(** ** Exact results *)

Local Open Scope Z_scope.

Lemma shr_1_exact (m : Z) :
  0 <= m -> (2 | m) ->
  shr_1 {| shr_m := m; shr_r := false; shr_s := false |}
  = {| shr_m := m / 2; shr_r := false; shr_s := false |}.
Proof.
  intros Hm [c Hc]. subst m. rewrite Z.div_mul by lia.
  destruct c as [| p | p]; [reflexivity | | lia].
  cbn [shr_1 orb Z.mul Pos.mul]. rewrite Pos.mul_comm. reflexivity.
Qed.

Lemma divide_pow2_split (m a b : Z) :
  0 <= a -> 0 <= b -> (2 ^ (a + b) | m) ->
  (2 ^ a | m) /\ (2 ^ b | m / 2 ^ a).
Proof.
  intros Ha Hb [c Hc]. subst m. rewrite Z.pow_add_r by lia.
  assert (0 < 2 ^ a) by (apply Z.pow_pos_nonneg; lia).
  split.
  - exists (c * 2 ^ b). ring.
  - replace (c * (2 ^ a * 2 ^ b)) with (c * 2 ^ b * 2 ^ a) by ring.
    rewrite Z.div_mul by lia. now exists c.
Qed.

Lemma iter_shr_1_exact (n : positive) :
  forall m : Z,
    0 <= m -> (2 ^ Z.pos n | m) ->
    iter_pos shr_1 n {| shr_m := m; shr_r := false; shr_s := false |}
    = {| shr_m := m / 2 ^ Z.pos n; shr_r := false; shr_s := false |}.
Proof.
  induction n as [n IH | n IH |]; intros m Hm Hdiv; cbn [iter_pos].
  - replace (Z.pos n~1) with (1 + (Z.pos n + Z.pos n)) in * by lia.
    apply divide_pow2_split in Hdiv; [| lia | lia].
    destruct Hdiv as [H1 H2]. change (2 ^ 1) with 2 in *.
    apply divide_pow2_split in H2; [| lia | lia].
    destruct H2 as [H2 H3].
    assert (0 <= m / 2) by (apply Z.div_pos; lia).
    assert (0 <= m / 2 / 2 ^ Z.pos n)
      by (apply Z.div_pos; [lia | apply Z.pow_pos_nonneg; lia]).
    assert (0 < 2 ^ Z.pos n) by (apply Z.pow_pos_nonneg; lia).
    rewrite shr_1_exact, IH, IH by assumption.
    rewrite !Z.div_div by lia.
    rewrite !Z.pow_add_r by lia. reflexivity.
  - replace (Z.pos n~0) with (Z.pos n + Z.pos n) in * by lia.
    apply divide_pow2_split in Hdiv; [| lia | lia].
    destruct Hdiv as [H1 H2].
    assert (0 <= m / 2 ^ Z.pos n)
      by (apply Z.div_pos; [lia | apply Z.pow_pos_nonneg; lia]).
    rewrite IH, IH by assumption.
    assert (0 < 2 ^ Z.pos n) by (apply Z.pow_pos_nonneg; lia).
    rewrite !Z.div_div by lia.
    now rewrite !Z.pow_add_r by lia.
  - change (2 ^ 1) with 2 in *. now apply shr_1_exact.
Qed.

(** An input whose low bits, down to the rounding exponent, are all zero
    is rounded to itself. *)
Lemma round_aux_exact (s : bool) (m e : Z) :
  0 < m ->
  (2 ^ (target_exp m e - e) | m) ->
  target_exp m e <= emax - prec ->
  binary_round_aux prec emax s m e loc_Exact
  = S754_finite s (Z.to_pos (m / 2 ^ (target_exp m e - e))) (target_exp m e).
Proof.
  intros Hm Hdiv Hrange.
  pose proof (target_exp_ge m e) as Hge.
  set (e1 := target_exp m e) in *.
  assert (0 < 2 ^ (e1 - e)) as Hp by (apply Z.pow_pos_nonneg; lia).
  set (m2 := m / 2 ^ (e1 - e)).
  assert (0 < m2) as Hm2.
  { destruct Hdiv as [c Hc]. unfold m2. rewrite Hc, Z.div_mul by lia. nia. }
  assert (fst (shr_fexp prec emax m e loc_Exact)
          = {| shr_m := m2; shr_r := false; shr_s := false |} /\
          snd (shr_fexp prec emax m e loc_Exact) = e1) as [Hrec He].
  { unfold shr_fexp, shr, shr_record_of_loc, m2, e1, target_exp in *.
    destruct (fexp (Zdigits2 m + e) - e) as [| n | n] eqn:Hn; cbn [fst snd].
    - rewrite Z.max_l by lia. rewrite Z.sub_diag, Z.div_1_r. auto.
    - rewrite Z.max_r in * by lia. rewrite Hn in *.
      rewrite iter_shr_1_exact by (try assumption; lia). split; [reflexivity | lia].
    - rewrite Z.max_l by lia. rewrite Z.sub_diag, Z.div_1_r. auto. }
  unfold binary_round_aux.
  destruct (shr_fexp prec emax m e loc_Exact) as [mrs1 e1'].
  cbn [fst snd] in Hrec, He. subst mrs1 e1'.
  cbn [shr_m loc_of_shr_record round_nearest_even].
  assert (target_exp m2 e1 = e1) as Hno.
  { unfold m2. unfold target_exp. rewrite Zdigits2_div_pow2 by (fold m2; lia).
    replace (Zdigits2 m - (e1 - e) + e1) with (Zdigits2 m + e) by lia.
    unfold e1, target_exp. lia. }
  destruct (shr_fexp_spec m2 e1 loc_Exact ltac:(lia)) as (_ & He3 & Hsame).
  specialize (Hsame Hno).
  destruct (shr_fexp prec emax m2 e1 loc_Exact) as [mrs3 e3].
  cbn [fst snd] in *. subst mrs3 e3. rewrite Hno. cbn [shr_record_of_loc shr_m].
  destruct m2 as [| p | p]; try lia.
  apply Z.leb_le in Hrange. rewrite Hrange. reflexivity.
Qed.

(** [float(n)] is [n] itself when [n] has at most 53 bits. *)
Lemma of_int_exact (n : Z) :
  0 < n < 2 ^ 53 ->
  of_int n = Ret (S754_finite false (Z.to_pos (n * 2 ^ (53 - Zdigits2 n)))
                    (Zdigits2 n - 53)).
Proof.
  intros [Hpos Hlt]. unfold of_int.
  destruct n as [| p | p]; try lia. cbn [binary_normalize]. unfold binary_round.
  destruct (shl_align_spec p 0 (fexp (Z.pos (digits2_pos p) + 0))) as [He Hm].

  destruct (shl_align p 0 (fexp (Z.pos (digits2_pos p) + 0))) as [mz ez].
  cbn [fst snd] in *.
  change (Z.pos (digits2_pos p)) with (Zdigits2 (Z.pos p)) in *.
  set (d := Zdigits2 (Z.pos p)) in *.
  assert (1 <= d <= 53) as Hd.
  { unfold d. pose proof (Zdigits2_bounds (Z.pos p) ltac:(lia)) as [Hl _].
    rewrite Zdigits2_log2 in * by lia. pose proof (Z.log2_nonneg (Z.pos p)).
    split; [lia |].
    assert (Z.log2 (Z.pos p) < 53); [| lia].
    apply Z.log2_lt_pow2; lia. }
  rewrite Z.add_0_r, fexp_eq in He, Hm.
  assert (ez = d - 53) as -> by lia.
  replace (0 - Z.min 0 (Z.max (d - 53) (-1074))) with (53 - d) in Hm by lia.
  assert (Zdigits2 (Z.pos mz) = 53) as Hdz.
  { rewrite Hm, Zdigits2_mul_pow2 by lia. fold d. lia. }
  assert (target_exp (Z.pos mz) (d - 53) = d - 53) as Hno.
  { unfold target_exp. rewrite Hdz, fexp_eq. lia. }
  rewrite round_aux_exact; rewrite ?Hno; try lia.
  - rewrite Z.sub_diag. change (2 ^ 0) with 1. rewrite Z.div_1_r.
    rewrite <- Hm. reflexivity.
  - rewrite Z.sub_diag. apply Z.divide_1_l.
  - unfold emax, prec. lia.
Qed.

Lemma Zdigits2_mono (a b : Z) : 0 < a <= b -> Zdigits2 a <= Zdigits2 b.
Proof.
  intros H. rewrite !Zdigits2_log2 by lia.
  pose proof (Z.log2_le_mono a b). lia.
Qed.

(** [int(b * 1.5)] is exact for a bitrate with at most 51 bits. *)
Lemma maxrate_exact (b : Z) :
  0 <= b < 2 ^ 51 -> maxrate_of b = Ret (3 * b / 2).
Proof.
  intros [Hlow Hup]. unfold maxrate_of, num_mul. cbn [as_float bind].
  destruct (Z.eq_dec b 0) as [-> | Hnz]; [reflexivity |].
  rewrite of_int_exact by lia. cbn [bind int_of].
  set (d := Zdigits2 b).
  set (d3 := Zdigits2 (3 * b)).
  assert (1 <= d) as Hd1
    by (unfold d; rewrite Zdigits2_log2 by lia; pose proof (Z.log2_nonneg b); lia).
  assert (d <= d3) as Hdd by (apply Zdigits2_mono; lia).
  assert (d3 <= 53) as Hd3.
  { unfold d3. rewrite Zdigits2_log2 by lia.
    assert (Z.log2 (3 * b) < 53); [| lia]. apply Z.log2_lt_pow2; lia. }
  assert (0 < 2 ^ (53 - d)) as Hp by (apply Z.pow_pos_nonneg; lia).
  set (p := Z.to_pos (b * 2 ^ (53 - d))).
  assert (Z.pos p = b * 2 ^ (53 - d)) as Hpz by (unfold p; rewrite Z2Pos.id; nia).
  unfold fmul, lit_1_5. cbn [SFmul xorb].
  set (m := Z.pos (p * 6755399441055744)).
  assert (m = 3 * b * 2 ^ (104 - d)) as Hm.
  { unfold m. rewrite Pos2Z.inj_mul, Hpz.
    change (Z.pos 6755399441055744) with (3 * 2 ^ 51).
    replace (104 - d) with ((53 - d) + 51) by lia.
    rewrite Z.pow_add_r by lia. ring. }
  assert (Zdigits2 m = d3 + 104 - d) as Hdm.
  { rewrite Hm, Zdigits2_mul_pow2 by lia. fold d3. lia. }
  assert (target_exp m (d - 53 + -52) = d3 - 54) as Ht.
  { unfold target_exp. rewrite Hdm, fexp_eq. lia. }
  assert (0 < 2 ^ (53 - d3)) as Hp3 by (apply Z.pow_pos_nonneg; lia).
  assert (m = 3 * b * 2 ^ (53 - d3) * 2 ^ (d3 - 54 - (d - 53 + -52))) as Hm'.
  { rewrite Hm.
    replace (104 - d) with ((53 - d3) + (d3 - 54 - (d - 53 + -52))) by lia.
    rewrite Z.pow_add_r by lia. ring. }
  rewrite round_aux_exact; rewrite ?Ht.
  - assert (0 < 2 ^ (d3 - 54 - (d - 53 + -52))) by (apply Z.pow_pos_nonneg; lia).
    rewrite Hm' at 1. rewrite Z.div_mul by lia.
    cbn [trunc]. destruct (0 <=? d3 - 54) eqn:He; [apply Z.leb_le in He; lia |].
    f_equal. rewrite Z2Pos.id by nia.
    rewrite Z.quot_div_nonneg by (try apply Z.pow_pos_nonneg; nia).
    replace (- (d3 - 54)) with (1 + (53 - d3)) by lia.
    rewrite Z.pow_add_r by lia. change (2 ^ 1) with 2.
    now rewrite Z.div_mul_cancel_r by lia.
  - unfold m. lia.
  - rewrite Hm'. apply Z.divide_factor_r.
  - unfold emax, prec. lia.
Qed.

(** X11: for a bitrate of at most 51 bits the float arithmetic of the
    rate arguments is exact: [int(video_bitrate * 1.5)] is [3 *
    video_bitrate / 2] rounded down, so the [-maxrate] an encode is given
    lies between its [-b:v] and its [-bufsize], which is twice the
    bitrate. *)
Theorem rate_arguments_are_ordered (b : Z) :
  0 <= b < 2 ^ 51 ->
  maxrate_of b = Ret (3 * b / 2) /\
  b <= 3 * b / 2 <= b * 2.
Proof.
  intros Hb. split; [now apply maxrate_exact |].
  split.
  - apply Z.div_le_lower_bound; lia.
  - apply Z.div_le_upper_bound; lia.
Qed.
Lemma rate_arguments_are_ordered_witness :
  maxrate_of 988000 = Ret (3 * 988000 / 2).
Proof.
  assert (0 <= 988000 < 2 ^ 51) as Hb by (split; [discriminate | reflexivity]).
  exact (proj1 (rate_arguments_are_ordered 988000 Hb)).
Defined.

(** ** The text handed to PowerShell *)

Lemma append_assoc (a b c : string) : (a ++ b) ++ c = a ++ b ++ c.
Proof. induction a as [| x a IH]; cbn [append]; [reflexivity | now rewrite IH]. Qed.

Lemma str_replace_app (old : ascii) (new s1 s2 : string) :
  str_replace old new (s1 ++ s2) = str_replace old new s1 ++ str_replace old new s2.
Proof.
  induction s1 as [| c s1 IH]; cbn [str_replace append]; [reflexivity |].
  destruct (Ascii.eqb c old); cbn [append]; rewrite IH;
    [now rewrite append_assoc | reflexivity].
Qed.



